(** * python-node-deepresearch: a shallow embedding of the agent core

    The development follows the Python sources under [deepresearch/]:
    [tools/evaluator.py], [tools/jina_dedup.py], [utils/url_tools.py],
    [utils/text_tools.py] and [agent.py].  Collaborators that the
    program reaches over the network (language model, embedding, rerank,
    page fetch) are section variables; everything the program itself
    computes is a definition that evaluates.

    Python strings are modelled as lists of characters (ASCII text), Python
    floats as exact rationals [Q], Python integers as [Z] or
    [nat], and a Python exception as the [Raise] branch of [result]. *)

From Stdlib Require Import List String Ascii Bool Arith ZArith QArith Qminmax Lia.
From Stdlib Require Import Sorted Permutation.
Import ListNotations.

Close Scope Q_scope.
Local Open Scope nat_scope.

Set Implicit Arguments.

(** ** Python outcomes *)

Module Py.

(** The exception classes the modelled code can raise.  [ExternalError]
      stands for whatever a collaborator raises. *)
Inductive exn : Set :=
  | UnboundLocalError
  | TypeError
  | AttributeError
  | IndexError
  | KeyError
  | ValueError
  | ZeroDivisionError
  | ExternalError.

Inductive result (A : Type) : Type :=
  | Ok (a : A)
  | Raise (e : exn).

Arguments Ok {A} a.
Arguments Raise {A} e.

Definition bind {A B : Type} (r : result A) (k : A -> result B) : result B :=
    match r with
    | Ok a => k a
    | Raise e => Raise e
    end.

Definition returns {A : Type} (r : result A) : bool :=
    match r with
    | Ok _ => true
    | Raise _ => false
    end.

(** [xs[i]] for a Python list: negative indices count from the end,
      anything outside [-len, len) raises [IndexError]. *)
Definition index {A : Type} (xs : list A) (i : Z) : result A :=
    let n := Z.of_nat (List.length xs) in
    let j := if (i <? 0)%Z then (i + n)%Z else i in
    if ((j <? 0) || (n <=? j))%Z%bool then Raise IndexError
    else match nth_error xs (Z.to_nat j) with
         | Some x => Ok x
         | None => Raise IndexError
         end.

(** [xs[i] = v] for a Python list, same index rule. *)
Fixpoint set_nth {A : Type} (xs : list A) (k : nat) (v : A) : list A :=
    match xs, k with
    | [], _ => []
    | _ :: t, O => v :: t
    | x :: t, S k' => x :: set_nth t k' v
    end.

Definition store {A : Type} (xs : list A) (i : Z) (v : A) : result (list A) :=
    let n := Z.of_nat (List.length xs) in
    let j := if (i <? 0)%Z then (i + n)%Z else i in
    if ((j <? 0) || (n <=? j))%Z%bool then Raise IndexError
    else Ok (set_nth xs (Z.to_nat j) v).

End Py.

Import Py.

Declare Scope py_scope.
Delimit Scope py_scope with py.
Notation "x <- c1 ;; c2" := (Py.bind c1 (fun x => c2))
  (at level 61, c1 at next level, right associativity) : py_scope.
Local Open Scope py_scope.

(** ** Strings

    Python [str] values are lists of characters; a literal is written as
    a Rocq string and read through [list_ascii_of_string]. *)

Definition str : Set := list ascii.

Definition lit (s : string) : str := list_ascii_of_string s.

Coercion lit : string >-> str.

Module Str.

Definition code (c : ascii) : nat := nat_of_ascii c.

Definition ch (n : nat) : ascii := ascii_of_nat n.

Definition ceqb (a b : ascii) : bool := Ascii.eqb a b.

Fixpoint eqb (a b : str) : bool :=
  match a, b with
  | [], [] => true
  | x :: a', y :: b' => ceqb x y && eqb a' b'
  | _, _ => false
  end.

Definition is_upper (c : ascii) : bool := (65 <=? code c) && (code c <=? 90).
Definition is_lower (c : ascii) : bool := (97 <=? code c) && (code c <=? 122).
Definition is_alpha (c : ascii) : bool := is_upper c || is_lower c.
Definition is_digit (c : ascii) : bool := (48 <=? code c) && (code c <=? 57).

(** [str.lower()] on ASCII. *)
Definition lower_char (c : ascii) : ascii :=
  if is_upper c then ch (code c + 32) else c.

Definition lower (s : str) : str := map lower_char s.

(** [s.startswith(p)] *)
Fixpoint startswith (p s : str) : bool :=
  match p, s with
  | [], _ => true
  | x :: p', y :: s' => ceqb x y && startswith p' s'
  | _ :: _, [] => false
  end.

(** [p in s] for strings: [p] occurs as a contiguous block of [s]. *)
Fixpoint contains (p s : str) : bool :=
  startswith p s ||
  match s with
  | [] => false
  | _ :: s' => contains p s'
  end.

(** [c in s] for a single character. *)
Definition has_char (c : ascii) (s : str) : bool := existsb (ceqb c) s.

(** The longest prefix without a character satisfying [p], and the rest
    (which starts at the first such character, if any). *)
Fixpoint break (p : ascii -> bool) (s : str) : str * str :=
  match s with
  | [] => ([], [])
  | c :: s' =>
      if p c then ([], s)
      else let (a, b) := break p s' in (c :: a, b)
  end.

(** [s.partition(c)]: text before the first [c], whether [c] was found,
    text after it. *)
Definition partition (c : ascii) (s : str) : str * bool * str :=
  match break (ceqb c) s with
  | (a, []) => (a, false, [])
  | (a, _ :: b) => (a, true, b)
  end.

(** [s.split(c)] for a one-character separator: always at least one
    piece. *)
Fixpoint split (c : ascii) (s : str) : list str :=
  match s with
  | [] => [[]]
  | x :: s' =>
      if ceqb c x then [] :: split c s'
      else match split c s' with
           | [] => [[x]]
           | p :: ps => (x :: p) :: ps
           end
  end.

(** [sep.join(parts)] *)
Fixpoint join (sep : str) (parts : list str) : str :=
  match parts with
  | [] => []
  | [p] => p
  | p :: ps => p ++ sep ++ join sep ps
  end.

(** [s.replace(c, "")] for a single character. *)
Definition remove_char (c : ascii) (s : str) : str :=
  filter (fun x => negb (ceqb c x)) s.

(** [s.replace(a, b)] for single characters. *)
Definition replace_char (a b : ascii) (s : str) : str :=
  map (fun x => if ceqb a x then b else x) s.

(** Characters [str.strip()] removes, within the ASCII range: tab, line
    feed, vertical tab, form feed, carriage return, the four separators
    28..31 and space. *)
Definition is_space (c : ascii) : bool :=
  let n := code c in
  ((9 <=? n) && (n <=? 13)) || ((28 <=? n) && (n <=? 32)).

Fixpoint lstrip (s : str) : str :=
  match s with
  | c :: s' => if is_space c then lstrip s' else s
  | [] => []
  end.

Definition rstrip (s : str) : str := rev (lstrip (rev s)).

Definition strip (s : str) : str := rstrip (lstrip s).

(** Lexicographic order by character code, as Python compares [str]. *)
Fixpoint ltb (a b : str) : bool :=
  match a, b with
  | _, [] => false
  | [], _ :: _ => true
  | x :: a', y :: b' =>
      if code x <? code y then true
      else if code y <? code x then false
      else ltb a' b'
  end.

Definition leb (a b : str) : bool := negb (ltb b a).

(** [x in xs] for a list of strings. *)
Definition mem (x : str) (xs : list str) : bool := existsb (eqb x) xs.

(** Decimal digits of a non-negative integer, for [str(int)]. *)
Fixpoint digits_fuel (fuel : nat) (n : Z) (acc : str) : str :=
  match fuel with
  | O => acc
  | S f =>
      let d := ch (48 + Z.to_nat (n mod 10)) in
      if (n <? 10)%Z then d :: acc
      else digits_fuel f (n / 10)%Z (d :: acc)
  end.

Definition of_Z (n : Z) : str :=
  digits_fuel (S (Z.to_nat (Z.log2 n))) n [].

End Str.

(** ** model_types.py: the evaluation vocabulary *)

Inductive EvaluationType : Set :=
| DEFINITIVE
| FRESHNESS
| PLURALITY
| ATTRIBUTION
| COMPLETENESS
| STRICT.

Definition EvaluationType_eqb (a b : EvaluationType) : bool :=
  match a, b with
  | DEFINITIVE, DEFINITIVE | FRESHNESS, FRESHNESS | PLURALITY, PLURALITY
  | ATTRIBUTION, ATTRIBUTION | COMPLETENESS, COMPLETENESS | STRICT, STRICT => true
  | _, _ => false
  end.

(** [RepeatEvaluationType]: a criterion with its attempts counter. *)
Record RepeatEvaluationType : Set := mkRepeat {
  re_type : EvaluationType;
  num_evals_required : Z
}.

(** [EvaluationResponse]; [ev_type] is the optional [type] field. *)
Record EvaluationResponse : Set := mkEvaluation {
  pass_eval : bool;
  think : str;
  ev_type : option EvaluationType;
  improvement_plan : option str
}.

(** ** tools/evaluator.py *)

Module Evaluator.

(** The JSON object a generator call produces for the evaluator schema
      ([think] and [pass_eval] are required by the schema). *)
Record EvalObject : Set := mkObject {
    obj_pass_eval : bool;
    obj_think : str;
    obj_type : option EvaluationType;
    obj_improvement_plan : option str
  }.

(** What the local variable [result] of [evaluate_answer] can hold:
      [None], the [GenerateObjectResult] wrapper returned by
      [perform_evaluation], or the bare dict taken out of it by
      [result = result.object]. *)
Inductive ResultVar : Set :=
  | RNone
  | RGenerated (o : EvalObject)
  | RDict (o : EvalObject).

(** [result.object]: only the wrapper has that attribute. *)
Definition attr_object (r : ResultVar) : result EvalObject :=
    match r with
    | RGenerated o => Ok o
    | RNone | RDict _ => Raise AttributeError
    end.

(** [EvaluationResponse.model_construct] applied to the dict, with its
    [type] entry overwritten when [ty] is given. *)
Definition model_construct (o : EvalObject) (ty : option EvaluationType)
    : EvaluationResponse :=
    {| pass_eval := obj_pass_eval o;
       think := obj_think o;
       ev_type := match ty with Some t => Some t | None => obj_type o end;
       improvement_plan := obj_improvement_plan o |}.

(** The criteria for which [evaluate_answer] builds a prompt; the
      [else] branch prints and continues. *)
Definition has_prompt (t : EvaluationType) : bool :=
    match t with
    | DEFINITIVE | FRESHNESS | PLURALITY | COMPLETENESS | STRICT => true
    | ATTRIBUTION => false
    end.

Section EvaluateAnswer.

    (** [perform_evaluation]: the [n]-th generator call of this
        evaluation, for criterion [t]; it returns the wrapper or raises. *)
Variable perform_evaluation : nat -> EvaluationType -> result EvalObject.

Fixpoint evaluate_loop (n : nat) (types : list EvaluationType)
             (res : ResultVar) : result EvaluationResponse :=
      match types with
      | [] =>
          (* after the loop: model_construct of result.object *)
          o <- attr_object res ;; Ok (model_construct o None)
      | t :: rest =>
          if has_prompt t then
            g <- perform_evaluation n t ;;
            (* result = result.object *)
            o <- attr_object (RGenerated g) ;;
            if negb (obj_pass_eval o)
            then Ok (model_construct o (Some t))
            else evaluate_loop (S n) rest (RDict o)
          else evaluate_loop n rest res
      end.

Definition evaluate_answer (evaluation_types : list EvaluationType)
      : result EvaluationResponse :=
      evaluate_loop 0 evaluation_types RNone.

End EvaluateAnswer.

End Evaluator.

(** ** tools/jina_dedup.py *)

Module Dedup.

(** What [dedup_queries] hands back: the dict with key
    [unique_queries], or (on the fallback paths) the bare list. *)
Inductive DedupValue : Set :=
| UniqueDict (unique_queries : list str)
| BareList (queries : list str).

(** [SIMILARITY_THRESHOLD = 0.86] *)
Definition SIMILARITY_THRESHOLD : Q := (86 # 100)%Q.

(** [value["unique_queries"]], as every caller in [agent.py] writes it:
    a list cannot be indexed by a string. *)
Definition subscript_unique_queries (v : DedupValue) : result (list str) :=
  match v with
  | UniqueDict qs => Ok qs
  | BareList _ => Raise TypeError
  end.

Section DedupQueries.

(** Embedding vectors and the two collaborators: [get_embeddings]
    yields the [embeddings] list and the token count or raises;
    [cosine_similarity] is the numpy computation. *)
Variable Emb : Type.
Variable get_embeddings : list str -> result (list Emb * Z).
Variable cosine_similarity : Emb -> Emb -> result Q.

(** [any(cosine(e, o) >= threshold for o in others)], stopping at the
    first hit as the [break] does. *)
Fixpoint similar_to_any (e : result Emb) (others : list (result Emb))
  : result bool :=
  match others with
  | [] => Ok false
  | o :: rest =>
      e' <- e ;;
      o' <- o ;;
      s <- cosine_similarity e' o' ;;
      if Qle_bool SIMILARITY_THRESHOLD s then Ok true
      else similar_to_any e rest
  end.

(** The body of [for i in range(len(new_queries))], with the accepted
    queries and their indices threaded through. *)
Fixpoint dedup_loop (new_queries : list str) (i : nat)
         (new_embeddings existing_embeddings : list Emb)
         (n_existing : nat)
         (unique_queries : list str) (used_indices : list nat)
  : result (list str) :=
  match new_queries with
  | [] => Ok unique_queries
  | q :: rest =>
      let e := Py.index new_embeddings (Z.of_nat i) in
      dup_old <- similar_to_any e
                   (map (fun j => Py.index existing_embeddings (Z.of_nat j))
                        (seq 0 n_existing)) ;;
      dup_new <- (if dup_old then Ok true
                  else similar_to_any e
                         (map (fun u => Py.index new_embeddings (Z.of_nat u))
                              used_indices)) ;;
      if dup_new
      then dedup_loop rest (S i) new_embeddings existing_embeddings n_existing
             unique_queries used_indices
      else dedup_loop rest (S i) new_embeddings existing_embeddings n_existing
             (unique_queries ++ [q]) (used_indices ++ [i])
  end.

(** The [try] block of [dedup_queries]. *)
Definition dedup_try (new_queries existing_queries : list str)
  : result DedupValue :=
  r <- get_embeddings (new_queries ++ existing_queries) ;;
  let all_embeddings := fst r in
  match all_embeddings with
  | [] => Ok (BareList new_queries)
  | _ :: _ =>
      let n := List.length new_queries in
      u <- dedup_loop new_queries 0 (firstn n all_embeddings)
             (skipn n all_embeddings) (List.length existing_queries) [] [] ;;
      Ok (UniqueDict u)
  end.

(** [dedup_queries]: the fast path reads the local [unique_queries]
    before any assignment to it; the [except] clause returns the bare
    list. *)
Definition dedup_queries (new_queries existing_queries : list str)
  : result DedupValue :=
  match new_queries, existing_queries with
  | [_], [] => Raise UnboundLocalError
  | _, _ =>
      match dedup_try new_queries existing_queries with
      | Ok v => Ok v
      | Raise _ => Ok (BareList new_queries)
      end
  end.

(** The call sites in the search and reflect branches of
    [get_response]: [(await dedup_queries(qs, old, ctx))["unique_queries"]]. *)
Definition unique_queries_of (new_queries existing_queries : list str)
  : result (list str) :=
  v <- dedup_queries new_queries existing_queries ;;
  subscript_unique_queries v.

End DedupQueries.

End Dedup.

(** ** utils/text_tools.py *)

Module TextTools.

(** [s[len(s) - n:]] for [0 < n <= len(s)]. *)
Definition suffix (n : nat) (s : str) : str := skipn (List.length s - n) s.

(** The [for overlap_length in range(max_overlap, 0, -1)] search: the
    largest [n <= bound] with the last [n] characters of [str1] equal to
    the first [n] of [str2], or [0]. *)
Fixpoint best_overlap (bound : nat) (str1 str2 : str) : nat :=
  match bound with
  | O => O
  | S b =>
      if Str.eqb (suffix bound str1) (firstn bound str2) then bound
      else best_overlap b str1 str2
  end.

Definition smart_merge_strings (str1 str2 : str) : str :=
  match str1, str2 with
  | [], _ => str2
  | _, [] => str1
  | _, _ =>
      if Str.contains str1 str2 then str2
      else if Str.contains str2 str1 then str1
      else
        let max_overlap := Nat.min (List.length str1) (List.length str2) in
        let best_overlap_length := best_overlap max_overlap str1 str2 in
        if 0 <? best_overlap_length
        then firstn (List.length str1 - best_overlap_length) str1 ++ str2
        else str1 ++ str2
  end.

End TextTools.

(** ** The parts of Python's [urllib.parse] that the program calls

    Modelled for ASCII text.  Two places are outside the model and are
    marked below: a bracketed (IPv6 literal) host, which Python validates
    as an address, and a percent escape of a byte above 127, which Python
    decodes as UTF-8. *)

Module UrlLib.

Record ParseResult : Set := mkParse {
  scheme : str;
  netloc : str;
  path : str;
  params : str;
  query : str;
  fragment : str
}.

Definition is_scheme_char (c : ascii) : bool :=
  Str.is_alpha c || Str.is_digit c ||
  Str.ceqb c "+"%char || Str.ceqb c "-"%char || Str.ceqb c "."%char.

(** Leading C0 control characters and spaces are dropped. *)
Fixpoint lstrip_c0 (s : str) : str :=
  match s with
  | c :: s' => if Str.code c <=? 32 then lstrip_c0 s' else s
  | [] => []
  end.

(** Tab, carriage return and line feed are removed everywhere. *)
Definition remove_unsafe (s : str) : str :=
  filter (fun c => negb ((Str.code c =? 9) || (Str.code c =? 10) || (Str.code c =? 13))) s.

(** The scheme test of [urlsplit]: a colon not in first position, a
    letter first, scheme characters up to the colon. *)
Definition split_scheme (url : str) : str * str :=
  match Str.partition ":"%char url with
  | (c :: pre, true, rest) =>
      if Str.is_alpha c && (Str.code c <? 128) && forallb is_scheme_char (c :: pre)
      then (Str.lower (c :: pre), rest)
      else ([], url)
  | _ => ([], url)
  end.

Definition is_netloc_delim (c : ascii) : bool :=
  Str.ceqb c "/"%char || Str.ceqb c "?"%char || Str.ceqb c "#"%char.

(** [_splitnetloc(url, 2)] after the leading [//]. *)
Definition split_netloc (url : str) : str * str :=
  match url with
  | a :: b :: rest =>
      if Str.ceqb a "/"%char && Str.ceqb b "/"%char
      then Str.break is_netloc_delim rest
      else ([], url)
  | _ => ([], url)
  end.

(** The bracket checks of [urlsplit].  A netloc holding both brackets
    is validated by Python as an IP literal; the model rejects it. *)
Definition check_brackets (netloc : str) : result unit :=
  if Str.has_char "["%char netloc || Str.has_char "]"%char netloc
  then Raise ValueError
  else Ok tt.

Definition urlsplit (url0 : str) : result (str * str * str * str * str) :=
  let url := remove_unsafe (lstrip_c0 url0) in
  let (scheme, url1) := split_scheme url in
  let (netloc, url2) := split_netloc url1 in
  _ <- check_brackets netloc ;;
  let '(url3, _, fragment) := Str.partition "#"%char url2 in
  let '(url4, _, query) := Str.partition "?"%char url3 in
  Ok (scheme, netloc, url4, query, fragment).

Definition uses_params : list str :=
  [lit ""; lit "ftp"; lit "hdl"; lit "prospero"; lit "http"; lit "imap";
   lit "https"; lit "shttp"; lit "rtsp"; lit "rtspu"; lit "sip"; lit "sips";
   lit "mms"; lit "sftp"; lit "tel"].

(** The text from the last [/] on, and what precedes it. *)
Definition rbreak_slash (s : str) : str * str :=
  let (tail_rev, head_rev) := Str.break (Str.ceqb "/"%char) (rev s) in
  (rev head_rev, rev tail_rev).

(** [_splitparams]: a [;] in the last path segment starts the params. *)
Definition splitparams (url : str) : str * str :=
  if Str.has_char "/"%char url then
    let (head, last) := rbreak_slash url in
    match Str.partition ";"%char last with
    | (seg, true, ps) => (head ++ seg, ps)
    | (_, false, _) => (url, [])
    end
  else
    let '(seg, _, ps) := Str.partition ";"%char url in (seg, ps).

Definition urlparse (url : str) : result ParseResult :=
  r <- urlsplit url ;;
  let '(scheme, netloc, url', query, fragment) := r in
  let (p, ps) :=
    if Str.mem scheme uses_params && Str.has_char ";"%char url'
    then splitparams url' else (url', []) in
  Ok (mkParse scheme netloc p ps query fragment).

(** [netloc.rpartition('@')[2]] *)
Definition hostinfo_of (netloc : str) : str :=
  let (tail_rev, _) := Str.break (Str.ceqb "@"%char) (rev netloc) in
  rev tail_rev.

(** The [hostname] property: [None] for an empty host, else the host
    lowercased up to a [%] zone mark. *)
Definition hostname (r : ParseResult) : option str :=
  let '(host, _, _) := Str.partition ":"%char (hostinfo_of (netloc r)) in
  match host with
  | [] => None
  | _ =>
      let (h, zone) := Str.break (Str.ceqb "%"%char) host in
      Some (Str.lower h ++ zone)
  end.

(** [int(port)] for a string of ASCII digits. *)
Definition int_of_digits (s : str) : Z :=
  fold_left (fun acc c => (10 * acc + Z.of_nat (Str.code c - 48))%Z) s 0%Z.

(** The [port] property: [None] when absent or empty, [ValueError] when
    not all digits or above 65535. *)
Definition port (r : ParseResult) : result (option Z) :=
  let '(_, _, p) := Str.partition ":"%char (hostinfo_of (netloc r)) in
  match p with
  | [] => Ok None
  | _ =>
      if forallb Str.is_digit p then
        let n := int_of_digits p in
        if (n <=? 65535)%Z then Ok (Some n) else Raise ValueError
      else Raise ValueError
  end.

Definition is_hex (c : ascii) : bool :=
  Str.is_digit c ||
  ((65 <=? Str.code c) && (Str.code c <=? 70)) ||
  ((97 <=? Str.code c) && (Str.code c <=? 102)).

Definition hex_value (c : ascii) : nat :=
  let n := Str.code c in
  if Str.is_digit c then n - 48
  else if n <=? 70 then n - 55
  else n - 87.

(** [unquote]: [%XX] becomes the character XX.  An escape above 127 is
    kept as written (outside the model). *)
Fixpoint unquote (s : str) : str :=
  match s with
  | [] => []
  | c :: s' =>
      if Str.ceqb c "%"%char then
        match s' with
        | a :: b :: s'' =>
            if is_hex a && is_hex b && (16 * hex_value a + hex_value b <? 128)
            then Str.ch (16 * hex_value a + hex_value b) :: unquote s''
            else c :: unquote s'
        | _ => c :: unquote s'
        end
      else c :: unquote s'
  end.

Definition is_unreserved (c : ascii) : bool :=
  Str.is_alpha c || Str.is_digit c ||
  Str.ceqb c "_"%char || Str.ceqb c "."%char ||
  Str.ceqb c "-"%char || Str.ceqb c "~"%char.

Definition hex_digit (n : nat) : ascii :=
  if n <? 10 then Str.ch (48 + n) else Str.ch (55 + n).

(** [quote(s, safe)]: everything but the unreserved characters and
    those in [safe] becomes [%XX] with upper-case digits. *)
Definition quote_with (safe : str) (s : str) : str :=
  flat_map (fun c =>
    if is_unreserved c || Str.has_char c safe then [c]
    else ["%"%char; hex_digit (Str.code c / 16); hex_digit (Str.code c mod 16)]) s.

(** [quote(s)], whose default [safe] is the slash. *)
Definition quote (s : str) : str := quote_with (lit "/") s.

(** [quote_plus(s)]: spaces become [+], the slash is escaped. *)
Definition quote_plus (s : str) : str :=
  if Str.has_char " "%char s
  then Str.replace_char " "%char "+"%char (quote_with (lit " ") s)
  else quote_with [] s.

(** [urlencode] of a list of string pairs. *)
Definition urlencode (pairs : list (str * str)) : str :=
  Str.join (lit "&")
    (map (fun kv => quote_plus (fst kv) ++ lit "=" ++ quote_plus (snd kv)) pairs).

(** [parse_qsl(qs)] with its defaults: fields without [=] or with an
    empty value are dropped. *)
Definition parse_qsl (qs : str) : list (str * str) :=
  match qs with
  | [] => []
  | _ =>
      flat_map (fun name_value =>
        match Str.partition "="%char name_value with
        | (name, true, (_ :: _) as value) =>
            [(unquote (Str.replace_char "+"%char " "%char name),
              unquote (Str.replace_char "+"%char " "%char value))]
        | _ => []
        end) (Str.split "&"%char qs)
  end.

End UrlLib.

(** ** utils/url_tools.py: the URL normalizer *)

Module Normalizer.

(** A literal matched under [re.IGNORECASE] at the start of [s]; the
    remainder on success. *)
Definition strip_ci (p s : str) : option str :=
  if Str.eqb (Str.lower p) (Str.lower (firstn (List.length p) s))
  then Some (skipn (List.length p) s)
  else None.

(** An optional literal. *)
Definition strip_opt_ci (p s : str) : str :=
  match strip_ci p s with
  | Some r => r
  | None => s
  end.

Definition is_newline (c : ascii) : bool := Str.code c =? 10.

(** What is left of [s] after
    [https?://(www\.)?(x\.com|twitter\.com)/([^/]+)/status/(\d+)],
    when [s] starts that way. *)
Definition x_status_rest (s : str) : option str :=
  match strip_ci (lit "http") s with
  | None => None
  | Some r1 =>
  match strip_ci (lit "://") (strip_opt_ci (lit "s") r1) with
  | None => None
  | Some r2 =>
  let r3 := strip_opt_ci (lit "www.") r2 in
  match (match strip_ci (lit "x.com") r3 with
         | Some r => Some r
         | None => strip_ci (lit "twitter.com") r3
         end) with
  | None => None
  | Some r4 =>
  match strip_ci (lit "/") r4 with
  | None => None
  | Some r5 =>
  match Str.break (Str.ceqb "/"%char) r5 with
  | ([], _) => None
  | (_ :: _, r6) =>
  match strip_ci (lit "/status/") r6 with
  | None => None
  | Some r7 =>
  match Str.break (fun c => negb (Str.is_digit c)) r7 with
  | ([], _) => None
  | (_ :: _, r8) => Some r8
  end end end end end end end.

(** The [remove_x_analytics] rewrite: when the whole string matches
    [x_com_pattern], the [/analytics] suffix (and one slash after it) is
    cut out, the query and fragment groups are kept. *)
Definition remove_x_analytics (s : str) : str :=
  match x_status_rest s with
  | None => s
  | Some r8 =>
      match strip_ci (lit "/analytics") r8 with
      | None => s
      | Some r9 =>
          let tail := strip_opt_ci (lit "/") r9 in
          let group1 := firstn (List.length s - List.length r8) s in
          match tail with
          | [] => group1
          | c :: _ =>
              if (Str.ceqb c "?"%char || Str.ceqb c "#"%char)
                 && negb (existsb is_newline tail)
              then group1 ++ tail
              else s
          end
      end
  end.

(** [re.sub(r"/+", "/", path)] *)
Fixpoint collapse_slashes (s : str) : str :=
  match s with
  | a :: ((b :: _) as s') =>
      if Str.ceqb a "/"%char && Str.ceqb b "/"%char
      then collapse_slashes s'
      else a :: collapse_slashes s'
  | _ => s
  end.

Fixpoint drop_leading_slashes (s : str) : str :=
  match s with
  | c :: s' => if Str.ceqb c "/"%char then drop_leading_slashes s' else s
  | [] => []
  end.

(** [re.sub(r"/+$", "", path)]: the slashes at the very end go; so do
    the slashes just before a final line feed, where [$] also
    matches. *)
Definition strip_trailing_slashes (s : str) : str :=
  match rev s with
  | c :: r =>
      if Str.ceqb c "/"%char then rev (drop_leading_slashes r)
      else if is_newline c then rev (c :: drop_leading_slashes r)
      else s
  | [] => []
  end.

(** The path steps: split on [/], unquote each piece, join, collapse,
    strip, and fall back to the root. *)
Definition normalize_path (p : str) : str :=
  let joined := Str.join (lit "/") (map UrlLib.unquote (Str.split "/"%char p)) in
  match strip_trailing_slashes (collapse_slashes joined) with
  | [] => lit "/"
  | q => q
  end.

(** [re.match(r"^(a|b|...)$", key, re.IGNORECASE)] for literal
    alternatives: [$] also accepts one final line feed. *)
Definition chop_newline (k : str) : str :=
  match rev k with
  | c :: r => if is_newline c then rev r else k
  | [] => k
  end.

Definition session_keys : list str :=
  [lit "s"; lit "session"; lit "sid"; lit "sessionid"; lit "phpsessid";
   lit "jsessionid"; lit "aspsessionid"; lit "asp.net_sessionid"].

Definition tracking_keys : list str :=
  [lit "ref"; lit "referrer"; lit "fbclid"; lit "gclid"; lit "cid";
   lit "mcid"; lit "source"; lit "medium"; lit "campaign"; lit "term";
   lit "content"; lit "sc_rid"].

Definition is_session_key (key : str) : bool :=
  let k := Str.lower key in
  Str.mem k session_keys || Str.mem (chop_newline k) session_keys.

(** [mc_[a-z]+] under [re.IGNORECASE] *)
Definition is_mc_key (k : str) : bool :=
  match strip_ci (lit "mc_") k with
  | Some ((_ :: _) as r) => forallb Str.is_lower (Str.lower r)
  | _ => false
  end.

Definition is_tracking_key (key : str) : bool :=
  let k := Str.lower key in
  Str.mem k tracking_keys || Str.mem (chop_newline k) tracking_keys
  || is_mc_key k || is_mc_key (chop_newline k).

Definition is_utm_key (key : str) : bool :=
  Str.startswith (lit "utm_") (Str.lower key).

(** The body of [for key, value in query_params]. *)
Definition filter_param (kv : str * str) : list (str * str) :=
  let (key, value) := kv in
  match key with
  | [] => []
  | _ =>
      if is_session_key key then []
      else if is_utm_key key then []
      else if is_tracking_key key then []
      else
        match value with
        | [] => [(key, value)]
        | _ =>
            let decoded_value := UrlLib.unquote value in
            if Str.eqb (UrlLib.quote decoded_value) value
            then [(key, decoded_value)]
            else [(key, value)]
        end
  end.

(** [filtered_params.sort(key=lambda x: x[0])]: stable, by key. *)
Fixpoint insert_param (x : str * str) (l : list (str * str)) : list (str * str) :=
  match l with
  | [] => [x]
  | y :: l' =>
      if Str.leb (fst x) (fst y) then x :: l
      else y :: insert_param x l'
  end.

Definition sort_params (l : list (str * str)) : list (str * str) :=
  fold_right insert_param [] l.

Definition normalize_query (q : str) : str :=
  UrlLib.urlencode (sort_params (flat_map filter_param (UrlLib.parse_qsl q))).

(** The port text: empty for the scheme's default port and for port 0
    (which is falsy), [:n] otherwise. *)
Definition port_text (scheme : str) (p : option Z) : str :=
  match p with
  | None => []
  | Some n =>
      if (Str.eqb scheme (lit "http") && (n =? 80)%Z)
         || (Str.eqb scheme (lit "https") && (n =? 443)%Z)
      then []
      else if (n =? 0)%Z then []
      else lit ":" ++ Str.of_Z n
  end.

(** The [try] block of [normalize_url] with the default options;
    [Raise] is any of its [raise ValueError] statements or an exception of
    the library. *)
Definition normalize_try (url_string0 : str) : result str :=
  let url_string := Str.strip (Str.remove_char " "%char url_string0) in
  match url_string with
  | [] => Raise ValueError
  | _ =>
      if Str.startswith (lit "https://google.com/") url_string
         || Str.startswith (lit "https://www.google.com") url_string
      then Raise ValueError
      else if Str.contains (lit "example.com") url_string
      then Raise ValueError
      else
        url <- UrlLib.urlparse (remove_x_analytics url_string) ;;
        if negb (Str.mem (UrlLib.scheme url) [lit "http"; lit "https"])
        then Raise ValueError
        else
          let hostname :=
            match UrlLib.hostname url with
            | Some h => Str.lower h
            | None => []
            end in
          let hostname :=
            if Str.startswith (lit "www.") hostname then skipn 4 hostname
            else hostname in
          p <- UrlLib.port url ;;
          let path := normalize_path (UrlLib.path url) in
          let query := normalize_query (UrlLib.query url) in
          Ok (UrlLib.scheme url ++ lit "://" ++ hostname
              ++ port_text (UrlLib.scheme url) p ++ path
              ++ match query with
                 | [] => []
                 | _ => lit "?" ++ query
                 end)
  end.

(** [normalize_url]: the canonical key, or [None] when anything in the
    [try] block raised. *)
Definition normalize_url (url_string : str) : option str :=
  match normalize_try url_string with
  | Ok u => Some u
  | Raise _ => None
  end.

End Normalizer.

(** ** utils/url_tools.py: ledger, ranking and the visit pipeline *)

Module UrlTools.

Import Normalizer.

(** [SearchSnippet]: the fields the program reads.  [weight] and [date]
    are optional in the class. *)
Record SearchSnippet : Set := mkSnippet {
  title : str;
  url : str;
  description : str;
  weight : option Q;
  date : option str
}.

(** [BoostedSearchSnippet]: a snippet with its ranking factors. *)
Record BoostedSearchSnippet : Set := mkBoosted {
  snippet : SearchSnippet;
  freq_boost : Q;
  hostname_boost : Q;
  path_boost : Q;
  jina_rerank_boost : Q;
  final_score : Q;
  score : Q;
  merged : str
}.

(** The URL ledger [all_urls]: a dict in insertion order. *)
Definition Ledger : Set := list (str * SearchSnippet).

Definition keys (l : Ledger) : list str := map fst l.

Fixpoint lookup (k : str) (l : Ledger) : option SearchSnippet :=
  match l with
  | [] => None
  | (k', v) :: l' => if Str.eqb k k' then Some v else lookup k l'
  end.

(** [d[k] = v]: in place when the key exists, at the end otherwise. *)
Fixpoint assign (k : str) (v : SearchSnippet) (l : Ledger) : Ledger :=
  match l with
  | [] => [(k, v)]
  | (k', v') :: l' =>
      if Str.eqb k k' then (k, v) :: l' else (k', v') :: assign k v l'
  end.

(** [extract_url_parts]: hostname and path, both empty when parsing
    raises. *)
Definition extract_url_parts (url_str : str) : str * str :=
  match UrlLib.urlparse url_str with
  | Ok p =>
      (match UrlLib.hostname p with Some h => h | None => [] end,
       UrlLib.path p)
  | Raise _ => ([], [])
  end.

Definition hostname_of (u : str) : str := fst (extract_url_parts u).

Definition filter_urls (all_urls : Ledger) (visited_urls bad_hostnames only_hostnames : list str)
  : list SearchSnippet :=
  map snd
    (filter (fun kv =>
       negb (Str.mem (fst kv) visited_urls)
       && negb (Str.mem (hostname_of (fst kv)) bad_hostnames)
       && (match only_hostnames with
           | [] => true
           | _ => Str.mem (hostname_of (fst kv)) only_hostnames
           end))
       all_urls).

(** A counting dict: [d[k] = d.get(k, 0) + 1]. *)
Definition Counter : Set := list (str * nat).

Fixpoint count_get (k : str) (d : Counter) : nat :=
  match d with
  | [] => 0
  | (k', n) :: d' => if Str.eqb k k' then n else count_get k d'
  end.

Fixpoint count_bump (k : str) (d : Counter) : Counter :=
  match d with
  | [] => [(k, 1)]
  | (k', n) :: d' =>
      if Str.eqb k k' then (k', S n) :: d' else (k', n) :: count_bump k d'
  end.

(** [[s for s in path.split("/") if s]] *)
Definition path_segments_of (path : str) : list str :=
  filter (fun s => match s with [] => false | _ => true end)
         (Str.split "/"%char path).

(** [["/" + "/".join(segments[:i + 1]) for i in range(len(segments))]] *)
Definition path_prefixes (segments : list str) : list str :=
  map (fun i => lit "/" ++ Str.join (lit "/") (firstn (S i) segments))
      (seq 0 (List.length segments)).

Definition valid_item (item : SearchSnippet) : bool :=
  match url item with [] => false | _ => true end.

Record UrlCounts : Set := mkCounts {
  hostname_count : Counter;
  path_prefix_count : Counter;
  total_urls : nat
}.

Definition count_url_parts (url_items : list SearchSnippet) : UrlCounts :=
  fold_left (fun c item =>
    if valid_item item then
      let (hostname, path) := extract_url_parts (url item) in
      {| hostname_count := count_bump hostname (hostname_count c);
         path_prefix_count :=
           fold_left (fun d p => count_bump p d)
                     (path_prefixes (path_segments_of path))
                     (path_prefix_count c);
         total_urls := S (total_urls c) |}
    else c) url_items (mkCounts [] [] 0).

Definition Qnat (n : nat) : Q := inject_Z (Z.of_nat n).

Definition normalize_count (count total : nat) : Q :=
  if 0 <? total then (Qnat count / Qnat total)%Q else 0%Q.

(** The [options] dict of [rank_urls] with its defaults. *)
Record RankOptions : Set := mkOptions {
  freq_factor : Q;
  hostname_boost_factor : Q;
  path_boost_factor : Q;
  decay_factor : Q;
  jina_rerank_factor : Q;
  min_boost : Q;
  max_boost : Q;
  question : str;
  boost_hostnames : list str
}.

Definition default_options (question : str) (boost_hostnames : list str) : RankOptions :=
  {| freq_factor := (1 # 2)%Q;
     hostname_boost_factor := (1 # 2)%Q;
     path_boost_factor := (4 # 10)%Q;
     decay_factor := (8 # 10)%Q;
     jina_rerank_factor := (8 # 10)%Q;
     min_boost := 0%Q;
     max_boost := 5%Q;
     question := question;
     boost_hostnames := boost_hostnames |}.

(** [unique_content_map]: merged text to the indices carrying it, in
    first-seen order. *)
Fixpoint content_add (k : str) (i : nat) (d : list (str * list nat)) : list (str * list nat) :=
  match d with
  | [] => [(k, [i])]
  | (k', ixs) :: d' =>
      if Str.eqb k k' then (k', ixs ++ [i]) :: d' else (k', ixs) :: content_add k i d'
  end.

Definition merged_of (item : SearchSnippet) : str :=
  TextTools.smart_merge_strings (title item) (description item).

Fixpoint content_map_from (i : nat) (url_items : list SearchSnippet)
         (d : list (str * list nat)) : list (str * list nat) :=
  match url_items with
  | [] => d
  | item :: rest => content_map_from (S i) rest (content_add (merged_of item) i d)
  end.

Definition unique_content_map (url_items : list SearchSnippet) : list (str * list nat) :=
  content_map_from 0 url_items [].

(** The [for result in results.get("results", [])] loop; an index outside
    [unique_indices_map] raises inside the [try], which ends the loop. *)
Fixpoint apply_results (factor : Q) (results : list (Z * Q))
         (unique_indices_map : list (list nat)) (boosts : list Q) : list Q :=
  match results with
  | [] => boosts
  | (index, relevance_score) :: rest =>
      match Py.index unique_indices_map index with
      | Raise _ => boosts
      | Ok idxs =>
          apply_results factor rest unique_indices_map
            (fold_left (fun b i => Py.set_nth b i (relevance_score * factor)%Q) idxs boosts)
      end
  end.

(** The path loop [for i, segment in enumerate(path_segments)]: the sum
    of the decayed prefix frequencies. *)
Definition path_boost_of (o : RankOptions) (c : UrlCounts) (segments : list str) : Q :=
  fold_left (fun acc ip =>
     (acc + normalize_count (count_get (snd ip) (path_prefix_count c)) (total_urls c)
            * (decay_factor o) ^ (Z.of_nat (fst ip)) * path_boost_factor o)%Q)
    (combine (seq 0 (List.length segments)) (path_prefixes segments)) 0%Q.

(** The value of the variable [i] when [jina_rerank_boosts[i]] is read:
    the path loop rebinds the [i] of the enclosing [enumerate]. *)
Definition index_after_path_loop (i : nat) (segments : list str) : nat :=
  match segments with
  | [] => i
  | _ => List.length segments - 1
  end.

Definition clip (o : RankOptions) (x : Q) : Q :=
  Qmin (Qmax x (min_boost o)) (max_boost o).

Section RankUrls.

(** The rerank collaborator: [(index, relevance_score)] pairs, or an
    exception. *)
Variable rerank_documents : str -> list str -> result (list (Z * Q)).

(** The local [jina_rerank_boosts] after the [if question] block:
    [None] when it was never assigned. *)
Definition rerank_boosts (o : RankOptions) (url_items : list SearchSnippet)
  : option (list Q) :=
  match Str.strip (question o) with
  | [] => None
  | _ =>
      let m := unique_content_map url_items in
      match rerank_documents (question o) (map fst m) with
      | Raise _ => None
      | Ok results =>
          Some (apply_results (jina_rerank_factor o) results (map snd m)
                  (repeat 0%Q (List.length url_items)))
      end
  end.

(** One round of [for i, item in enumerate(url_items)]. *)
Definition rank_item (o : RankOptions) (c : UrlCounts) (boosts : option (list Q))
           (i : nat) (item : SearchSnippet) : result BoostedSearchSnippet :=
  let (hostname, path) := extract_url_parts (url item) in
  let hostname_freq := normalize_count (count_get hostname (hostname_count c)) (total_urls c) in
  let hostname_boost :=
    (hostname_freq * hostname_boost_factor o
     * (if Str.mem hostname (boost_hostnames o) then 2 else 1))%Q in
  let segments := path_segments_of path in
  let path_boost := path_boost_of o c segments in
  freq_boost <-
    (if 0 <? total_urls c then
       match weight item with
       | Some freq => Ok (freq / Qnat (total_urls c) * freq_factor o)%Q
       | None => Raise TypeError
       end
     else Ok 0%Q) ;;
  jina_rerank_boost <-
    match boosts with
    | None => Raise UnboundLocalError
    | Some bs => Py.index bs (Z.of_nat (index_after_path_loop i segments))
    end ;;
  let final := clip o (hostname_boost + path_boost + freq_boost + jina_rerank_boost)%Q in
  Ok {| snippet := item;
        freq_boost := freq_boost;
        hostname_boost := hostname_boost;
        path_boost := path_boost;
        jina_rerank_boost := jina_rerank_boost;
        final_score := final;
        score := final;
        merged := merged_of item |}.

Fixpoint rank_loop (o : RankOptions) (c : UrlCounts) (boosts : option (list Q))
         (i : nat) (url_items : list SearchSnippet)
  : result (list BoostedSearchSnippet) :=
  match url_items with
  | [] => Ok []
  | item :: rest =>
      if valid_item item then
        r <- rank_item o c boosts i item ;;
        rs <- rank_loop o c boosts (S i) rest ;;
        Ok (r :: rs)
      else rank_loop o c boosts (S i) rest
  end.

(** [result_items.sort(key=lambda x: x.final_score, reverse=True)]:
    stable, highest score first. *)
Fixpoint insert_by_score (x : BoostedSearchSnippet) (l : list BoostedSearchSnippet)
  : list BoostedSearchSnippet :=
  match l with
  | [] => [x]
  | y :: l' =>
      if Qle_bool (final_score y) (final_score x) then x :: l
      else y :: insert_by_score x l'
  end.

Definition sort_by_score (l : list BoostedSearchSnippet) : list BoostedSearchSnippet :=
  fold_right insert_by_score [] l.

Definition rank_urls (url_items : list SearchSnippet) (o : RankOptions)
  : result (list BoostedSearchSnippet) :=
  let c := count_url_parts url_items in
  let boosts := rerank_boosts o url_items in
  rs <- rank_loop o c boosts 0 url_items ;;
  Ok (sort_by_score rs).

End RankUrls.

(** [keep_k_per_hostname] *)
Fixpoint keep_k_loop (k : nat) (results : list BoostedSearchSnippet) (hostname_map : Counter)
  : list BoostedSearchSnippet :=
  match results with
  | [] => []
  | r :: rest =>
      let hostname := hostname_of (url (snippet r)) in
      if count_get hostname hostname_map <? k
      then r :: keep_k_loop k rest (count_bump hostname hostname_map)
      else keep_k_loop k rest hostname_map
  end.

Definition keep_k_per_hostname (results : list BoostedSearchSnippet) (k : nat)
  : list BoostedSearchSnippet :=
  keep_k_loop k results [].

End UrlTools.

(** ** utils/url_tools.py: insertion and the visit pipeline *)

Module Visit.

Import Normalizer UrlTools.

Definition set_weight (w : option Q) (r : SearchSnippet) : SearchSnippet :=
  {| title := title r; url := url r; description := description r;
     weight := w; date := date r |}.

(** [add_to_all_urls]: the ledger afterwards and the returned count.  A
    stored snippet whose weight is [None] cannot be added to. *)
Definition add_to_all_urls (r : SearchSnippet) (all_urls : Ledger) (weight_delta : Q)
  : result (Ledger * nat) :=
  match normalize_url (url r) with
  | None => Ok (all_urls, 0)
  | Some normalized_url =>
      match lookup normalized_url all_urls with
      | None => Ok (assign normalized_url (set_weight (Some weight_delta) r) all_urls, 1)
      | Some cur =>
          match weight cur with
          | None => Raise TypeError
          | Some w =>
              Ok (assign normalized_url
                    {| title := title cur; url := url cur;
                       description :=
                         TextTools.smart_merge_strings (description cur) (description r);
                       weight := Some (w + weight_delta)%Q;
                       date := date cur |}
                    all_urls, 0)
          end
      end
  end.

(** An exception as [process_url] inspects it: [error.name],
    [error.message] and [str(error)]. *)
Record PyError : Set := mkError {
  err_name : str;
  err_message : str;
  err_text : str
}.

Inductive outcome (A : Type) : Type :=
| Done (a : A)
| Failed (e : PyError).

Arguments Done {A} a.
Arguments Failed {A} e.

Definition plain_error (text : str) : PyError := mkError [] [] text.

(** [ReadResponseData], without the usage tally. *)
Record ReadResponseData : Set := mkData {
  data_title : str;
  data_description : str;
  data_url : str;
  data_content : str;
  data_links : list (str * str)
}.

Inductive KnowledgeType : Set := QA | SIDE_INFO | CHAT_HISTORY | URL | CODING.

Record KnowledgeItem : Set := mkKnowledge {
  k_type : KnowledgeType;
  k_question : str;
  k_answer : str;
  k_references : list str;
  k_updated : option str
}.

(** The lists and the ledger that [process_urls] receives and mutates. *)
Record Stores : Set := mkStores {
  all_knowledge : list KnowledgeItem;
  all_urls : Ledger;
  visited_urls : list str;
  bad_urls : list str
}.

Definition with_urls (l : Ledger) (s : Stores) : Stores :=
  mkStores (all_knowledge s) l (visited_urls s) (bad_urls s).

Definition visit (u : str) (s : Stores) : Stores :=
  mkStores (all_knowledge s) (all_urls s) (visited_urls s ++ [u]) (bad_urls s).

Definition mark_bad (u : str) (s : Stores) : Stores :=
  mkStores (all_knowledge s) (all_urls s) (visited_urls s) (bad_urls s ++ [u]).

Definition learn (k : KnowledgeItem) (s : Stores) : Stores :=
  mkStores (all_knowledge s ++ [k]) (all_urls s) (visited_urls s) (bad_urls s).

(** The condition under which the [except] clause records the host as
    bad. *)
Definition is_host_failure (e : PyError) : bool :=
  (Str.eqb (err_name e) (lit "ParamValidationError")
   && Str.contains (lit "Domain") (err_message e))
  || (Str.eqb (err_name e) (lit "AssertionFailureError")
      && Str.contains (lit "resolve host name") (err_message e))
  || Str.contains (lit "Couldn't resolve host name") (err_text e)
  || Str.contains (lit "could not be resolved") (err_text e)
  || Str.contains (lit "ERR_CERT_COMMON_NAME_INVALID") (err_text e)
  || Str.contains (lit "ERR_CONNECTION_REFUSED") (err_text e).

(** [for link in data.links]: in-page links enter the ledger with weight
    0.1; the loop stops where [add_to_all_urls] raises. *)
Fixpoint add_links (links : list (str * str)) (l : Ledger) : Ledger * option Py.exn :=
  match links with
  | [] => (l, None)
  | (anchor, href) :: rest =>
      match normalize_url href with
      | None => add_links rest l
      | Some nn_url =>
          match add_to_all_urls (mkSnippet anchor nn_url anchor None None) l (1 # 10)%Q with
          | Ok (l', _) => add_links rest l'
          | Raise e => (l, Some e)
          end
      end
  end.

Definition spam_detect_length : nat := 300.

Section ProcessUrls.

(** The collaborators of [process_url]. *)
Variable read_url : str -> outcome ReadResponseData.
Variable get_last_modified : str -> option str.
Variable classify_text : str -> outcome bool.
Variable cherry_pick : str -> str -> str -> outcome str.
Variable format_date_based_on_type : str -> str.

Variable question : str.

(** The [try] block after normalization: the stores as the block left
    them, and the data or the exception. *)
Definition read_and_learn (u : str) (s : Stores) : Stores * outcome ReadResponseData :=
  match read_url u with
  | Failed e => (s, Failed e)
  | Done data =>
      let guessed_time := get_last_modified u in
      match data_url data, data_content data with
      | [], _ | _, [] => (s, Failed (plain_error (lit "No content found")))
      | _, _ =>
          match (if spam_detect_length <? List.length (data_content data)
                 then Done true
                 else match classify_text (data_content data) with
                      | Done spam => Done (negb spam)
                      | Failed e => Failed e
                      end) with
          | Failed e => (s, Failed e)
          | Done false => (s, Failed (plain_error (lit "Blocked content " ++ u)))
          | Done true =>
              match cherry_pick question (data_content data) u with
              | Failed e => (s, Failed e)
              | Done answer =>
                  let s1 :=
                    learn (mkKnowledge URL
                             (lit "What do expert say about " ++ [Str.ch 34]
                              ++ question ++ [Str.ch 34] ++ lit "?")
                             answer [data_url data]
                             (option_map format_date_based_on_type guessed_time)) s in
                  match add_links (data_links data) (all_urls s1) with
                  | (l, None) => (with_urls l s1, Done data)
                  | (l, Some _) => (with_urls l s1, Failed (plain_error (lit "TypeError")))
                  end
              end
          end
      end
  end.

(** [process_url]: one target.  The [finally] clause appends the current
    value of [url] to the visited list whenever it is not empty: the
    normalized key, or the string as given when normalization failed. *)
Definition process_url (u : str) (st : Stores * list str)
  : Stores * list str * option ReadResponseData :=
  let (s, bad_hostnames) := st in
  match normalize_url u with
  | None =>
      (match u with [] => s | _ => visit u s end, bad_hostnames, None)
  | Some nu =>
      match read_and_learn nu s with
      | (s1, Done data) => (visit nu s1, bad_hostnames, Some data)
      | (s1, Failed e) =>
          let hostname := hostname_of nu in
          let bad_hostnames' :=
            if is_host_failure e
            then match hostname with
                 | [] => bad_hostnames
                 | _ => bad_hostnames ++ [hostname]
                 end
            else bad_hostnames in
          (visit nu (mark_bad nu s1), bad_hostnames', None)
      end
  end.

(** The tasks applied one after the other, in the order of [urls]. *)
Fixpoint process_all (urls : list str) (st : Stores * list str)
  : Stores * list str * list ReadResponseData :=
  match urls with
  | [] => (st, [])
  | u :: rest =>
      let '(s1, b1, r) := process_url u st in
      let '(s2, b2, rs) := process_all rest (s1, b1) in
      (s2, b2, match r with Some d => d :: rs | None => rs end)
  end.

(** The eviction at the end of [process_urls]. *)
Definition evict (bad_hostnames : list str) (l : Ledger) : Ledger :=
  filter (fun kv => negb (Str.mem (hostname_of (fst kv)) bad_hostnames)) l.

(** [process_urls]: the stores afterwards, [url_results] and
    [success]. *)
Definition process_urls (urls : list str) (s : Stores)
  : Stores * list ReadResponseData * bool :=
  match urls with
  | [] => (s, [], false)
  | _ =>
      let '(s1, bad_hostnames, valid_results) := process_all urls (s, []) in
      (with_urls (evict bad_hostnames (all_urls s1)) s1,
       valid_results,
       match valid_results with [] => false | _ => true end)
  end.

End ProcessUrls.

End Visit.

(** ** agent.py: the orchestrator *)

Module Agent.

Import Normalizer UrlTools Visit.

Definition MAX_REFLECT_PER_STEP : nat := 4.

Record Reference : Set := mkRef {
  exact_quote : str;
  ref_url : str;
  ref_title : option str;
  date_time : option str
}.

Record AnswerAction : Set := mkAnswer {
  a_think : str;
  answer : str;
  references : list Reference;
  is_final : option bool
}.

(** The value of [this_step]: the placeholder dict built before the
    loop, or one of the five action objects. *)
Inductive StepAction : Set :=
| Placeholder
| Search (think : str) (search_requests : list str)
| Answer (a : AnswerAction)
| Reflect (think : str) (questions_to_answer : list str)
| VisitUrls (think : str) (url_targets : list Z)
| Coding (think : str) (coding_issue : str).

Inductive ActionName : Set := A_search | A_coding | A_answer | A_reflect | A_visit.

Definition action_of (s : StepAction) : option ActionName :=
  match s with
  | Placeholder => None
  | Search _ _ => Some A_search
  | Answer _ => Some A_answer
  | Reflect _ _ => Some A_reflect
  | VisitUrls _ _ => Some A_visit
  | Coding _ _ => Some A_coding
  end.

Record Flags : Set := mkFlags {
  allow_answer : bool;
  allow_search : bool;
  allow_read : bool;
  allow_reflect : bool;
  allow_coding : bool
}.

(** The flags as initialised before the loop. *)
Definition initial_flags : Flags := mkFlags true true true true false.

(** The flags after the reset that follows action generation. *)
Definition reset_flags : Flags := mkFlags true true true true true.

(** The [enum] of the [action] field in [get_agent_schema], in the
    order in which the sub-schemas are added. *)
Definition schema_actions (f : Flags) : list ActionName :=
  (if allow_search f then [A_search] else [])
  ++ (if allow_coding f then [A_coding] else [])
  ++ (if allow_answer f then [A_answer] else [])
  ++ (if allow_reflect f then [A_reflect] else [])
  ++ (if allow_read f then [A_visit] else []).

Definition ActionName_eqb (a b : ActionName) : bool :=
  match a, b with
  | A_search, A_search | A_coding, A_coding | A_answer, A_answer
  | A_reflect, A_reflect | A_visit, A_visit => true
  | _, _ => false
  end.

(** An action the schema offered to the generator admits. *)
Definition admitted (f : Flags) (s : StepAction) : bool :=
  match action_of s with
  | Some a => existsb (ActionName_eqb a) (schema_actions f)
  | None => false
  end.

(** A diary line: the template and the values it is formatted with. *)
Inductive DiaryEntry : Set :=
| DiaryFinalAnswer (step : nat) (question answer evaluation_think : str)
| DiaryBadAnswer (step : nat) (question answer evaluation_think : str)
| DiarySubquestionAnswer (step : nat) (question answer evaluation_think : str).

(** [evaluation_metrics]: question text to its obligations. *)
Definition Metrics : Set := list (str * list RepeatEvaluationType).

Fixpoint metrics_get (q : str) (m : Metrics) : result (list RepeatEvaluationType) :=
  match m with
  | [] => Raise KeyError
  | (q', v) :: m' => if Str.eqb q q' then Ok v else metrics_get q m'
  end.

Fixpoint metrics_set (q : str) (v : list RepeatEvaluationType) (m : Metrics) : Metrics :=
  match m with
  | [] => [(q, v)]
  | (q', v') :: m' =>
      if Str.eqb q q' then (q, v) :: m' else (q', v') :: metrics_set q v m'
  end.

(** The session variables of [get_response] that the modelled parts
    read or write. *)
Record Session : Set := mkSession {
  step : nat;
  total_step : nat;
  gaps : list str;
  stores : Stores;
  weighted_urls : list BoostedSearchSnippet;
  flags : Flags;
  diary_context : list DiaryEntry;
  evaluation_metrics : Metrics;
  final_answer_pip : list str;
  trivial_question : bool;
  this_step : StepAction
}.

(** The arguments of [get_response]. *)
Record Config : Set := mkConfig {
  question : str;
  max_bad_attempts : Z;
  num_returned_urls : nat;
  no_direct_answer : bool;
  boost_hostnames : list str;
  bad_hostnames : list str;
  only_hostnames : list str
}.

(** The session before the loop, with the ledger seeded from the URLs
    found in the question. *)
Definition initial_session (cfg : Config) (seeded : Ledger) : Session :=
  {| step := 0; total_step := 0;
     gaps := [question cfg];
     stores := mkStores [] seeded [] [];
     weighted_urls := [];
     flags := initial_flags;
     diary_context := [];
     evaluation_metrics := [];
     final_answer_pip := [];
     trivial_question := false;
     this_step := Placeholder |}.

Definition set_flags (f : Flags) (s : Session) : Session :=
  mkSession (step s) (total_step s) (gaps s) (stores s) (weighted_urls s) f
    (diary_context s) (evaluation_metrics s) (final_answer_pip s)
    (trivial_question s) (this_step s).

Definition set_this_step (a : StepAction) (s : Session) : Session :=
  mkSession (step s) (total_step s) (gaps s) (stores s) (weighted_urls s) (flags s)
    (diary_context s) (evaluation_metrics s) (final_answer_pip s)
    (trivial_question s) a.

Definition set_stores (st : Stores) (s : Session) : Session :=
  mkSession (step s) (total_step s) (gaps s) st (weighted_urls s) (flags s)
    (diary_context s) (evaluation_metrics s) (final_answer_pip s)
    (trivial_question s) (this_step s).

Definition set_weighted (w : list BoostedSearchSnippet) (s : Session) : Session :=
  mkSession (step s) (total_step s) (gaps s) (stores s) w (flags s)
    (diary_context s) (evaluation_metrics s) (final_answer_pip s)
    (trivial_question s) (this_step s).

Definition set_metrics (m : Metrics) (s : Session) : Session :=
  mkSession (step s) (total_step s) (gaps s) (stores s) (weighted_urls s) (flags s)
    (diary_context s) m (final_answer_pip s)
    (trivial_question s) (this_step s).

Definition set_trivial (b : bool) (s : Session) : Session :=
  mkSession (step s) (total_step s) (gaps s) (stores s) (weighted_urls s) (flags s)
    (diary_context s) (evaluation_metrics s) (final_answer_pip s) b (this_step s).

Definition add_diary (d : DiaryEntry) (s : Session) : Session :=
  mkSession (step s) (total_step s) (gaps s) (stores s) (weighted_urls s) (flags s)
    (diary_context s ++ [d]) (evaluation_metrics s) (final_answer_pip s)
    (trivial_question s) (this_step s).

Definition add_pip (p : str) (s : Session) : Session :=
  mkSession (step s) (total_step s) (gaps s) (stores s) (weighted_urls s) (flags s)
    (diary_context s) (evaluation_metrics s) (final_answer_pip s ++ [p])
    (trivial_question s) (this_step s).

Definition set_gaps (g : list str) (s : Session) : Session :=
  mkSession (step s) (total_step s) g (stores s) (weighted_urls s) (flags s)
    (diary_context s) (evaluation_metrics s) (final_answer_pip s)
    (trivial_question s) (this_step s).

Definition tick (s : Session) : Session :=
  mkSession (S (step s)) (S (total_step s)) (gaps s) (stores s) (weighted_urls s)
    (flags s) (diary_context s) (evaluation_metrics s) (final_answer_pip s)
    (trivial_question s) (this_step s).

(** [includes_eval] *)
Definition includes_eval (all_checks : list RepeatEvaluationType) (t : EvaluationType) : bool :=
  existsb (fun c => EvaluationType_eqb (re_type c) t) all_checks.

(** The flag adjustments made before the prompt is built: the freshness
    rule, the state-based rules, then the fixed opening of steps 1 to
    4. *)
Definition gate (step total_step : nat) (fresh : bool)
           (n_weighted n_gaps : nat) (f : Flags) : Flags :=
  let f1 :=
    if (total_step =? 1) && fresh
    then mkFlags false (allow_search f) (allow_read f) false (allow_coding f)
    else f in
  let f2 :=
    mkFlags (allow_answer f1)
            (allow_search f1 && (n_weighted <? 200))
            (allow_read f1 && (0 <? n_weighted))
            (allow_reflect f1 && (n_gaps <=? MAX_REFLECT_PER_STEP))
            (allow_coding f1) in
  if step =? 1 then mkFlags false true false false false
  else if step =? 2 then mkFlags false false true false false
  else if step =? 3 then mkFlags true false false false false
  else if step =? 4 then mkFlags false false false true false
  else f2.

(** The obligations left after a failed evaluation of type
    [failed]. *)
Definition remaining_metrics (failed : option EvaluationType)
           (ms : list RepeatEvaluationType) : list RepeatEvaluationType :=
  filter (fun e =>
            match failed with
            | Some t =>
                negb (EvaluationType_eqb (re_type e) t)
                || (EvaluationType_eqb (re_type e) t && (1 <? num_evals_required e)%Z)
            | None => true
            end) ms.

Definition is_word (c : ascii) : bool :=
  Str.is_alpha c || Str.is_digit c || Str.ceqb c "_"%char.

(** [re.sub(r"\s+", " ", q)] *)
Fixpoint collapse_spaces (q : str) : str :=
  match q with
  | [] => []
  | c :: q' =>
      if Str.is_space c then
        match q' with
        | d :: _ => if Str.is_space d then collapse_spaces q' else " "%char :: collapse_spaces q'
        | [] => [" "%char]
        end
      else c :: collapse_spaces q'
  end.

(** The two substitutions applied to a quote: everything that is neither
    a word character nor white space becomes a space, then runs of white
    space become one space. *)
Definition clean_quote (q : str) : str :=
  collapse_spaces (map (fun c => if is_word c || Str.is_space c then c else " "%char) q).

Definition or_str (a : option str) (b : result str) : result str :=
  match a with
  | Some ((_ :: _) as x) => Ok x
  | _ => b
  end.

Definition ledger_get (k : str) (l : Ledger) : result SearchSnippet :=
  match lookup k l with
  | Some v => Ok v
  | None => Raise KeyError
  end.

Section UpdateReferences.

Variable get_last_modified : str -> option str.

(** The body of [for ref in this_step.references]: nothing for a
    reference without a usable URL, else the rebuilt reference; a URL
    missing from the ledger raises where the ledger entry is read. *)
Definition rebuild_reference (all_urls : Ledger) (ref : Reference)
  : result (list Reference) :=
  match ref_url ref with
  | [] => Ok []
  | _ =>
      match normalize_url (ref_url ref) with
      | None => Ok []
      | Some normalized_url =>
          q <- or_str (Some (exact_quote ref))
                 (e <- ledger_get normalized_url all_urls ;;
                  or_str (Some (description e))
                    (e' <- ledger_get normalized_url all_urls ;;
                     or_str (Some (title e')) (Ok []))) ;;
          let t := match lookup normalized_url all_urls with
                   | Some e => title e
                   | None => []
                   end in
          d <- or_str (date_time ref)
                 (e <- ledger_get normalized_url all_urls ;;
                  or_str (date e) (Ok [])) ;;
          Ok [mkRef (clean_quote q) normalized_url (Some t) (Some d)]
      end
  end.

Fixpoint rebuild_all (all_urls : Ledger) (refs : list Reference)
  : result (list Reference) :=
  match refs with
  | [] => Ok []
  | r :: rest =>
      x <- rebuild_reference all_urls r ;;
      xs <- rebuild_all all_urls rest ;;
      Ok (x ++ xs)
  end.

(** [update_datetime] *)
Definition fill_date (r : Reference) : Reference :=
  match date_time r with
  | Some (_ :: _) => r
  | _ =>
      mkRef (exact_quote r) (ref_url r) (ref_title r)
        (Some (match get_last_modified (ref_url r) with
               | Some ((_ :: _) as d) => d
               | _ => []
               end))
  end.

(** [update_references]: the new value of [this_step.references]. *)
Definition update_references (refs : list Reference) (all_urls : Ledger)
  : result (list Reference) :=
  match refs with
  | [] => Ok []
  | _ =>
      new_refs <- rebuild_all all_urls refs ;;
      Ok (map fill_date new_refs)
  end.

End UpdateReferences.

Inductive Control : Set := Continue | Break.

(** [list(set(urls))]: each URL once (the order of a Python set is not
    fixed; first occurrences are kept here). *)
Fixpoint dedupe (l : list str) : list str :=
  match l with
  | [] => []
  | x :: l' => x :: filter (fun y => negb (Str.eqb x y)) (dedupe l')
  end.

(** [gaps.remove(q)]: the first occurrence goes. *)
Fixpoint remove_first (q : str) (l : list str) : result (list str) :=
  match l with
  | [] => Raise ValueError
  | x :: l' =>
      if Str.eqb x q then Ok l'
      else (r <- remove_first q l' ;; Ok (x :: r))
  end.

Definition truthy (b : option bool) : bool :=
  match b with
  | Some true => true
  | _ => false
  end.

Definition set_final (b : bool) (refs : list Reference) (a : AnswerAction) : AnswerAction :=
  mkAnswer (a_think a) (answer a) refs (Some b).

Definition with_refs (refs : list Reference) (a : AnswerAction) : AnswerAction :=
  mkAnswer (a_think a) (answer a) refs (is_final a).

Section AnswerBranch.

Variable cfg : Config.

(** Collaborators of the answer path. *)
Variable read_url : str -> outcome ReadResponseData.
Variable get_last_modified : str -> option str.
Variable classify_text : str -> outcome bool.
Variable cherry_pick : str -> str -> str -> outcome str.
Variable format_date_based_on_type : str -> str.
Variable perform_evaluation : nat -> EvaluationType -> result Evaluator.EvalObject.
Variable analyze_steps : list DiaryEntry -> result (str * str * str).

(** Text the branch formats: the question and answer of the
    self-critique item, and the current time. *)
Variable critique_question : str -> str -> str.
Variable critique_answer : str -> str * str * str -> str.
Variable now : str.

(** The evaluation of step 5: a pass by default, [evaluate_answer] when
    the question has obligations. *)
Definition evaluate (ms : list RepeatEvaluationType) : result EvaluationResponse :=
  match ms with
  | [] => Ok (mkEvaluation true [] None None)
  | _ => Evaluator.evaluate_answer perform_evaluation (map re_type ms)
  end.

(** Step 3: visit the reference URLs not yet visited, then drop the
    references whose URL turned out bad. *)
Definition visit_references (current_question : str) (refs : list Reference) (st : Stores)
  : Stores * list Reference :=
  match refs with
  | [] => (st, refs)
  | _ =>
      let urls := filter (fun u => negb (Str.mem u (visited_urls st))) (map ref_url refs) in
      let '(st', _, _) :=
        process_urls read_url get_last_modified classify_text cherry_pick
          format_date_based_on_type current_question (dedupe urls) st in
      (st', filter (fun r => negb (Str.mem (ref_url r) (bad_urls st'))) refs)
  end.

(** Step 6.2: the original question's answer failed. *)
Definition on_failure (current_question : str) (a : AnswerAction)
           (evaluation : EvaluationResponse) (ms : list RepeatEvaluationType)
           (s : Session) : result (Session * Control) :=
  let ms' := remaining_metrics (ev_type evaluation) ms in
  let s1 := set_metrics (metrics_set current_question ms' (evaluation_metrics s)) s in
  let s2 :=
    match ev_type evaluation, improvement_plan evaluation with
    | Some STRICT, Some ((_ :: _) as plan) => add_pip plan s1
    | _, _ => s1
    end in
  match ms' with
  | [] => Ok (set_this_step (Answer (set_final false (references a) a)) s2, Break)
  | _ =>
      let s3 := add_diary (DiaryBadAnswer (step s) current_question (answer a)
                             (think evaluation)) s2 in
      analysis <- analyze_steps (diary_context s3) ;;
      let item := mkKnowledge QA (critique_question current_question (answer a))
                    (critique_answer (think evaluation) analysis) [] None in
      let f := flags s3 in
      Ok (set_flags (mkFlags false (allow_search f) (allow_read f) (allow_reflect f)
                       (allow_coding f))
            (set_stores (learn item (stores s3)) s3), Continue)
  end.

(** The branch [if this_step.action == "answer" and this_step.answer],
    entered after the flags were reset. *)
Definition answer_branch (current_question : str) (a : AnswerAction) (s : Session)
  : result (Session * Control) :=
  refs <- update_references get_last_modified (references a) (all_urls (stores s)) ;;
  if (total_step s =? 1)
     && (match refs with [] => true | _ => false end)
     && negb (no_direct_answer cfg)
  then Ok (set_trivial true (set_this_step (Answer (set_final true refs a)) s), Break)
  else
    let (st, refs') := visit_references current_question refs (stores s) in
    let a' := with_refs refs' a in
    let s1 := set_this_step (Answer a') (set_stores st s) in
    ms <- metrics_get current_question (evaluation_metrics s1) ;;
    evaluation <- evaluate ms ;;
    if Str.eqb (Str.strip current_question) (question cfg) then
      let f := flags s1 in
      let s2 := set_flags (mkFlags (allow_answer f) (allow_search f) (allow_read f)
                             (allow_reflect f) false) s1 in
      if pass_eval evaluation then
        Ok (set_this_step (Answer (set_final true refs' a'))
              (add_diary (DiaryFinalAnswer (step s) current_question (answer a)
                            (think evaluation)) s2), Break)
      else on_failure current_question a' evaluation ms s2
    else if pass_eval evaluation then
      g <- remove_first current_question (gaps s1) ;;
      let item := mkKnowledge QA current_question (answer a) (map ref_url refs')
                    (Some now) in
      Ok (set_gaps g
            (set_stores (learn item (stores s1))
               (add_diary (DiarySubquestionAnswer (step s) current_question (answer a)
                             (think evaluation)) s1)), Continue)
    else Ok (s1, Continue).

(** The dispatch on a generated answer action: the flags are reset
    first; an action with empty answer text enters no branch. *)
Definition on_answer (current_question : str) (a : AnswerAction) (s : Session)
  : result (Session * Control) :=
  let s0 := set_this_step (Answer a) (set_flags reset_flags s) in
  match answer a with
  | [] => Ok (s0, Continue)
  | _ => answer_branch current_question a s0
  end.

End AnswerBranch.

Section PrepareStep.

Variable cfg : Config.
Variable evaluate_question : str -> list EvaluationType.
Variable rerank_documents : str -> list str -> result (list (Z * Q)).

(** [gaps[total_step % len(gaps)]] *)
Definition pick_question (total_step : nat) (gaps : list str) : result str :=
  match gaps with
  | [] => Raise ZeroDivisionError
  | _ => Py.index gaps (Z.of_nat (total_step mod List.length gaps))
  end.

(** The obligations set-up at the top of an iteration. *)
Definition setup_metrics (current_question : str) (total_step : nat) (m : Metrics) : Metrics :=
  if Str.eqb (Str.strip current_question) (question cfg) then
    if total_step =? 1 then
      metrics_set current_question
        (map (fun e => mkRepeat e (max_bad_attempts cfg)) (evaluate_question current_question)
         ++ [mkRepeat STRICT (max_bad_attempts cfg)]) m
    else m
  else metrics_set current_question [] m.

(** The short-list rebuilt at the top of an iteration; it is left as it
    was when the ledger is empty. *)
Definition refresh_weighted (current_question : str) (s : Session)
  : result (list BoostedSearchSnippet) :=
  match all_urls (stores s) with
  | [] => Ok (weighted_urls s)
  | _ =>
      ranked <- rank_urls rerank_documents
                  (filter_urls (all_urls (stores s)) (visited_urls (stores s))
                     (bad_hostnames cfg) (only_hostnames cfg))
                  (default_options current_question (boost_hostnames cfg)) ;;
      Ok (keep_k_per_hostname ranked 2)
  end.

(** An iteration up to the point where the prompt is built: counters,
    current question, obligations, short-list, permissions. *)
Definition prepare_step (s : Session) : result (Session * str) :=
  let s1 := tick s in
  current_question <- pick_question (total_step s1) (gaps s1) ;;
  let s2 := set_metrics (setup_metrics current_question (total_step s1)
                           (evaluation_metrics s1)) s1 in
  w <- refresh_weighted current_question s2 ;;
  let s3 := set_weighted w s2 in
  fresh <- (if total_step s3 =? 1
            then (ms <- metrics_get current_question (evaluation_metrics s3) ;;
                  Ok (includes_eval ms FRESHNESS))
            else Ok false) ;;
  Ok (set_flags (gate (step s3) (total_step s3) fresh (List.length w)
                   (List.length (gaps s3)) (flags s3)) s3,
      current_question).

End PrepareStep.

(** What [get_response] returns; the four URL-related entries of the
    dict keep their names. *)
Record Response : Set := mkResponse {
  result_step : StepAction;
  r_visited_urls : list str;
  r_read_urls : list str;
  r_all_urls : list str
}.

Definition snippet_url (r : BoostedSearchSnippet) : str := url (snippet r).

Definition response (cfg : Config) (s : Session) : Response :=
  {| result_step := this_step s;
     r_visited_urls := map snippet_url (firstn (num_returned_urls cfg) (weighted_urls s));
     r_read_urls :=
       filter (fun u => negb (Str.mem u (bad_urls (stores s)))) (visited_urls (stores s));
     r_all_urls := map snippet_url (weighted_urls s) |}.

(** ["is_final" in this_step]: a key test on the placeholder dict; on an
    action object the test runs over its (name, value) pairs, none of
    which equals a string. *)
Definition has_is_final (s : StepAction) : bool :=
  match s with
  | Placeholder => true
  | _ => false
  end.

(** [this_step.is_final] *)
Definition attr_is_final (s : StepAction) : result (option bool) :=
  match s with
  | Answer a => Ok (is_final a)
  | _ => Raise AttributeError
  end.

(** The condition of the beast-mode block. *)
Definition beast_needed (s : StepAction) : result bool :=
  if negb (has_is_final s) then Ok true
  else (f <- attr_is_final s ;; Ok (negb (truthy f))).

Section Finish.

Variable cfg : Config.
Variable get_last_modified : str -> option str.

(** The beast-mode generation: think, answer text and references, or an
    exception. *)
Variable beast_generate : Session -> result (str * str * list Reference).

(** Everything after the loop. *)
Definition finish (s : Session) : result Response :=
  b <- beast_needed (this_step s) ;;
  if b then
    let s1 := tick s in
    g <- beast_generate s1 ;;
    let '(th, ans, refs) := g in
    refs' <- update_references get_last_modified refs (all_urls (stores s1)) ;;
    Ok (response cfg (set_this_step (Answer (mkAnswer th ans refs' (Some true))) s1))
  else Ok (response cfg s).

End Finish.

End Agent.

(** ** Statements about the program *)

Module Statements.

Import Normalizer UrlTools.

(** What one round of the scoring loop guarantees about the item it
    builds. *)
Definition well_scored (o : RankOptions) (r : BoostedSearchSnippet) : Prop :=
  final_score r
  = clip o (hostname_boost r + path_boost r + freq_boost r + jina_rerank_boost r)%Q
  /\ score r = final_score r.


End Statements.

(** ** Plain URLs

    The class of canonical keys on which the normalizer is shown to be a
    fixed point, and the character classes used to reason about it. *)

Module PlainUrls.

Import Normalizer.













End PlainUrls.

(** ** Sessions, pages and collaborators used as concrete inputs *)

Module Examples.

Import Evaluator UrlTools Visit Agent PlainUrls.

Definition passing : EvalObject := mkObject true (lit "fine") None None.

Definition page (u : string) (w : Q) : SearchSnippet :=
  mkSnippet (lit "title") (lit u) (lit "text") (Some w) None.

Definition rerank_down (q : str) (docs : list str) : result (list (Z * Q)) :=
  Raise ExternalError.

Definition rerank_one (q : str) (docs : list str) : result (list (Z * Q)) :=
  Ok [(0%Z, 1%Q)].

Definition demo_config : Config :=
  {| question := lit "why";
     max_bad_attempts := 2%Z;
     num_returned_urls := 100;
     no_direct_answer := false;
     boost_hostnames := [];
     bad_hostnames := [];
     only_hostnames := [] |}.

Definition no_needs (q : str) : list EvaluationType := [].

Definition page_key (i : nat) : str := lit "http://h.com/p" ++ Str.of_Z (Z.of_nat i).

Definition page_entry (i : nat) : str * SearchSnippet :=
  (page_key i, mkSnippet (lit "title") (page_key i) (lit "text") (Some 1%Q) None).

(** A ledger of 200 URLs, all on one hostname. *)
Definition big_ledger : Ledger := map page_entry (seq 0 200).

(** A session about to start step 5, with those 200 URLs known and none
    visited; the flags are those left by a reflect step. *)
Definition crowded : Session :=
  {| step := 4; total_step := 4;
     gaps := [lit "why"];
     stores := mkStores [] big_ledger [] [];
     weighted_urls := [];
     flags := mkFlags true true true false true;
     diary_context := [];
     evaluation_metrics := [(lit "why", [mkRepeat STRICT 2])];
     final_answer_pip := [];
     trivial_question := false;
     this_step := Reflect (lit "t") [lit "sub"] |}.

Definition the_page : SearchSnippet :=
  mkSnippet (lit "title") (lit "http://a.com/") (lit "text") (Some 1%Q) None.

(** A session that has searched at step 1 and visited its only URL at
    step 2. *)
Definition visited_once : Session :=
  {| step := 2; total_step := 2;
     gaps := [lit "why"];
     stores := mkStores [] [(lit "http://a.com/", the_page)] [lit "http://a.com/"] [];
     weighted_urls := [];
     flags := mkFlags true true false true true;
     diary_context := [];
     evaluation_metrics := [(lit "why", [mkRepeat STRICT 2])];
     final_answer_pip := [];
     trivial_question := false;
     this_step := VisitUrls (lit "t") [1%Z] |}.

Definition no_date (u : str) : option str := None.

Definition beast_says (s : Session) : result (str * str * list Reference) :=
  Ok (lit "t", lit "because", []).

Definition hello : AnswerAction := mkAnswer (lit "t") (lit "hello") [] None.

Definition no_read (u : str) : outcome ReadResponseData :=
  Failed (plain_error (lit "offline")).

Definition first_step : Session :=
  {| step := 1; total_step := 1;
     gaps := [lit "why"];
     stores := mkStores [] [] [] [];
     weighted_urls := [];
     flags := mkFlags false true false false false;
     diary_context := [];
     evaluation_metrics := [(lit "why", [mkRepeat STRICT 2])];
     final_answer_pip := [];
     trivial_question := false;
     this_step := Placeholder |}.

Definition dns_down (u : str) : outcome ReadResponseData :=
  Failed (plain_error (lit "Couldn't resolve host name")).

Definition one_page : Stores :=
  mkStores [] [(lit "http://a.com/", the_page)] [] [].

Definition page_ok (u : str) : outcome ReadResponseData :=
  Done (mkData (lit "title") (lit "text") u (lit "body")
          [(lit "next", lit "http://a.com/next")]).


End Examples.

(** ** Vocabulary of the further properties *)

Module Shapes.

Import UrlTools.

(** [Subseq l1 l2]: [l1] is [l2] with some elements left out, the order
    kept. *)
Inductive Subseq (A : Type) : list A -> list A -> Prop :=
| Subseq_nil : Subseq [] []
| Subseq_keep (x : A) (l1 l2 : list A) : Subseq l1 l2 -> Subseq (x :: l1) (x :: l2)
| Subseq_skip (x : A) (l1 l2 : list A) : Subseq l1 l2 -> Subseq l1 (x :: l2).

(** The ranked entries whose URL has hostname [h]. *)
Definition from_host (h : str) (r : BoostedSearchSnippet) : bool :=
  Str.eqb (hostname_of (url (snippet r))) h.

Definition count_host (h : str) (l : list BoostedSearchSnippet) : nat :=
  List.length (filter (from_host h) l).

(** [sum(d.values())] *)
Definition counter_sum (d : Counter) : nat :=
  fold_right (fun kv acc => snd kv + acc) 0 d.

(** The body of the loop of [count_url_parts]. *)
Definition count_step (c : UrlCounts) (item : SearchSnippet) : UrlCounts :=
    if valid_item item then
      let (hostname, path) := extract_url_parts (url item) in
      {| hostname_count := count_bump hostname (hostname_count c);
         path_prefix_count :=
           fold_left (fun d p => count_bump p d)
                     (path_prefixes (path_segments_of path))
                     (path_prefix_count c);
         total_urls := S (total_urls c) |}
    else c.

End Shapes.

Module QuoteText.

Import Agent.



End QuoteText.

Module VisitShapes.

Import Normalizer.

(** What the [finally] clause of [process_url] appends to
    [visited_urls] for the target [u]. *)
Definition recorded (u : str) : list str :=
  match normalize_url u with
  | Some k => [k]
  | None => match u with [] => [] | _ => [u] end
  end.

End VisitShapes.

Module MoreExamples.

Import Evaluator Examples.


End MoreExamples.

(** ** utils/token_tracker.py *)

Module TokenTracker.

(** One entry of a usage dict: the key is absent, holds [None], or holds
    an integer. *)
Inductive Entry : Set :=
| Missing
| NoneValue
| Int (n : Z).

(** A usage dict, as far as the tracker reads it. *)
Record Usage : Set := mkUsage {
  prompt_tokens : Entry;
  completion_tokens : Entry;
  total_tokens : Entry
}.

(** [self.usages]: the recorded [{"tool": tool, "usage": usage}] items. *)
Definition Tracker : Set := list (str * Usage).

(** The dict [get_total_usage] returns. *)
Record Totals : Set := mkTotals {
  sum_prompt : Z;
  sum_completion : Z;
  sum_total : Z
}.

(** [track_usage]; no listener is registered for the event it emits
    unless [sys.asyncLocalContext] exists. *)
Definition track_usage (tool : str) (usage : Usage) (t : Tracker) : Tracker :=
  t ++ [(tool, usage)].

(** [acc += usage.get(key)]: adding [None] to an integer raises. *)
Definition add_get (acc : Z) (e : Entry) : result Z :=
  match e with
  | Int n => Ok (acc + n)%Z
  | Missing | NoneValue => Raise TypeError
  end.


Fixpoint total_loop (usages : Tracker) (r : Totals) : result Totals :=
  match usages with
  | [] => Ok r
  | (_, usage) :: rest =>
      p <- add_get (sum_prompt r) (prompt_tokens usage) ;;
      c <- add_get (sum_completion r) (completion_tokens usage) ;;
      t <- add_get (sum_total r) (total_tokens usage) ;;
      total_loop rest (mkTotals p c t)
  end.

Definition get_total_usage (t : Tracker) : result Totals :=
  total_loop t (mkTotals 0 0 0).






Definition reset (t : Tracker) : Tracker := [].

End TokenTracker.

Module TokenShapes.

Import TokenTracker.

(** The usage dicts [get_total_usage] can add up. *)
Definition complete (u : Usage) : bool :=
  match prompt_tokens u, completion_tokens u, total_tokens u with
  | Int _, Int _, Int _ => true
  | _, _, _ => false
  end.

Definition value (e : Entry) : Z :=
  match e with Int n => n | _ => 0%Z end.


End TokenShapes.

(** ** utils/text_tools.py: tags, line breaks, sampling *)

Module TextFilters.

Definition LT : ascii := "<"%char.
Definition GT : ascii := ">"%char.
Definition NL : ascii := Str.ch 10.

(** The scan of [re.sub(r'<[^>]*>?', '', text)]: outside a match a [<]
    opens one and every other character is kept; inside, everything up
    to and including the next [>] belongs to the match, which also ends
    with the text. *)
Fixpoint strip_tags (in_tag : bool) (text : str) : str :=
  match text with
  | [] => []
  | c :: rest =>
      if in_tag then strip_tags (negb (Str.ceqb c GT)) rest
      else if Str.ceqb c LT then strip_tags true rest
      else c :: strip_tags false rest
  end.

Definition remove_html_tags (text : str) : str := strip_tags false text.

(** The scan of [re.sub(r'\n{2,}', '\n\n', text)]: [seen] counts the
    line feeds of the current run already written, at most two. *)
Fixpoint squeeze (seen : nat) (text : str) : str :=
  match text with
  | [] => []
  | c :: rest =>
      if Str.ceqb c NL then
        if seen <? 2 then NL :: squeeze (S seen) rest else squeeze seen rest
      else c :: squeeze 0 rest
  end.

Definition remove_extra_line_breaks (text : str) : str := squeeze 0 text.

Section ChooseK.

(** [random.shuffle] on a copy of the list. *)
Variable shuffle : list str -> list str.

(** [choose_k], for the non-negative [k] every caller passes. *)
Definition choose_k (a : list str) (k : nat) : list str := firstn k (shuffle a).

End ChooseK.

End TextFilters.

Module TextShapes.

Import TextFilters.

(** The longest run of line feeds in a text is at most [n]; [run] is
    the length of the run that ends just before the text. *)
Fixpoint runs_within (n run : nat) (text : str) : bool :=
  match text with
  | [] => true
  | c :: rest =>
      if Str.ceqb c NL then (S run <=? n) && runs_within n (S run) rest
      else runs_within n 0 rest
  end.

End TextShapes.

(** ** agent.py: the messages sent to the generator *)

Module Messages.

Import Visit TextFilters.

(** A [CoreMessage] dict with its two keys. *)
Record Message : Set := mkMessage {
  role : str;
  content : str
}.


Definition truthy_str (s : option str) : bool :=
  match s with
  | Some (_ :: _) => true
  | _ => false
  end.

Definition is_url (t : KnowledgeType) : bool :=
  match t with URL => true | _ => false end.

Definition is_side_info (t : KnowledgeType) : bool :=
  match t with SIDE_INFO => true | _ => false end.

(** The assistant text built for one knowledge item, before it is
    stripped and squeezed. *)
Definition answer_msg (k : KnowledgeItem) : str :=
  (if truthy_str (k_updated k) && (is_url (k_type k) || is_side_info (k_type k))
   then [NL] ++ lit "<answer-datetime>" ++ [NL]
        ++ match k_updated k with Some u => u | None => [] end
        ++ [NL] ++ lit "</answer-datetime>" ++ [NL]
   else [])
  ++ (match k_references k with
      | r :: _ => if is_url (k_type k)
                  then [NL] ++ lit "<url>" ++ [NL] ++ r ++ [NL] ++ lit "</url>" ++ [NL]
                  else []
      | [] => []
      end)
  ++ [NL] ++ k_answer k.

(** [build_msgs_from_knowledge] *)
Definition build_msgs_from_knowledge (knowledge : list KnowledgeItem) : list Message :=
  flat_map (fun k =>
    [mkMessage (lit "user") (Str.strip (k_question k));
     mkMessage (lit "assistant") (remove_extra_line_breaks (Str.strip (answer_msg k)))])
    knowledge.

Section ComposeMsgs.

(** [REVIEWER_TEMPLATE.format(idx=idx, pip=pip)] and
    [ANSWER_REQUIREMENTS_TEMPLATE.format(reviewers=...)]. *)
Variable reviewer : nat -> str -> str.
Variable answer_requirements : str -> str.





End ComposeMsgs.

End Messages.

(** ** utils/url_tools.py: the URL list of the prompt *)

Module Select.

Import UrlTools.

(** One dict of the list [sort_select_urls] returns.  A ledger entry has
    no [final_score], so [score] is its [weight], which may be [None]. *)
Record Selected : Set := mkSelected {
  sel_url : str;
  sel_score : option Q;
  sel_merged : str
}.

(** The sort key [x.get("score", 0) or 0]. *)
Definition sort_key (x : Selected) : Q :=
  match sel_score x with
  | Some q => q
  | None => 0%Q
  end.

(** [sorted(result, key=..., reverse=True)]: stable, highest key
    first. *)
Fixpoint insert_by_key (x : Selected) (l : list Selected) : list Selected :=
  match l with
  | [] => [x]
  | y :: l' =>
      if Qle_bool (sort_key y) (sort_key x) then x :: l
      else y :: insert_by_key x l'
  end.

Definition sort_by_key (l : list Selected) : list Selected :=
  fold_right insert_by_key [] l.

(** The loop over [all_urls.values()]: entries whose merged text is
    empty are left out. *)
Definition candidates (all_urls : Ledger) : list Selected :=
  flat_map (fun kv =>
    let r := snd kv in
    match TextTools.smart_merge_strings (title r) (description r) with
    | [] => []
    | merged => [mkSelected (url r) (weight r) merged]
    end) all_urls.

(** [sort_select_urls], on the ledger that [get_prompt] passes. *)
Definition sort_select_urls (all_urls : Ledger) (max_urls : nat) : list Selected :=
  match all_urls with
  | [] => []
  | _ => firstn max_urls (sort_by_key (candidates all_urls))
  end.

End Select.

(** ** utils/date_tools.py *)

Module DateTools.

(** The fields of a [datetime] that the formatter reads. *)
Record DateTime : Set := mkDateTime {
  year : Z;
  month : Z;
  day : Z;
  hour : Z;
  minute : Z;
  second : Z
}.

(** [s.zfill(2)] for a string of digits. *)
Definition zfill2 (s : str) : str :=
  match s with
  | [] => lit "00"
  | [c] => ["0"%char; c]
  | _ => s
  end.

Definition two (n : Z) : str := zfill2 (Str.of_Z n).

Definition date_part (d : DateTime) : str :=
  Str.of_Z (year d) ++ lit "-" ++ two (month d) ++ lit "-" ++ two (day d).

(** [format_date_based_on_type] applied to a [datetime]. *)
Definition format_date_based_on_type (d : DateTime) (format_type : str) : str :=
  if Str.eqb format_type (lit "year") || Str.eqb format_type (lit "day")
  then date_part d
  else if Str.eqb format_type (lit "hour")
  then date_part d ++ lit " " ++ two (hour d) ++ lit ":" ++ two (minute d)
  else date_part d ++ lit " " ++ two (hour d) ++ lit ":" ++ two (minute d)
       ++ lit ":" ++ two (second d).

(** The values a [datetime] with a four-digit year can hold. *)
Definition four_digit (d : DateTime) : bool :=
  ((1000 <=? year d) && (year d <=? 9999)
   && (1 <=? month d) && (month d <=? 12)
   && (1 <=? day d) && (day d <=? 31)
   && (0 <=? hour d) && (hour d <=? 23)
   && (0 <=? minute d) && (minute d <=? 59)
   && (0 <=? second d) && (second d <=? 59))%Z.

End DateTools.

(** ** agent.py: running the search queries *)

Module Search.

Import Normalizer UrlTools Visit TextFilters.

(** A query dict: [q] and the optional [tbs]. *)
Record Query : Set := mkQuery {
  q : str;
  tbs : option str
}.

(** A [SearchResult] as the loop reads it. *)
Record RawResult : Set := mkRaw {
  raw_title : str;
  raw_url : str;
  raw_description : str
}.

(** [f"{q} site:{' OR site:'.join(only_hostnames)}"], when hostnames are
    given. *)
Definition with_sites (only_hostnames : list str) (query_text : str) : str :=
  match only_hostnames with
  | [] => query_text
  | _ => query_text ++ lit " site:" ++ Str.join (lit " OR site:") only_hostnames
  end.

(** The snippets built from the results whose URL normalizes. *)
Definition min_results_of (results : list RawResult) : list SearchSnippet :=
  flat_map (fun r =>
    match normalize_url (raw_url r) with
    | None => []
    | Some u => [mkSnippet (raw_title r) u (raw_description r) (Some 1%Q) None]
    end) results.

(** [for r in min_results: utility_score += add_to_all_urls(r, all_urls)] *)
Fixpoint add_each (rs : list SearchSnippet) (l : Ledger) (utility : nat)
  : result (Ledger * nat) :=
  match rs with
  | [] => Ok (l, utility)
  | r :: rest =>
      x <- add_to_all_urls r l 1%Q ;;
      add_each rest (fst x) (utility + snd x)
  end.

(** What the loop carries: the ledger, the new knowledge, the queries
    searched and the utility score. *)
Record Progress : Set := mkProgress {
  ledger : Ledger;
  new_knowledge : list KnowledgeItem;
  searched_queries : list str;
  utility_score : nat
}.

Section ExecuteSearchQueries.

(** [SEARCH_PROVIDER == "jina"], the [data] of the search response (or
    the exception of the call), and the date range text. *)
Variable jina : bool.
Variable search : str -> result (list RawResult).
Variable format_date_range : Query -> str.

Variable only_hostnames : list str.

(** One round of [for query in keywords_queries]: an exception inside
    the [try], or an empty result, moves on to the next query. *)
Definition run_query (query : Query) (p : Progress) : result Progress :=
  let old_query := q query in
  let query' := mkQuery (with_sites only_hostnames (q query)) (tbs query) in
  match (if jina then search (q query') else Ok []) with
  | Raise _ | Ok [] => Ok p
  | Ok results =>
      let min_results := min_results_of results in
      x <- add_each min_results (ledger p) (utility_score p) ;;
      Ok {| ledger := fst x;
            new_knowledge :=
              new_knowledge p
              ++ [mkKnowledge SIDE_INFO
                    (lit "What do Internet say about " ++ [Str.ch 34] ++ old_query
                     ++ [Str.ch 34] ++ lit "?")
                    (remove_html_tags
                       (Str.join (lit "; ") (map description min_results)))
                    []
                    (match tbs query' with
                     | Some (_ :: _) => Some (format_date_range query')
                     | _ => None
                     end)];
            searched_queries := searched_queries p ++ [q query'];
            utility_score := snd x |}
  end.

Fixpoint run_queries (queries : list Query) (p : Progress) : result Progress :=
  match queries with
  | [] => Ok p
  | query :: rest => p' <- run_query query p ;; run_queries rest p'
  end.

(** [execute_search_queries]: the ledger afterwards, [new_knowledge] and
    [searched_queries]. *)
Definition execute_search_queries (keywords_queries : list Query) (all_urls : Ledger)
  : result (Ledger * list KnowledgeItem * list str) :=
  p <- run_queries keywords_queries (mkProgress all_urls [] [] 0) ;;
  Ok (ledger p, new_knowledge p, searched_queries p).

End ExecuteSearchQueries.

(** A query whose search brings nothing: the provider is not jina, the
    call raises, or the response holds no result. *)
Definition barren (jina : bool) (search : str -> result (list RawResult))
           (only_hostnames : list str) (query : Query) : Prop :=
  jina = false
  \/ (exists e, search (with_sites only_hostnames (q query)) = Raise e)
  \/ search (with_sites only_hostnames (q query)) = Ok [].

End Search.

Module SearchExamples.

Import Search.

(** A search service that knows about cats, fails on dogs and finds
    nothing else. *)
Definition search_demo (query_text : str) : result (list RawResult) :=
  if Str.eqb query_text (lit "cats")
  then Ok [mkRaw (lit "Cats") (lit "HTTP://A.com/cats") (lit "<b>cats</b> purr")]
  else if Str.eqb query_text (lit "dogs") then Raise ExternalError
  else Ok [].

Definition no_range (query : Query) : str := [].

End SearchExamples.

(** * Properties *)

(** ** Strings *)

Module StrFacts.

Lemma ceqb_eq (a b : ascii) : Str.ceqb a b = true <-> a = b.
Proof. unfold Str.ceqb. apply Ascii.eqb_eq. Qed.

Lemma ceqb_refl (a : ascii) : Str.ceqb a a = true.
Proof. apply ceqb_eq. reflexivity. Qed.

Lemma eqb_eq (a b : str) : Str.eqb a b = true <-> a = b.
Proof.
  revert b. induction a as [|x a IH]; intros [|y b]; simpl; split; intro H;
    try reflexivity; try discriminate.
  - apply andb_true_iff in H. destruct H as [H1 H2].
    apply ceqb_eq in H1. apply IH in H2. congruence.
  - inversion H; subst. rewrite ceqb_refl. simpl. apply IH. reflexivity.
Qed.

Lemma eqb_refl (a : str) : Str.eqb a a = true.
Proof. apply eqb_eq. reflexivity. Qed.

Lemma eqb_neq (a b : str) : Str.eqb a b = false <-> a <> b.
Proof.
  split; intro H.
  - intro E. apply eqb_eq in E. congruence.
  - destruct (Str.eqb a b) eqn:E; [|reflexivity].
    apply eqb_eq in E. contradiction.
Qed.

Lemma mem_In (x : str) (xs : list str) : Str.mem x xs = true <-> In x xs.
Proof.
  unfold Str.mem. rewrite existsb_exists. split.
  - intros [y [Hy E]]. apply eqb_eq in E. subst. assumption.
  - intro H. exists x. split; [assumption | apply eqb_refl].
Qed.

Lemma mem_not_In (x : str) (xs : list str) : Str.mem x xs = false <-> ~ In x xs.
Proof.
  split; intro H.
  - intro I. apply mem_In in I. congruence.
  - destruct (Str.mem x xs) eqn:E; [|reflexivity].
    apply mem_In in E. contradiction.
Qed.

End StrFacts.

(** ** The evaluator *)

Module EvaluatorFacts.

Import Evaluator.
Import Examples.

Lemma EvaluationType_eqb_eq (a b : EvaluationType) :
  EvaluationType_eqb a b = true <-> a = b.
Proof. destruct a, b; simpl; split; intro H; congruence. Qed.

Section Loop.

Variable perform_evaluation : nat -> EvaluationType -> result EvalObject.

(** Once the loop variable holds something other than the wrapper, a
    run in which every call passes ends in [AttributeError]. *)
Lemma evaluate_loop_all_pass (types : list EvaluationType) :
  (forall n t, exists o, perform_evaluation n t = Ok o /\ obj_pass_eval o = true) ->
  forall n res, attr_object res = Raise AttributeError ->
    evaluate_loop perform_evaluation n types res = Raise AttributeError.
Proof.
  intro Hpass. induction types as [|t rest IH]; intros n res Hres; simpl.
  - rewrite Hres. reflexivity.
  - destruct (has_prompt t).
    + destruct (Hpass n t) as [o [Ho Hp]]. rewrite Ho. simpl.
      rewrite Hp. simpl. apply IH. reflexivity.
    + apply IH. assumption.
Qed.

(** Whatever [evaluate_loop] returns when started without a wrapper is a
    failed evaluation carrying the criterion that failed. *)
Lemma evaluate_loop_returns_failure (types : list EvaluationType) :
  forall n res r, attr_object res = Raise AttributeError ->
    evaluate_loop perform_evaluation n types res = Ok r ->
    pass_eval r = false /\ exists t, In t types /\ ev_type r = Some t.
Proof.
  induction types as [|t rest IH]; intros n res r Hres H; simpl in H.
  - rewrite Hres in H. discriminate.
  - destruct (has_prompt t).
    + destruct (perform_evaluation n t) as [o|e]; simpl in H; [|discriminate].
      destruct (obj_pass_eval o) eqn:Hp; simpl in H.
      * destruct (IH (S n) (RDict o) r) as [H1 [t' [H2 H3]]];
          [reflexivity | exact H |].
        split; [assumption|]. exists t'. split; [right; assumption | assumption].
      * inversion H; subst. simpl. split; [assumption|].
        exists t. split; [left; reflexivity | reflexivity].
    + destruct (IH n res r) as [H1 [t' [H2 H3]]];
        [exact Hres | exact H |].
      split; [assumption|]. exists t'. split; [right; assumption | assumption].
Qed.

End Loop.

(** C2.  When every criterion passes, [evaluate_answer] does not return
    a passing evaluation: the loop has replaced [result] by the dict it
    wrapped, and the final [result.object] raises [AttributeError]. *)
Theorem evaluate_answer_all_pass_raises
  (perform_evaluation : nat -> EvaluationType -> result EvalObject)
  (types : list EvaluationType) :
  (forall n t, exists o, perform_evaluation n t = Ok o /\ obj_pass_eval o = true) ->
  evaluate_answer perform_evaluation types = Raise AttributeError.
Proof.
  intro H. unfold evaluate_answer.
  apply evaluate_loop_all_pass; [assumption | reflexivity].
Qed.

Lemma evaluate_answer_all_pass_raises_witness :
  (forall n t, exists o, (fun (_ : nat) (_ : EvaluationType) => Ok passing) n t = Ok o
                         /\ obj_pass_eval o = true)
  /\ evaluate_answer (fun _ _ => Ok passing) [DEFINITIVE; STRICT] = Raise AttributeError.
Proof.
  split.
  - intros n t. exists passing. split; reflexivity.
  - apply (evaluate_answer_all_pass_raises (fun _ _ => Ok passing) [DEFINITIVE; STRICT]).
    intros n t. exists passing. split; reflexivity.
Defined.

(** No call of [evaluate_answer] returns a passing evaluation. *)
Lemma evaluate_answer_never_passes
  (perform_evaluation : nat -> EvaluationType -> result EvalObject)
  (types : list EvaluationType) (r : EvaluationResponse) :
  evaluate_answer perform_evaluation types = Ok r -> pass_eval r = false.
Proof.
  intro H. unfold evaluate_answer in H.
  eapply evaluate_loop_returns_failure; [|exact H]. reflexivity.
Qed.

(** The criteria are run in order and the first failure is returned
    with its type. *)
Lemma evaluate_answer_first_failure :
  evaluate_answer
    (fun n t => Ok (mkObject (negb (EvaluationType_eqb t PLURALITY)) (lit "t") None None))
    [DEFINITIVE; PLURALITY; STRICT]
  = Ok (mkEvaluation false (lit "t") (Some PLURALITY) None).
Proof. reflexivity. Qed.

End EvaluatorFacts.

(** ** Evaluation obligations *)

Module ObligationFacts.

Import Agent.

(** The update only filters: every obligation that is kept is kept as it
    was, counter included. *)
Lemma remaining_metrics_incl (failed : option EvaluationType)
      (ms : list RepeatEvaluationType) (e : RepeatEvaluationType) :
  In e (remaining_metrics failed ms) -> In e ms.
Proof.
  unfold remaining_metrics. intro H. apply filter_In in H. tauto.
Qed.

Lemma remaining_metrics_fixed (t : EvaluationType) (ms : list RepeatEvaluationType) :
  (forall e, In e ms -> (1 < num_evals_required e)%Z) ->
  remaining_metrics (Some t) ms = ms.
Proof.
  intro H. unfold remaining_metrics.
  induction ms as [|e ms IH]; simpl; [reflexivity|].
  assert (He : (1 <? num_evals_required e)%Z = true).
  { apply Z.ltb_lt. apply H. left. reflexivity. }
  rewrite He.
  destruct (EvaluationType_eqb (re_type e) t); simpl;
    (rewrite IH; [reflexivity | intros e' Hin; apply H; right; exact Hin]).
Qed.

(** C3.  A failed evaluation leaves obligations with more than one
    attempt exactly as they were: the counter of the failed criterion is
    not decremented, so it never reaches the value at which it would be
    removed. *)
Theorem failed_obligation_not_decremented
  (t : EvaluationType) (ms : list RepeatEvaluationType) :
  (forall e, In e ms -> (1 < num_evals_required e)%Z) ->
  remaining_metrics (Some t) ms = ms
  /\ forall e, In e (remaining_metrics (Some t) ms) ->
       In e ms /\ (1 < num_evals_required e)%Z.
Proof.
  intro H. rewrite (remaining_metrics_fixed t ms H).
  split; [reflexivity|]. intros e He. split; [exact He | apply H; exact He].
Qed.

Lemma failed_obligation_not_decremented_witness :
  (forall e, In e [mkRepeat DEFINITIVE 2; mkRepeat STRICT 2] ->
             (1 < num_evals_required e)%Z)
  /\ remaining_metrics (Some STRICT) [mkRepeat DEFINITIVE 2; mkRepeat STRICT 2]
     = [mkRepeat DEFINITIVE 2; mkRepeat STRICT 2].
Proof.
  assert (H : forall e, In e [mkRepeat DEFINITIVE 2; mkRepeat STRICT 2] ->
                        (1 < num_evals_required e)%Z).
  { intros e [E|[E|[]]]; subst; simpl; lia. }
  split; [exact H|].
  exact (proj1 (failed_obligation_not_decremented STRICT
                  [mkRepeat DEFINITIVE 2; mkRepeat STRICT 2] H)).
Defined.

(** With one attempt left the obligation goes on the first failure. *)
Lemma last_attempt_removed :
  remaining_metrics (Some STRICT) [mkRepeat DEFINITIVE 1; mkRepeat STRICT 1]
  = [mkRepeat DEFINITIVE 1].
Proof. reflexivity. Qed.

(** Repeated failures of the same criterion never change the list when
    the counters start above one. *)
Lemma repeated_failures_change_nothing
      (t : EvaluationType) (ms : list RepeatEvaluationType) (k : nat) :
  (forall e, In e ms -> (1 < num_evals_required e)%Z) ->
  Nat.iter k (remaining_metrics (Some t)) ms = ms.
Proof.
  intro H. induction k as [|k IH]; simpl; [reflexivity|].
  rewrite IH. apply remaining_metrics_fixed. exact H.
Qed.

End ObligationFacts.

(** ** Query deduplication *)

Module DedupFacts.

Import Dedup.

(** C5.  A single new query with no existing queries makes
    [dedup_queries] raise, whatever the embedding collaborator would have
    done: the fast path returns a local variable that has no value yet,
    and the exception reaches the caller in the search branch. *)
Theorem dedup_single_query_raises
  (Emb : Type) (get_embeddings : list str -> result (list Emb * Z))
  (cosine_similarity : Emb -> Emb -> result Q) (q : str) :
  dedup_queries get_embeddings cosine_similarity [q] [] = Raise UnboundLocalError
  /\ unique_queries_of get_embeddings cosine_similarity [q] [] = Raise UnboundLocalError.
Proof. split; reflexivity. Qed.

(** When the embedding call raises, [dedup_queries] returns the bare
    list and the caller's subscript raises [TypeError]. *)
Lemma dedup_embedding_failure_raises
  (Emb : Type) (get_embeddings : list str -> result (list Emb * Z))
  (cosine_similarity : Emb -> Emb -> result Q) (new_queries existing : list str) :
  (forall qs, exists e, get_embeddings qs = Raise e) ->
  (1 < List.length new_queries + List.length existing) ->
  unique_queries_of get_embeddings cosine_similarity new_queries existing
  = Raise TypeError.
Proof.
  intros Hfail Hlen. unfold unique_queries_of, dedup_queries, dedup_try.
  destruct (Hfail (new_queries ++ existing)) as [e He]. rewrite He. simpl.
  destruct new_queries as [|q1 [|q2 qs]]; simpl in *; try reflexivity.
  destruct existing; simpl in *; [lia | reflexivity].
Qed.

(** With embeddings for every query the dict is returned and the
    subscript succeeds: two unrelated queries both survive. *)
Lemma dedup_two_distinct :
  unique_queries_of
    (fun qs => Ok (map (fun _ => tt) qs, 0%Z))
    (fun _ _ => Ok (1 # 2)%Q)
    [lit "alpha"; lit "beta"] []
  = Ok [lit "alpha"; lit "beta"].
Proof. reflexivity. Qed.

End DedupFacts.

(** ** Ranking *)

Module RankFacts.

Import UrlTools.
Import Statements.
Import Examples.

Lemma insert_by_score_In (x y : BoostedSearchSnippet) (l : list BoostedSearchSnippet) :
  In y (insert_by_score x l) <-> y = x \/ In y l.
Proof.
  induction l as [|z l IH]; simpl.
  - intuition congruence.
  - destruct (Qle_bool (final_score z) (final_score x)); simpl.
    + intuition congruence.
    + rewrite IH. intuition congruence.
Qed.

Lemma sort_by_score_In (y : BoostedSearchSnippet) (l : list BoostedSearchSnippet) :
  In y (sort_by_score l) <-> In y l.
Proof.
  unfold sort_by_score. induction l as [|x l IH]; simpl; [tauto|].
  rewrite insert_by_score_In, IH. intuition congruence.
Qed.

Lemma insert_by_score_length (x : BoostedSearchSnippet) (l : list BoostedSearchSnippet) :
  List.length (insert_by_score x l) = S (List.length l).
Proof.
  induction l as [|z l IH]; simpl; [reflexivity|].
  destruct (Qle_bool (final_score z) (final_score x)); simpl; [reflexivity|].
  rewrite IH. reflexivity.
Qed.

Lemma sort_by_score_length (l : list BoostedSearchSnippet) :
  List.length (sort_by_score l) = List.length l.
Proof.
  unfold sort_by_score. induction l as [|x l IH]; simpl; [reflexivity|].
  rewrite insert_by_score_length, IH. reflexivity.
Qed.

Lemma clip_bounds (o : RankOptions) (x : Q) :
  (min_boost o <= max_boost o)%Q ->
  (min_boost o <= clip o x)%Q /\ (clip o x <= max_boost o)%Q.
Proof.
  intro H. unfold clip. split.
  - apply Q.min_glb; [apply Q.le_max_r | exact H].
  - apply Q.le_min_r.
Qed.

Section Rank.

Variable rerank_documents : str -> list str -> result (list (Z * Q)).

Lemma rank_item_well_scored (o : RankOptions) (c : UrlCounts) (boosts : option (list Q))
      (i : nat) (item : SearchSnippet) (r : BoostedSearchSnippet) :
  rank_item o c boosts i item = Ok r -> well_scored o r.
Proof.
  unfold rank_item. destruct (extract_url_parts (url item)) as [hostname path].
  destruct (0 <? total_urls c).
  - destruct (weight item) as [w|]; simpl; [|discriminate].
    destruct boosts as [bs|]; simpl; [|discriminate].
    destruct (Py.index bs _) as [b|e]; simpl; [|discriminate].
    intro H. inversion H; subst. split; reflexivity.
  - simpl. destruct boosts as [bs|]; simpl; [|discriminate].
    destruct (Py.index bs _) as [b|e]; simpl; [|discriminate].
    intro H. inversion H; subst. split; reflexivity.
Qed.

Lemma rank_loop_well_scored (o : RankOptions) (c : UrlCounts) (boosts : option (list Q))
      (url_items : list SearchSnippet) :
  forall i rs, rank_loop o c boosts i url_items = Ok rs ->
    forall r, In r rs -> well_scored o r.
Proof.
  induction url_items as [|item rest IH]; intros i rs H r Hin; simpl in H.
  - inversion H; subst. destruct Hin.
  - destruct (valid_item item).
    + destruct (rank_item o c boosts i item) as [x|e] eqn:Hx; simpl in H; [|discriminate].
      destruct (rank_loop o c boosts (S i) rest) as [xs|e] eqn:Hxs; simpl in H;
        [|discriminate].
      inversion H; subst. destruct Hin as [E|Hin].
      * subst. eapply rank_item_well_scored. exact Hx.
      * eapply IH; [exact Hxs | exact Hin].
    + eapply IH; [exact H | exact Hin].
Qed.

Lemma rank_loop_length (o : RankOptions) (c : UrlCounts) (boosts : option (list Q))
      (url_items : list SearchSnippet) :
  forall i rs, rank_loop o c boosts i url_items = Ok rs ->
    List.length rs <= List.length url_items.
Proof.
  induction url_items as [|item rest IH]; intros i rs H; simpl in H.
  - inversion H; subst. simpl. lia.
  - destruct (valid_item item).
    + destruct (rank_item o c boosts i item) as [x|e]; simpl in H; [|discriminate].
      destruct (rank_loop o c boosts (S i) rest) as [xs|e] eqn:Hxs; simpl in H;
        [|discriminate].
      inversion H; subst. simpl. apply IH in Hxs. lia.
    + apply IH in H. simpl. lia.
Qed.

Lemma rank_urls_length (url_items : list SearchSnippet) (o : RankOptions)
      (rs : list BoostedSearchSnippet) :
  rank_urls rerank_documents url_items o = Ok rs ->
  List.length rs <= List.length url_items.
Proof.
  unfold rank_urls.
  destruct (rank_loop o _ _ 0 url_items) as [xs|e] eqn:H; simpl; [|discriminate].
  intro E. inversion E; subst. rewrite sort_by_score_length.
  eapply rank_loop_length. exact H.
Qed.

(** Without a value for [jina_rerank_boosts] the first scored item
    raises. *)
Lemma rank_item_unbound (o : RankOptions) (c : UrlCounts) (i : nat)
      (item : SearchSnippet) (w : Q) :
  weight item = Some w ->
  rank_item o c None i item = Raise UnboundLocalError.
Proof.
  intro Hw. unfold rank_item.
  destruct (extract_url_parts (url item)) as [hostname path].
  rewrite Hw. destruct (0 <? total_urls c); reflexivity.
Qed.

End Rank.

(** C6.  When the rerank call raises, or is not attempted because the
    question is blank, [rank_urls] does not return a ranked list: the
    list [jina_rerank_boosts] was never created, and reading it for the
    first candidate raises. *)
Theorem rank_urls_fails_without_rerank
  (rerank_documents : str -> list str -> result (list (Z * Q)))
  (o : RankOptions) (item : SearchSnippet) (rest : list SearchSnippet) (w : Q) :
  valid_item item = true ->
  weight item = Some w ->
  (Str.strip (question o) = []
   \/ forall docs, exists e, rerank_documents (question o) docs = Raise e) ->
  rank_urls rerank_documents (item :: rest) o = Raise UnboundLocalError.
Proof.
  intros Hv Hw Hq. unfold rank_urls.
  assert (Hb : rerank_boosts rerank_documents o (item :: rest) = None).
  { unfold rerank_boosts. destruct Hq as [Hq|Hq].
    - rewrite Hq. reflexivity.
    - destruct (Str.strip (question o)); [reflexivity|].
      destruct (Hq (map fst (unique_content_map (item :: rest)))) as [e He].
      rewrite He. reflexivity. }
  rewrite Hb. simpl rank_loop. rewrite Hv.
  rewrite (rank_item_unbound o _ 0 item Hw). reflexivity.
Qed.

Lemma rank_urls_fails_without_rerank_witness :
  valid_item (page "http://a.com/" 1%Q) = true
  /\ weight (page "http://a.com/" 1%Q) = Some 1%Q
  /\ rank_urls rerank_down [page "http://a.com/" 1%Q] (default_options (lit "why") [])
     = Raise UnboundLocalError.
Proof.
  split; [reflexivity|]. split; [reflexivity|].
  apply (rank_urls_fails_without_rerank rerank_down (default_options (lit "why") [])
           (page "http://a.com/" 1%Q) [] (w := 1%Q)).
  - reflexivity.
  - reflexivity.
  - right. intro docs. exists ExternalError. reflexivity.
Defined.

(** The same with a blank question, where no rerank is attempted. *)
Lemma rank_urls_blank_question :
  rank_urls (fun _ _ => Ok [(0%Z, 1%Q)]) [page "http://a.com/" 1%Q]
    (default_options (lit " ") [])
  = Raise UnboundLocalError.
Proof. reflexivity. Qed.

(** Only an empty candidate list gets through without the rerank
    result. *)
Lemma rank_urls_no_candidates (o : RankOptions) :
  rank_urls rerank_down [] o = Ok [].
Proof.
  unfold rank_urls. simpl. reflexivity.
Qed.

(** C7, as stated, fails: a candidate of weight 100 alone in the list
    gets [freq_boost] 50, above [max_boost] 5; only its final score is
    brought back to 5. *)
Lemma factors_not_clipped :
  exists r,
    rank_urls rerank_one [page "http://a.com/" 100%Q] (default_options (lit "why") [])
    = Ok [r]
    /\ ~ (freq_boost r <= max_boost (default_options (lit "why") []))%Q
    /\ (final_score r == 5)%Q.
Proof.
  eexists. split; [vm_compute; reflexivity|]. split.
  - vm_compute. intro H. apply H. reflexivity.
  - vm_compute. reflexivity.
Qed.

(** C7, amended.  For every candidate that [rank_urls] returns, the
    final score (also stored as [score]) is the sum of the four recorded
    factors clipped to the interval from [min_boost] to [max_boost]; the
    factors themselves are recorded as computed. *)
Theorem final_score_is_clipped_sum
  (rerank_documents : str -> list str -> result (list (Z * Q)))
  (url_items : list SearchSnippet) (o : RankOptions)
  (rs : list BoostedSearchSnippet) (r : BoostedSearchSnippet) :
  rank_urls rerank_documents url_items o = Ok rs ->
  In r rs ->
  final_score r
  = Qmin (Qmax (hostname_boost r + path_boost r + freq_boost r + jina_rerank_boost r)
               (min_boost o)) (max_boost o)
  /\ score r = final_score r
  /\ ((min_boost o <= max_boost o)%Q ->
      (min_boost o <= final_score r)%Q /\ (final_score r <= max_boost o)%Q).
Proof.
  unfold rank_urls. intros H Hin.
  destruct (rank_loop o _ _ 0 url_items) as [xs|e] eqn:Hxs; simpl in H; [|discriminate].
  inversion H; subst. apply -> sort_by_score_In in Hin.
  destruct (rank_loop_well_scored o _ _ url_items 0 Hxs r Hin) as [H1 H2].
  split; [exact H1|]. split; [exact H2|].
  intro Hle. rewrite H1. apply clip_bounds. exact Hle.
Qed.

Lemma final_score_is_clipped_sum_witness :
  exists r,
    rank_urls rerank_one [page "http://a.com/" 100%Q] (default_options (lit "why") [])
    = Ok [r]
    /\ final_score r
       = Qmin (Qmax (hostname_boost r + path_boost r + freq_boost r + jina_rerank_boost r)
                    0) 5
    /\ score r = final_score r.
Proof.
  pose (o := default_options (lit "why") []).
  destruct (rank_urls rerank_one [page "http://a.com/" 100%Q] o) as [rs|e] eqn:H;
    [|vm_compute in H; discriminate].
  destruct rs as [|r [|r' rs]]; try (vm_compute in H; discriminate).
  exists r. split; [exact H|].
  destruct (@final_score_is_clipped_sum rerank_one [page "http://a.com/" 100%Q] o
              [r] r H (or_introl eq_refl)) as [H1 [H2 _]].
  split; [exact H1 | exact H2].
Defined.

End RankFacts.

(** ** The orchestrator *)

Module AgentFacts.

Import UrlTools Visit Agent.
Import Examples.

Lemma keep_k_loop_length (k : nat) (results : list BoostedSearchSnippet) :
  forall m, List.length (keep_k_loop k results m) <= List.length results.
Proof.
  induction results as [|r rest IH]; intro m; simpl; [lia|].
  destruct (count_get _ m <? k); simpl.
  - specialize (IH (count_bump (hostname_of (url (snippet r))) m)). lia.
  - specialize (IH m). lia.
Qed.

Lemma filter_urls_length (l : Ledger) (visited bad only : list str) :
  List.length (filter_urls l visited bad only) <= List.length l.
Proof.
  unfold filter_urls. rewrite length_map. apply filter_length_le.
Qed.

(** The flag [allow_search] after gating. *)
Lemma gate_search (st ts : nat) (fresh : bool) (nw ng : nat) (f : Flags) :
  allow_search (gate st ts fresh nw ng f) = true ->
  st = 1 \/ (st <> 2 /\ st <> 3 /\ st <> 4 /\ allow_search f = true /\ nw < 200).
Proof.
  unfold gate.
  destruct (st =? 1) eqn:E1; [intros _; left; apply Nat.eqb_eq; exact E1|].
  destruct (st =? 2) eqn:E2; [simpl; discriminate|].
  destruct (st =? 3) eqn:E3; [simpl; discriminate|].
  destruct (st =? 4) eqn:E4; [simpl; discriminate|].
  apply Nat.eqb_neq in E2, E3, E4.
  simpl. intro H. right. apply andb_true_iff in H. destruct H as [H1 H2].
  apply Nat.ltb_lt in H2.
  repeat split; try assumption.
  destruct ((ts =? 1) && fresh); simpl in H1; exact H1.
Qed.

(** At step 1 the gating leaves search as the only permitted action. *)
Lemma gate_first_step (ts : nat) (fresh : bool) (nw ng : nat) (f : Flags) :
  gate 1 ts fresh nw ng f = mkFlags false true false false false.
Proof. reflexivity. Qed.

Section Prepare.

Variable cfg : Config.
Variable evaluate_question : str -> list EvaluationType.
Variable rerank_documents : str -> list str -> result (list (Z * Q)).

Lemma prepare_step_shape (s s' : Session) (q : str) :
  prepare_step cfg evaluate_question rerank_documents s = Ok (s', q) ->
  exists fresh,
    step s' = S (step s)
    /\ total_step s' = S (total_step s)
    /\ stores s' = stores s
    /\ flags s' = gate (S (step s)) (S (total_step s)) fresh
                    (List.length (weighted_urls s')) (List.length (gaps s)) (flags s).
Proof.
  unfold prepare_step.
  destruct (pick_question _ _) as [cq|e]; [|discriminate].
  cbn [Py.bind].
  destruct (refresh_weighted _ _ _ _) as [w|e]; [|discriminate].
  cbn [Py.bind].
  destruct (total_step _ =? 1).
  - destruct (metrics_get _ _) as [ms|e]; [|discriminate].
    cbn [Py.bind].
    intro H. inversion H; subst. exists (includes_eval ms FRESHNESS).
    repeat split; reflexivity.
  - cbn [Py.bind]. intro H. inversion H; subst. exists false.
    repeat split; reflexivity.
Qed.

(** The short-list never holds more entries than the ledger, once the
    ledger is not empty. *)
Lemma short_list_within_ledger (s s' : Session) (q : str) :
  prepare_step cfg evaluate_question rerank_documents s = Ok (s', q) ->
  all_urls (stores s) <> [] ->
  List.length (weighted_urls s') <= List.length (keys (all_urls (stores s'))).
Proof.
  unfold prepare_step.
  destruct (pick_question _ _) as [cq|e]; [|discriminate].
  cbn [Py.bind]. unfold refresh_weighted.
  cbn [stores set_metrics tick visited_urls all_urls].
  destruct (all_urls (stores s)) as [|kv l] eqn:El; [intros _ H; contradiction|].
  destruct (rank_urls _ _ _) as [ranked|e] eqn:Hr; [|discriminate].
  cbn [Py.bind].
  assert (Hlen : List.length (keep_k_per_hostname ranked 2) <= List.length (kv :: l)).
  { unfold keep_k_per_hostname.
    pose proof (keep_k_loop_length 2 ranked []) as H1.
    pose proof (RankFacts.rank_urls_length _ _ _ Hr) as H2.
    pose proof (filter_urls_length (kv :: l) (visited_urls (stores s))
                  (bad_hostnames cfg) (only_hostnames cfg)) as H3.
    lia. }
  destruct (total_step _ =? 1).
  - destruct (metrics_get _ _) as [ms|e]; [|discriminate].
    cbn [Py.bind].
    intros H _. inversion H; subst. simpl. unfold keys. rewrite length_map, El.
    exact Hlen.
  - cbn [Py.bind]. intros H _. inversion H; subst. simpl. unfold keys.
    rewrite length_map, El. exact Hlen.
Qed.

End Prepare.

(** C8, amended.  After the preparation of a step, search is permitted
    only at step 1 (where it is forced on) or, from step 5 on, when it
    was still permitted when the step began and the ranked,
    hostname-diversified short-list holds fewer than 200 entries. *)
Theorem search_permission
  (cfg : Config) (evaluate_question : str -> list EvaluationType)
  (rerank_documents : str -> list str -> result (list (Z * Q)))
  (s s' : Session) (q : str) :
  prepare_step cfg evaluate_question rerank_documents s = Ok (s', q) ->
  allow_search (flags s') = true ->
  step s' = 1
  \/ (4 < step s' /\ allow_search (flags s) = true
      /\ List.length (weighted_urls s') < 200).
Proof.
  intros H Hs.
  destruct (prepare_step_shape _ _ _ _ H) as [fresh [H1 [H2 [H3 H4]]]].
  rewrite H4 in Hs. apply gate_search in Hs.
  destruct Hs as [E|[N2 [N3 [N4 [Hf Hw]]]]].
  - left. rewrite H1. exact E.
  - destruct (Nat.eq_dec (S (step s)) 1) as [E|N1].
    + left. rewrite H1. exact E.
    + right. rewrite H1. repeat split; try assumption. lia.
Qed.

(** C8, as stated, fails: with 200 URLs known (all of one hostname, so
    that two of them make up the short-list), step 5 still permits
    search. *)
Lemma search_allowed_with_200_known :
  exists s q,
    prepare_step demo_config no_needs rerank_one crowded = Ok (s, q)
    /\ List.length (keys (all_urls (stores s))) = 200
    /\ List.length (weighted_urls s) = 2
    /\ allow_search (flags s) = true.
Proof.
  destruct (prepare_step demo_config no_needs rerank_one crowded)
    as [[s q]|e] eqn:H; [|vm_compute in H; discriminate].
  exists s, q. split; [reflexivity|].
  assert (E : (List.length (keys (all_urls (stores s))),
               List.length (weighted_urls s),
               allow_search (flags s)) = (200, 2, true)).
  { assert (E0 : match prepare_step demo_config no_needs rerank_one crowded with
                 | Ok (s0, _) =>
                     (List.length (keys (all_urls (stores s0))),
                      List.length (weighted_urls s0),
                      allow_search (flags s0)) = (200, 2, true)
                 | Raise _ => False
                 end) by (vm_compute; reflexivity).
    rewrite H in E0. exact E0. }
  inversion E. repeat split; reflexivity.
Qed.

Lemma search_permission_witness :
  exists s q,
    prepare_step demo_config no_needs rerank_one crowded = Ok (s, q)
    /\ allow_search (flags s) = true
    /\ (step s = 1
        \/ (4 < step s /\ allow_search (flags crowded) = true
            /\ List.length (weighted_urls s) < 200)).
Proof.
  destruct (prepare_step demo_config no_needs rerank_one crowded)
    as [[s q]|e] eqn:H; [|vm_compute in H; discriminate].
  assert (Hs : allow_search (flags s) = true).
  { assert (E0 : match prepare_step demo_config no_needs rerank_one crowded with
                 | Ok (s0, _) => allow_search (flags s0) = true
                 | Raise _ => False
                 end) by (vm_compute; reflexivity).
    rewrite H in E0. exact E0. }
  exists s, q. split; [reflexivity|]. split; [exact Hs|].
  exact (@search_permission demo_config no_needs rerank_one crowded s q H Hs).
Defined.

(** *** The returned record *)

Lemma response_after_set_this_step (cfg : Config) (a : StepAction) (s : Session) :
  r_read_urls (response cfg (set_this_step a (tick s))) = r_read_urls (response cfg s)
  /\ r_all_urls (response cfg (set_this_step a (tick s))) = r_all_urls (response cfg s)
  /\ r_visited_urls (response cfg (set_this_step a (tick s)))
     = r_visited_urls (response cfg s).
Proof. repeat split; reflexivity. Qed.

Lemma read_urls_spec (cfg : Config) (s : Session) (u : str) :
  In u (r_read_urls (response cfg s))
  <-> In u (visited_urls (stores s)) /\ ~ In u (bad_urls (stores s)).
Proof.
  simpl. rewrite filter_In. rewrite negb_true_iff.
  rewrite StrFacts.mem_not_In. reflexivity.
Qed.

(** Beast mode or not, the record's URL lists are those of the session
    at the end of the loop. *)
Lemma finish_lists
  (cfg : Config) (get_last_modified : str -> option str)
  (beast_generate : Session -> result (str * str * list Reference))
  (s : Session) (r : Response) :
  finish cfg get_last_modified beast_generate s = Ok r ->
  r_read_urls r = r_read_urls (response cfg s)
  /\ r_all_urls r = r_all_urls (response cfg s)
  /\ r_visited_urls r = r_visited_urls (response cfg s).
Proof.
  unfold finish.
  destruct (beast_needed (this_step s)) as [b|e]; [|discriminate].
  cbn [Py.bind]. destruct b.
  - destruct (beast_generate (tick s)) as [[[th ans] refs]|e]; [|discriminate].
    cbn [Py.bind].
    destruct (update_references _ _ _) as [refs'|e]; [|discriminate].
    cbn [Py.bind]. intro H. inversion H; subst.
    apply response_after_set_this_step.
  - intro H. inversion H; subst. repeat split; reflexivity.
Qed.

(** C1, amended.  In the record returned after the loop, [read_urls] is
    the visited list without the bad URLs; [all_urls] is the list of URLs
    of the ranked short-list, and [visited_urls] is its first
    [num_returned_urls] entries. *)
Theorem response_urls
  (cfg : Config) (get_last_modified : str -> option str)
  (beast_generate : Session -> result (str * str * list Reference))
  (s : Session) (r : Response) :
  finish cfg get_last_modified beast_generate s = Ok r ->
  r_read_urls r
  = filter (fun u => negb (Str.mem u (bad_urls (stores s)))) (visited_urls (stores s))
  /\ (forall u, In u (r_read_urls r)
                <-> In u (visited_urls (stores s)) /\ ~ In u (bad_urls (stores s)))
  /\ r_all_urls r = map snippet_url (weighted_urls s)
  /\ r_visited_urls r = firstn (num_returned_urls cfg) (r_all_urls r).
Proof.
  intro H. destruct (finish_lists _ _ _ _ H) as [H1 [H2 H3]].
  split; [rewrite H1; reflexivity|]. split.
  - intro u. rewrite H1. apply read_urls_spec.
  - split; [rewrite H2; reflexivity|].
    rewrite H3, H2. simpl. symmetry. apply firstn_map.
Qed.

(** C1, as stated, fails: after step 3 has rebuilt the short-list, the
    session has one visited URL and one ledger key, and the record
    returned lists neither under [visited_urls] or [all_urls]. *)
Lemma response_lists_not_session_lists :
  exists s q r,
    prepare_step demo_config no_needs rerank_one visited_once = Ok (s, q)
    /\ finish demo_config no_date beast_says s = Ok r
    /\ visited_urls (stores s) = [lit "http://a.com/"]
    /\ keys (all_urls (stores s)) = [lit "http://a.com/"]
    /\ r_visited_urls r = []
    /\ r_all_urls r = []
    /\ r_read_urls r = [lit "http://a.com/"].
Proof.
  eexists. eexists. eexists.
  split; [vm_compute; reflexivity|].
  split; [vm_compute; reflexivity|].
  repeat split; reflexivity.
Qed.

Lemma response_urls_witness :
  exists r,
    finish demo_config no_date beast_says visited_once = Ok r
    /\ r_read_urls r = [lit "http://a.com/"]
    /\ r_all_urls r = []
    /\ r_visited_urls r = firstn 100 (r_all_urls r).
Proof.
  destruct (finish demo_config no_date beast_says visited_once) as [r|e] eqn:H;
    [|vm_compute in H; discriminate].
  exists r. split; [reflexivity|].
  destruct (@response_urls demo_config no_date beast_says visited_once r H)
    as [H1 [_ [H3 H4]]].
  split; [rewrite H1; reflexivity|]. split; [rewrite H3; reflexivity | exact H4].
Defined.

(** *** The first step *)

(** At step 1 the schema offered to the generator lists [search] alone,
    whatever the configuration and the obligations. *)
Lemma first_step_offers_search_only
  (cfg : Config) (evaluate_question : str -> list EvaluationType)
  (rerank_documents : str -> list str -> result (list (Z * Q)))
  (s s' : Session) (q : str) :
  step s = 0 ->
  prepare_step cfg evaluate_question rerank_documents s = Ok (s', q) ->
  schema_actions (flags s') = [A_search]
  /\ forall a, admitted (flags s') (Answer a) = false.
Proof.
  intros H0 H.
  destruct (prepare_step_shape _ _ _ _ H) as [fresh [H1 [H2 [H3 H4]]]].
  rewrite H4, H0. split; [reflexivity|]. intro a. reflexivity.
Qed.

(** C4, as stated, fails: with direct answers permitted and no
    freshness obligation, the first step offers [search] alone; no
    answer action is among the actions the generator may return. *)
Lemma direct_answer_not_offered_at_step_one :
  exists s q,
    prepare_step demo_config no_needs rerank_one (initial_session demo_config [])
    = Ok (s, q)
    /\ total_step s = 1
    /\ no_direct_answer demo_config = false
    /\ metrics_get q (evaluation_metrics s) = Ok [mkRepeat STRICT 2]
    /\ schema_actions (flags s) = [A_search]
    /\ ~ (exists a, admitted (flags s) (Answer a) = true).
Proof.
  eexists. eexists.
  split; [vm_compute; reflexivity|].
  repeat split; try reflexivity.
  intros [a H]. vm_compute in H. discriminate.
Qed.

(** C4, amended.  If the action handled at total step 1 is an answer with
    non-empty text and no references, and direct answers are permitted,
    the loop marks that answer final, records the question as trivial and
    stops iterating, leaving ledger, visited and bad lists as they were;
    the record then returned has [read_urls] empty when nothing had been
    visited. *)
Theorem trivial_answer_short_circuit
  (cfg : Config)
  (read_url : str -> outcome ReadResponseData)
  (get_last_modified : str -> option str)
  (classify_text : str -> outcome bool)
  (cherry_pick : str -> str -> str -> outcome str)
  (format_date_based_on_type : str -> str)
  (perform_evaluation : nat -> EvaluationType -> result Evaluator.EvalObject)
  (analyze_steps : list DiaryEntry -> result (str * str * str))
  (critique_question : str -> str -> str)
  (critique_answer : str -> str * str * str -> str)
  (now current_question : str) (a : AnswerAction) (s : Session) :
  total_step s = 1 ->
  answer a <> [] ->
  references a = [] ->
  no_direct_answer cfg = false ->
  exists s',
    on_answer cfg read_url get_last_modified classify_text cherry_pick
      format_date_based_on_type perform_evaluation analyze_steps
      critique_question critique_answer now current_question a s
    = Ok (s', Break)
    /\ this_step s' = Answer (mkAnswer (a_think a) (answer a) [] (Some true))
    /\ trivial_question s' = true
    /\ stores s' = stores s
    /\ forall glm beast r,
         visited_urls (stores s) = [] ->
         finish cfg glm beast s' = Ok r -> r_read_urls r = [].
Proof.
  intros Hstep Hans Hrefs Hdirect.
  eexists. split.
  - unfold on_answer. destruct (answer a) as [|c rest] eqn:Ea; [contradiction|].
    unfold answer_branch. rewrite Hrefs. cbn [update_references Py.bind].
    cbn [total_step set_this_step set_flags]. rewrite Hstep, Hdirect.
    reflexivity.
  - split; [reflexivity|]. split; [reflexivity|]. split; [reflexivity|].
    intros glm beast r Hv Hf.
    destruct (finish_lists _ _ _ _ Hf) as [H1 _].
    rewrite H1. cbn [response r_read_urls stores set_trivial set_this_step set_flags].
    rewrite Hv. reflexivity.
Qed.

Lemma trivial_answer_short_circuit_witness :
  total_step first_step = 1
  /\ answer hello <> []
  /\ references hello = []
  /\ no_direct_answer demo_config = false
  /\ exists s',
       on_answer demo_config no_read no_date (fun _ => Done false)
         (fun _ _ _ => Done (lit "x")) (fun d => d)
         (fun _ _ => Raise ExternalError) (fun _ => Raise ExternalError)
         (fun q _ => q) (fun t _ => t) (lit "now") (lit "why") hello first_step
       = Ok (s', Break)
       /\ trivial_question s' = true.
Proof.
  assert (Ha : answer hello <> []) by (vm_compute; discriminate).
  split; [reflexivity|]. split; [exact Ha|]. split; [reflexivity|].
  split; [reflexivity|].
  destruct (@trivial_answer_short_circuit demo_config no_read no_date
              (fun _ => Done false) (fun _ _ _ => Done (lit "x")) (fun d => d)
              (fun _ _ => Raise ExternalError) (fun _ => Raise ExternalError)
              (fun q _ => q) (fun t _ => t) (lit "now") (lit "why") hello first_step
              eq_refl Ha eq_refl eq_refl) as [s' [H1 [_ [H3 _]]]].
  exists s'. split; [exact H1 | exact H3].
Defined.

(** After the short-circuit the beast-mode block still runs: its
    condition holds for every action object. *)
Lemma beast_needed_after_final_answer (a : AnswerAction) :
  beast_needed (Answer a) = Ok true.
Proof. reflexivity. Qed.


End AgentFacts.

(** ** The visit pipeline *)

Module VisitFacts.

Import Normalizer UrlTools Visit.
Import Examples.

Lemma assign_keys_incl (k : str) (v : SearchSnippet) (l : Ledger) :
  incl (keys l) (keys (assign k v l)).
Proof.
  induction l as [|[k' v'] l IH]; simpl.
  - intros x [].
  - destruct (Str.eqb k k') eqn:E; simpl.
    + apply StrFacts.eqb_eq in E. subst. apply incl_refl.
    + intros x [Hx|Hx]; [left; exact Hx | right; apply IH; exact Hx].
Qed.

Lemma add_to_all_urls_keys (r : SearchSnippet) (l l' : Ledger) (d : Q) (n : nat) :
  add_to_all_urls r l d = Ok (l', n) -> incl (keys l) (keys l').
Proof.
  unfold add_to_all_urls.
  destruct (normalize_url (url r)) as [k|].
  - destruct (lookup k l) as [cur|].
    + destruct (weight cur) as [w|]; [|discriminate].
      intro H. inversion H; subst. apply assign_keys_incl.
    + intro H. inversion H; subst. apply assign_keys_incl.
  - intro H. inversion H; subst. apply incl_refl.
Qed.

Lemma add_links_keys (links : list (str * str)) :
  forall l l' e, add_links links l = (l', e) -> incl (keys l) (keys l').
Proof.
  induction links as [|[anchor href] rest IH]; intros l l' e H; simpl in H.
  - inversion H; subst. apply incl_refl.
  - destruct (normalize_url href) as [nn|]; [|eapply IH; exact H].
    destruct (add_to_all_urls _ l _) as [[l1 n]|ex] eqn:Ha.
    + apply add_to_all_urls_keys in Ha.
      eapply incl_tran; [exact Ha | eapply IH; exact H].
    + inversion H; subst. apply incl_refl.
Qed.

Lemma evict_keys (bad : list str) (l : Ledger) (k : str) :
  In k (keys l) -> In k (keys (evict bad l)) \/ In (hostname_of k) bad.
Proof.
  unfold keys, evict. intro H. apply in_map_iff in H.
  destruct H as [[k' v] [E H]]. simpl in E. subst k'.
  destruct (Str.mem (hostname_of k) bad) eqn:Em.
  - right. apply StrFacts.mem_In. exact Em.
  - left. apply in_map_iff. exists (k, v). split; [reflexivity|].
    apply filter_In. split; [exact H|]. simpl. rewrite Em. reflexivity.
Qed.

Lemma evict_nothing (l : Ledger) : evict [] l = l.
Proof.
  unfold evict. induction l as [|kv l IH]; simpl; [reflexivity|].
  f_equal. exact IH.
Qed.

Section Pipeline.

Variable read_url : str -> outcome ReadResponseData.
Variable get_last_modified : str -> option str.
Variable classify_text : str -> outcome bool.
Variable cherry_pick : str -> str -> str -> outcome str.
Variable format_date_based_on_type : str -> str.
Variable question : str.

Let read_and_learn' :=
  read_and_learn read_url get_last_modified classify_text cherry_pick
    format_date_based_on_type question.
Let process_url' :=
  process_url read_url get_last_modified classify_text cherry_pick
    format_date_based_on_type question.
Let process_all' :=
  process_all read_url get_last_modified classify_text cherry_pick
    format_date_based_on_type question.

(** The [try] block adds knowledge and ledger keys; it does not touch
    the visited or bad lists. *)
Lemma read_and_learn_effect (u : str) (s s1 : Stores) (o : outcome ReadResponseData) :
  read_and_learn' u s = (s1, o) ->
  incl (keys (all_urls s)) (keys (all_urls s1))
  /\ visited_urls s1 = visited_urls s
  /\ bad_urls s1 = bad_urls s.
Proof.
  unfold read_and_learn', read_and_learn.
  destruct (read_url u) as [data|e].
  2:{ intro H; inversion H; subst. repeat split. apply incl_refl. }
  destruct (data_url data) as [|c1 r1].
  { intro H; inversion H; subst. repeat split. apply incl_refl. }
  destruct (data_content data) as [|c2 r2] eqn:Ec.
  { intro H; inversion H; subst. repeat split. apply incl_refl. }
  destruct (if spam_detect_length <? List.length (c2 :: r2) then Done true
            else match classify_text (c2 :: r2) with
                 | Done spam => Done (negb spam)
                 | Failed e => Failed e
                 end) as [[|]|e].
  - destruct (cherry_pick question (c2 :: r2) u) as [ans|e].
    + destruct (add_links (data_links data) _) as [l [ex|]] eqn:Hl;
        intro H; inversion H; subst; simpl;
        apply add_links_keys in Hl; simpl in Hl; repeat split; exact Hl.
    + intro H; inversion H; subst. repeat split. apply incl_refl.
  - intro H; inversion H; subst. repeat split. apply incl_refl.
  - intro H; inversion H; subst. repeat split. apply incl_refl.
Qed.

(** One target: the visited list gains the normalized key (or the raw
    string when normalization fails), ledger keys are only added, and the
    list of bad hostnames only grows. *)
Lemma process_url_effect (u : str) (s s1 : Stores) (b b1 : list str)
      (r : option ReadResponseData) :
  process_url' u (s, b) = (s1, b1, r) ->
  incl (keys (all_urls s)) (keys (all_urls s1))
  /\ incl b b1
  /\ visited_urls s1
     = visited_urls s
       ++ match normalize_url u with
          | Some k => [k]
          | None => match u with [] => [] | _ => [u] end
          end.
Proof.
  unfold process_url', process_url.
  destruct (normalize_url u) as [k|].
  - destruct (read_and_learn _ _ _ _ _ _ k s) as [s' o] eqn:Hr.
    apply read_and_learn_effect in Hr. destruct Hr as [Hk [Hv Hb]].
    destruct o as [data|e]; intro H; inversion H; subst; simpl.
    + repeat split; [exact Hk | apply incl_refl | rewrite Hv; reflexivity].
    + repeat split; [exact Hk | | rewrite Hv; reflexivity].
      destruct (is_host_failure e); [|apply incl_refl].
      destruct (hostname_of k); [apply incl_refl|].
      apply incl_appl. apply incl_refl.
  - intro H; inversion H; subst.
    destruct u; simpl; repeat split; try apply incl_refl.
    rewrite app_nil_r. reflexivity.
Qed.

Lemma process_all_cons (u : str) (rest : list str) (st : Stores * list str) :
  process_all read_url get_last_modified classify_text cherry_pick
    format_date_based_on_type question (u :: rest) st
  = let '(s1, b1, r) :=
      process_url read_url get_last_modified classify_text cherry_pick
        format_date_based_on_type question u st in
    let '(s2, b2, rs) :=
      process_all read_url get_last_modified classify_text cherry_pick
        format_date_based_on_type question rest (s1, b1) in
    (s2, b2, match r with Some d => d :: rs | None => rs end).
Proof. reflexivity. Qed.

(** Before the eviction, the visited list stays within the ledger keys
    when it was so before and every target normalizes to a key. *)
Lemma process_all_keeps_visited_known (urls : list str) :
  forall s b s1 b1 rs,
    process_all' urls (s, b) = (s1, b1, rs) ->
    incl (visited_urls s) (keys (all_urls s)) ->
    (forall u, In u urls ->
       exists k, normalize_url u = Some k /\ In k (keys (all_urls s))) ->
    incl (visited_urls s1) (keys (all_urls s1)) /\ incl b b1.
Proof.
  induction urls as [|u rest IH]; intros s b s1 b1 rs H Hv Ht.
  - unfold process_all' in H. simpl in H. inversion H; subst.
    split; [exact Hv | apply incl_refl].
  - unfold process_all' in H. rewrite process_all_cons in H.
    fold process_url' in H.
    destruct (process_url' u (s, b)) as [[s' b'] r] eqn:Hu.
    fold process_all' in H.
    destruct (process_all' rest (s', b')) as [[s2 b2] rs2] eqn:Hrest.
    inversion H; subst.
    apply process_url_effect in Hu. destruct Hu as [Hk [Hb Hvis]].
    destruct (Ht u (or_introl eq_refl)) as [k [Hn Hin]].
    rewrite Hn in Hvis.
    destruct (IH s' b' s1 b1 rs2 Hrest) as [H1 H2].
    + rewrite Hvis. intros x Hx. apply in_app_or in Hx.
      destruct Hx as [Hx|[Hx|[]]].
      * apply Hk. apply Hv. exact Hx.
      * subst. apply Hk. exact Hin.
    + intros u' Hu'. destruct (Ht u' (or_intror Hu')) as [k' [Hn' Hin']].
      exists k'. split; [exact Hn' | apply Hk; exact Hin'].
    + split; [exact H1 | eapply incl_tran; [exact Hb | exact H2]].
Qed.

End Pipeline.

(** C9, amended.  If the visited list is within the ledger keys before
    [process_urls] and every target normalizes to a ledger key, then
    afterwards every visited entry is a ledger key unless its hostname
    was recorded as unresolvable during the call, in which case the keys
    of that hostname are evicted while the entry stays in the visited
    list. *)
Theorem visited_known_unless_evicted
  (read_url : str -> outcome ReadResponseData)
  (get_last_modified : str -> option str)
  (classify_text : str -> outcome bool)
  (cherry_pick : str -> str -> str -> outcome str)
  (format_date_based_on_type : str -> str)
  (question : str) (urls : list str) (s s1 : Stores)
  (bad_hostnames : list str) (rs : list ReadResponseData) :
  process_all read_url get_last_modified classify_text cherry_pick
    format_date_based_on_type question urls (s, []) = (s1, bad_hostnames, rs) ->
  incl (visited_urls s) (keys (all_urls s)) ->
  (forall u, In u urls ->
     exists k, normalize_url u = Some k /\ In k (keys (all_urls s))) ->
  let s' := fst (fst (process_urls read_url get_last_modified classify_text
                        cherry_pick format_date_based_on_type question urls s)) in
  (forall v, In v (visited_urls s') ->
     In v (keys (all_urls s')) \/ In (hostname_of v) bad_hostnames)
  /\ (bad_hostnames = [] -> incl (visited_urls s') (keys (all_urls s'))).
Proof.
  intros H Hv Ht s'.
  assert (Hmain : forall v, In v (visited_urls s') ->
            In v (keys (all_urls s')) \/ In (hostname_of v) bad_hostnames).
  { subst s'. unfold process_urls. destruct urls as [|u rest].
    - simpl. intros v Hin. left. apply Hv. exact Hin.
    - rewrite H. simpl. intros v Hin.
      destruct (process_all_keeps_visited_known _ _ _ _ _ _ _ _ _ H Hv Ht) as [H1 _].
      apply evict_keys. apply H1. exact Hin. }
  split; [exact Hmain|].
  intros E v Hin. destruct (Hmain v Hin) as [Hk|Hb]; [exact Hk|].
  rewrite E in Hb. destruct Hb.
Qed.

(** C9, as stated, fails.  A visit whose fetch cannot resolve the host
    leaves the URL in the visited list and evicts it from the ledger; a
    target that does not normalize is appended to the visited list as
    given, without ever being a ledger key. *)
Lemma visited_outside_ledger :
  (let s' := fst (fst (process_urls dns_down no_date (fun _ => Done false)
                         (fun _ _ _ => Done (lit "x")) (fun d => d) (lit "why")
                         [lit "http://a.com/"] one_page)) in
   visited_urls s' = [lit "http://a.com/"] /\ keys (all_urls s') = []
   /\ ~ incl (visited_urls s') (keys (all_urls s')))
  /\
  (let s' := fst (fst (process_urls dns_down no_date (fun _ => Done false)
                         (fun _ _ _ => Done (lit "x")) (fun d => d) (lit "why")
                         [lit "ftp://a.com/x"] one_page)) in
   visited_urls s' = [lit "ftp://a.com/x"]
   /\ keys (all_urls s') = [lit "http://a.com/"]
   /\ ~ incl (visited_urls s') (keys (all_urls s'))).
Proof.
  split.
  - vm_compute. repeat split. intro H. exact (H _ (or_introl eq_refl)).
  - vm_compute. repeat split. intro H.
    destruct (H _ (or_introl eq_refl)) as [E|[]]. discriminate E.
Qed.

Lemma visited_known_unless_evicted_witness :
  let s' := fst (fst (process_urls page_ok no_date (fun _ => Done false)
                        (fun _ _ _ => Done (lit "x")) (fun d => d) (lit "why")
                        [lit "http://a.com/"] one_page)) in
  incl (visited_urls s') (keys (all_urls s'))
  /\ visited_urls s' = [lit "http://a.com/"]
  /\ keys (all_urls s') = [lit "http://a.com/"; lit "http://a.com/next"].
Proof.
  intro s'.
  destruct (process_all page_ok no_date (fun _ => Done false)
              (fun _ _ _ => Done (lit "x")) (fun d => d) (lit "why")
              [lit "http://a.com/"] (one_page, [])) as [[s1 b] rs] eqn:H.
  assert (Hb : b = []) by (vm_compute in H; inversion H; reflexivity).
  assert (Hv : incl (visited_urls one_page) (keys (all_urls one_page))).
  { intros x []. }
  assert (Ht : forall u, In u [lit "http://a.com/"] ->
                 exists k, normalize_url u = Some k /\ In k (keys (all_urls one_page))).
  { intros u [E|[]]. subst. exists (lit "http://a.com/").
    split; [vm_compute; reflexivity | left; reflexivity]. }
  destruct (@visited_known_unless_evicted page_ok no_date
              (fun _ => Done false) (fun _ _ _ => Done (lit "x")) (fun d => d)
              (lit "why") [lit "http://a.com/"] one_page s1 b rs H Hv Ht) as [_ H2].
  split; [exact (H2 Hb)|]. split; vm_compute; reflexivity.
Defined.

End VisitFacts.

(** ** The normalizer *)

Module NormalizerFacts.

Import Normalizer.
Import Statements PlainUrls Examples.


(** *** Plain URLs: a class of fixed points *)















(** *** The path of a plain URL *)











(** *** Parsing a plain URL *)














End NormalizerFacts.

(** ** utils/url_tools.py: quotas, counts and order *)

Module UrlToolsFacts.

Import UrlTools Shapes.

Lemma count_get_bump_same (k : str) (d : Counter) :
  count_get k (count_bump k d) = S (count_get k d).
Proof.
  induction d as [|[k' n] d IH]; simpl.
  - now rewrite StrFacts.eqb_refl.
  - destruct (Str.eqb k k') eqn:E; simpl; rewrite E; auto.
Qed.

Lemma count_get_bump_other (k k' : str) (d : Counter) :
  k <> k' -> count_get k (count_bump k' d) = count_get k d.
Proof.
  intro Hne.
  assert (Str.eqb k k' = false) by now apply StrFacts.eqb_neq.
  induction d as [|[k2 n] d IH]; simpl.
  - now rewrite H.
  - destruct (Str.eqb k' k2) eqn:E; simpl.
    + apply StrFacts.eqb_eq in E. subst k2. now rewrite H.
    + destruct (Str.eqb k k2); auto.
Qed.

Lemma counter_sum_bump (k : str) (d : Counter) :
  counter_sum (count_bump k d) = S (counter_sum d).
Proof.
  induction d as [|[k' n] d IH]; simpl; auto.
  destruct (Str.eqb k k'); simpl; auto.
  unfold counter_sum in *. simpl. rewrite IH. lia.
Qed.

Lemma count_get_le_sum (k : str) (d : Counter) :
  count_get k d <= counter_sum d.
Proof.
  induction d as [|[k' n] d IH]; simpl; auto.
  unfold counter_sum in *. simpl.
  destruct (Str.eqb k k'); lia.
Qed.

Lemma keep_k_loop_subseq (k : nat) (results : list BoostedSearchSnippet) :
  forall m, Subseq (keep_k_loop k results m) results.
Proof.
  induction results as [|r rest IH]; intro m; simpl.
  - constructor.
  - destruct (count_get _ m <? k); constructor; apply IH.
Qed.

Lemma keep_k_loop_count (k : nat) (h : str) (results : list BoostedSearchSnippet) :
  forall m,
    count_host h (keep_k_loop k results m)
    = Nat.min (k - count_get h m) (count_host h results).
Proof.
  unfold count_host.
  induction results as [|r rest IH]; intro m; simpl.
  - lia.
  - unfold from_host at 2.
    destruct (count_get (hostname_of (url (snippet r))) m <? k) eqn:Hlt.
    + apply Nat.ltb_lt in Hlt. simpl. unfold from_host at 1.
      destruct (Str.eqb (hostname_of (url (snippet r))) h) eqn:E.
      * apply StrFacts.eqb_eq in E. rewrite E in *. simpl.
        rewrite IH, count_get_bump_same. lia.
      * rewrite IH, count_get_bump_other; [reflexivity|].
        apply StrFacts.eqb_neq in E. congruence.
    + apply Nat.ltb_ge in Hlt.
      destruct (Str.eqb (hostname_of (url (snippet r))) h) eqn:E.
      * apply StrFacts.eqb_eq in E. rewrite E in *. simpl.
        rewrite IH. lia.
      * apply IH.
Qed.

(** X1 ([keep_k_per_hostname]): the result is the input with entries
    left out and the order kept, and for every hostname it holds exactly
    [min k n] of the [n] input entries of that hostname. *)
Theorem keep_k_per_hostname_quota (results : list BoostedSearchSnippet) (k : nat) :
  Subseq (keep_k_per_hostname results k) results
  /\ forall h, count_host h (keep_k_per_hostname results k)
               = Nat.min k (count_host h results).
Proof.
  split.
  - apply keep_k_loop_subseq.
  - intro h. unfold keep_k_per_hostname.
    rewrite keep_k_loop_count. simpl. now rewrite Nat.sub_0_r.
Qed.

End UrlToolsFacts.

Module CountFacts.

Import UrlTools Shapes UrlToolsFacts.

Lemma count_fold_totals (url_items : list SearchSnippet) :
  forall c,
    let c' := fold_left count_step url_items c in
    total_urls c' = total_urls c + List.length (filter valid_item url_items)
    /\ counter_sum (hostname_count c') + total_urls c
       = counter_sum (hostname_count c) + total_urls c'.
Proof.
  induction url_items as [|item rest IH]; intro c.
  - simpl. split; lia.
  - assert (Hs : total_urls (count_step c item)
                 = total_urls c + (if valid_item item then 1 else 0)
                 /\ counter_sum (hostname_count (count_step c item))
                    = counter_sum (hostname_count c) + (if valid_item item then 1 else 0)).
    { unfold count_step. destruct (valid_item item).
      - destruct (extract_url_parts (url item)) as [hostname path]. simpl.
        rewrite counter_sum_bump. split; lia.
      - split; lia. }
    destruct Hs as [Ht Hc].
    destruct (IH (count_step c item)) as [H1 H2].
    cbn [fold_left filter]. cbv zeta in H1, H2 |- *.
    destruct (valid_item item); cbn [List.length]; split; lia.
Qed.

Lemma normalize_count_unit (count total : nat) :
  count <= total ->
  (0 <= normalize_count count total)%Q /\ (normalize_count count total <= 1)%Q.
Proof.
  intro Hle. unfold normalize_count.
  destruct (0 <? total) eqn:Hp.
  - apply Nat.ltb_lt in Hp. unfold Qnat, Qdiv, Qmult, Qinv, Qle, inject_Z. simpl.
    destruct (Z.of_nat total) as [|p|p] eqn:Ez; try lia. simpl. split; lia.
  - split; unfold Qle; simpl; lia.
Qed.

(** X2 ([count_url_parts], [normalize_count]): [total_urls] is the
    number of items with a non-empty URL, the hostname counts add up to
    it, and every normalized hostname frequency lies between 0 and 1. *)
Theorem count_url_parts_totals (url_items : list SearchSnippet) :
  let c := count_url_parts url_items in
  total_urls c = List.length (filter valid_item url_items)
  /\ counter_sum (hostname_count c) = total_urls c
  /\ forall h,
       (0 <= normalize_count (count_get h (hostname_count c)) (total_urls c))%Q
       /\ (normalize_count (count_get h (hostname_count c)) (total_urls c) <= 1)%Q.
Proof.
  intro c.
  destruct (count_fold_totals url_items (mkCounts [] [] 0)) as [H1 H2].
  change (fold_left count_step url_items (mkCounts [] [] 0)) with c in H1, H2.
  simpl in H1, H2.
  assert (Hs : counter_sum (hostname_count c) = total_urls c) by (unfold counter_sum in *; simpl in *; lia).
  repeat split; auto.
  - apply normalize_count_unit. rewrite <- Hs. apply count_get_le_sum.
  - apply normalize_count_unit. rewrite <- Hs. apply count_get_le_sum.
Qed.

End CountFacts.

(** ** utils/text_tools.py: merging *)

Module MergeFacts.

Import TextTools.

Lemma startswith_app (p s : str) : Str.startswith p (p ++ s) = true.
Proof.
  induction p as [|c p IH]; simpl; auto.
  now rewrite StrFacts.ceqb_refl.
Qed.

Lemma contains_app (a p b : str) : Str.contains p (a ++ p ++ b) = true.
Proof.
  induction a as [|c a IH].
  - simpl. destruct (p ++ b) eqn:E.
    + destruct p; [reflexivity | discriminate].
    + simpl. rewrite <- E, startswith_app. reflexivity.
  - simpl. rewrite IH. apply orb_true_r.
Qed.

Lemma contains_refl (s : str) : Str.contains s s = true.
Proof.
  pose proof (contains_app [] s []) as H. simpl in H. now rewrite app_nil_r in H.
Qed.

Lemma contains_left (s t : str) : Str.contains s (s ++ t) = true.
Proof. exact (contains_app [] s t). Qed.

Lemma contains_right (s t : str) : Str.contains t (s ++ t) = true.
Proof.
  pose proof (contains_app s t []) as H. now rewrite app_nil_r in H.
Qed.

Lemma best_overlap_spec (bound : nat) (str1 str2 : str) :
  let n := best_overlap bound str1 str2 in
  n <= bound /\ (0 < n -> suffix n str1 = firstn n str2).
Proof.
  induction bound as [|b IH]; cbn [best_overlap].
  - split; [lia | intro; lia].
  - destruct (Str.eqb (suffix (S b) str1) (firstn (S b) str2)) eqn:E.
    + split; [lia|]. intros _. now apply StrFacts.eqb_eq.
    + destruct IH as [H1 H2]. split; [lia | exact H2].
Qed.

(** X3 ([smart_merge_strings]): both arguments occur as contiguous
    blocks of the merged string, and the merged string is never longer
    than the two together. *)
Theorem smart_merge_keeps_both (str1 str2 : str) :
  Str.contains str1 (smart_merge_strings str1 str2) = true
  /\ Str.contains str2 (smart_merge_strings str1 str2) = true
  /\ List.length (smart_merge_strings str1 str2)
     <= List.length str1 + List.length str2.
Proof.
  unfold smart_merge_strings.
  destruct str1 as [|a s1].
  { split; [|split]; [destruct str2; reflexivity | apply contains_refl | simpl; lia]. }
  destruct str2 as [|b s2].
  { split; [|split]; [apply contains_refl | reflexivity | simpl; lia]. }
  set (x := a :: s1). set (y := b :: s2).
  destruct (Str.contains x y) eqn:Exy.
  { split; [|split]; [exact Exy | apply contains_refl | lia]. }
  destruct (Str.contains y x) eqn:Eyx.
  { split; [|split]; [apply contains_refl | exact Eyx | lia]. }
  cbv zeta.
  pose proof (best_overlap_spec (Nat.min (List.length x) (List.length y)) x y) as [Hle Hov].
  set (n := best_overlap (Nat.min (List.length x) (List.length y)) x y) in *.
  destruct (0 <? n) eqn:Hn.
  - apply Nat.ltb_lt in Hn. specialize (Hov Hn). unfold suffix in Hov.
    assert (Hx : x = firstn (List.length x - n) x ++ firstn n y).
    { rewrite <- Hov. symmetry. apply firstn_skipn. }
    assert (Hy : firstn (List.length x - n) x ++ y = x ++ skipn n y).
    { rewrite Hx at 3. rewrite <- app_assoc. now rewrite (firstn_skipn n y). }
    split; [|split].
    + rewrite Hy. apply contains_left.
    + apply contains_right.
    + rewrite length_app, length_firstn. lia.
  - split; [|split].
    + apply contains_left.
    + apply contains_right.
    + rewrite length_app. lia.
Qed.

End MergeFacts.

Module SortFacts.

Import Py UrlTools.

Lemma insert_by_score_sorted (x : BoostedSearchSnippet) (l : list BoostedSearchSnippet) :
  StronglySorted (fun a b => (final_score b <= final_score a)%Q) l ->
  StronglySorted (fun a b => (final_score b <= final_score a)%Q) (insert_by_score x l).
Proof.
  induction l as [|y l IH]; intro Hs; simpl.
  - constructor; constructor.
  - destruct (Qle_bool (final_score y) (final_score x)) eqn:E.
    + apply Qle_bool_iff in E. constructor; [exact Hs|].
      constructor; [exact E|].
      inversion Hs as [|? ? _ Hall]; subst.
      eapply Forall_impl; [|exact Hall]. intros z Hz. simpl in Hz.
      eapply Qle_trans; eassumption.
    + inversion Hs as [|? ? Hs' Hall]; subst.
      constructor; [now apply IH|].
      apply Forall_forall. intros z Hz.
      apply RankFacts.insert_by_score_In in Hz. destruct Hz as [-> | Hz].
      * destruct (Qlt_le_dec (final_score y) (final_score x)) as [Hlt | Hle]; [|exact Hle].
        apply Qlt_le_weak in Hlt. apply Qle_bool_iff in Hlt. congruence.
      * rewrite Forall_forall in Hall. now apply Hall.
Qed.

Lemma sort_by_score_sorted (l : list BoostedSearchSnippet) :
  StronglySorted (fun a b => (final_score b <= final_score a)%Q) (sort_by_score l).
Proof.
  induction l as [|x l IH]; simpl.
  - constructor.
  - now apply insert_by_score_sorted.
Qed.

(** X4 ([rank_urls]): the ranked list comes out in descending order of
    [final_score]: no entry is followed, anywhere later in the list, by
    an entry with a higher score. *)
Theorem rank_urls_descending
  (rerank_documents : str -> list str -> result (list (Z * Q)))
  (url_items : list SearchSnippet) (o : RankOptions)
  (rs : list BoostedSearchSnippet) :
  rank_urls rerank_documents url_items o = Ok rs ->
  StronglySorted (fun a b => (final_score b <= final_score a)%Q) rs.
Proof.
  unfold rank_urls. cbv zeta.
  destruct (rank_loop o (count_url_parts url_items)
              (rerank_boosts rerank_documents o url_items) 0 url_items) as [l|e];
    cbn [Py.bind]; intro H; [|discriminate].
  injection H as <-. apply sort_by_score_sorted.
Qed.

Lemma rank_urls_descending_witness :
  exists r1 r2,
    rank_urls Examples.rerank_one
      [Examples.page "http://a.com/" 1%Q; Examples.page "http://b.com/" 3%Q]
      (default_options (lit "why") [])
    = Ok [r1; r2]
    /\ url (snippet r1) = lit "http://b.com/"
    /\ StronglySorted (fun a b => (final_score b <= final_score a)%Q) [r1; r2].
Proof.
  destruct (rank_urls Examples.rerank_one
              [Examples.page "http://a.com/" 1%Q; Examples.page "http://b.com/" 3%Q]
              (default_options (lit "why") [])) as [rs|e] eqn:E;
    [|vm_compute in E; discriminate].
  pose proof (rank_urls_descending _ _ _ E) as Hs.
  vm_compute in E. injection E as <-.
  eexists. eexists. split; [reflexivity|]. split; [reflexivity|]. exact Hs.
Defined.

End SortFacts.

(** ** utils/url_tools.py: the ledger *)

Module LedgerFacts.

Import Normalizer UrlTools Visit.

Lemma lookup_assign_same (k : str) (v : SearchSnippet) (l : Ledger) :
  lookup k (assign k v l) = Some v.
Proof.
  induction l as [|[k' v'] l IH]; simpl.
  - now rewrite StrFacts.eqb_refl.
  - destruct (Str.eqb k k') eqn:E; simpl.
    + now rewrite StrFacts.eqb_refl.
    + now rewrite E.
Qed.

Lemma lookup_assign_other (k k' : str) (v : SearchSnippet) (l : Ledger) :
  k <> k' -> lookup k (assign k' v l) = lookup k l.
Proof.
  intro Hne. assert (Hf : Str.eqb k k' = false) by now apply StrFacts.eqb_neq.
  induction l as [|[k2 v2] l IH]; simpl.
  - now rewrite Hf.
  - destruct (Str.eqb k' k2) eqn:E; simpl.
    + apply StrFacts.eqb_eq in E. subst k2. now rewrite Hf.
    + destruct (Str.eqb k k2); auto.
Qed.

Lemma keys_assign_known (k : str) (v v0 : SearchSnippet) (l : Ledger) :
  lookup k l = Some v0 -> keys (assign k v l) = keys l.
Proof.
  induction l as [|[k' v'] l IH]; simpl; [discriminate|].
  destruct (Str.eqb k k') eqn:E; simpl.
  - apply StrFacts.eqb_eq in E. now subst.
  - intro H. unfold keys in *. now rewrite IH.
Qed.

Lemma keys_assign_new (k : str) (v : SearchSnippet) (l : Ledger) :
  lookup k l = None -> keys (assign k v l) = keys l ++ [k].
Proof.
  induction l as [|[k' v'] l IH]; simpl; auto.
  destruct (Str.eqb k k') eqn:E; simpl; [discriminate|].
  intro H. unfold keys in *. now rewrite IH.
Qed.

(** X5 ([add_to_all_urls]): a snippet whose URL does not normalize
    leaves the ledger alone and counts 0.  Otherwise the entry is stored
    under the normalized URL: a new key is appended with the given
    weight and counts 1; a known key keeps its place and its title, has
    the weight added to its own and counts 0.  No other key is
    touched. *)
Theorem add_to_all_urls_entry (r : SearchSnippet) (l l' : Ledger) (d : Q) (n : nat) :
  add_to_all_urls r l d = Ok (l', n) ->
  match normalize_url (url r) with
  | None => l' = l /\ n = 0
  | Some u =>
      (forall k, k <> u -> lookup k l' = lookup k l)
      /\ match lookup u l with
         | None =>
             n = 1 /\ keys l' = keys l ++ [u]
             /\ lookup u l' = Some (set_weight (Some d) r)
         | Some cur =>
             n = 0 /\ keys l' = keys l
             /\ exists v w, lookup u l' = Some v /\ weight cur = Some w
                            /\ weight v = Some (w + d)%Q /\ title v = title cur
         end
  end.
Proof.
  unfold add_to_all_urls.
  destruct (normalize_url (url r)) as [u|].
  2:{ intro H. injection H as <- <-. auto. }
  destruct (lookup u l) as [cur|] eqn:El.
  - destruct (weight cur) as [w|] eqn:Ew; [|discriminate].
    intro H. injection H as <- <-. split.
    + intros k Hk. now apply lookup_assign_other.
    + split; [reflexivity|]. split; [now apply keys_assign_known with cur|].
      eexists. exists w. rewrite lookup_assign_same. repeat split.
  - intro H. injection H as <- <-. split.
    + intros k Hk. now apply lookup_assign_other.
    + split; [reflexivity|]. split; [now apply keys_assign_new|].
      apply lookup_assign_same.
Qed.

Lemma add_to_all_urls_entry_witness :
  add_to_all_urls (Examples.page "http://a.com/" 1%Q) [] 1%Q
  = Ok ([(lit "http://a.com/", Examples.page "http://a.com/" 1%Q)], 1)
  /\ (forall k, k <> lit "http://a.com/" ->
        lookup k [(lit "http://a.com/", Examples.page "http://a.com/" 1%Q)] = lookup k []).
Proof.
  split; [vm_compute; reflexivity|].
  pose proof (@add_to_all_urls_entry (Examples.page "http://a.com/" 1%Q) []
                [(lit "http://a.com/", Examples.page "http://a.com/" 1%Q)] 1%Q 1
                ltac:(vm_compute; reflexivity)) as H.
  vm_compute normalize_url in H. exact (proj1 H).
Defined.

End LedgerFacts.

(** ** agent.py: the head of the loop *)

Module LoopFacts.

Import Normalizer UrlTools Visit Agent.
Import Examples.

(** X6 ([get_response], the flag block before the prompt): whatever the
    flags, the short-list, the gaps and the obligations are, the first
    four steps offer exactly one action each: search, visit, answer,
    reflect. *)
Theorem opening_steps_are_scripted
  (cfg : Config) (evaluate_question : str -> list EvaluationType)
  (rerank_documents : str -> list str -> result (list (Z * Q)))
  (s s' : Session) (q : str) :
  prepare_step cfg evaluate_question rerank_documents s = Ok (s', q) ->
  step s < 4 ->
  schema_actions (flags s')
  = [nth (step s) [A_search; A_visit; A_answer; A_reflect] A_search].
Proof.
  intros H Hlt.
  destruct (AgentFacts.prepare_step_shape _ _ _ _ H) as [fresh [Hs [_ [_ Hf]]]].
  rewrite Hf. unfold gate.
  destruct (step s) as [|[|[|[|n]]]]; try lia; reflexivity.
Qed.

Lemma opening_steps_are_scripted_witness :
  exists s' q,
    prepare_step demo_config no_needs rerank_one visited_once = Ok (s', q)
    /\ step visited_once < 4
    /\ schema_actions (flags s') = [A_answer].
Proof.
  destruct (prepare_step demo_config no_needs rerank_one visited_once) as [[s' q]|e] eqn:E;
    [|vm_compute in E; discriminate].
  exists s', q. split; [reflexivity|]. split; [vm_compute; lia|].
  exact (opening_steps_are_scripted _ _ _ _ E ltac:(vm_compute; lia)).
Defined.

Lemma index_of_nat (A : Type) (xs : list A) (i : nat) (x : A) :
  nth_error xs i = Some x -> Py.index xs (Z.of_nat i) = Ok x.
Proof.
  intro H.
  assert (Hlt : i < List.length xs) by (apply nth_error_Some; congruence).
  unfold Py.index. cbv zeta.
  destruct (Z.of_nat i <? 0)%Z eqn:Hn; [apply Z.ltb_lt in Hn; lia|].
  rewrite Hn. simpl.
  destruct (Z.of_nat (List.length xs) <=? Z.of_nat i)%Z eqn:Hc;
    [apply Z.leb_le in Hc; lia|].
  now rewrite Nat2Z.id, H.
Qed.

(** X7 ([get_response], [gaps[total_step % len(gaps)]]): with at least
    one open question the round-robin pick succeeds and yields one of
    the open questions; with none it raises [ZeroDivisionError]. *)
Theorem pick_question_round_robin (total_step : nat) (gaps : list str) :
  match gaps with
  | [] => pick_question total_step gaps = Raise ZeroDivisionError
  | _ => exists q, pick_question total_step gaps = Ok q /\ In q gaps
         /\ nth_error gaps (total_step mod List.length gaps) = Some q
  end.
Proof.
  destruct gaps as [|g gs]; [reflexivity|].
  unfold pick_question.
  set (l := g :: gs).
  assert (Hlt : total_step mod List.length l < List.length l)
    by (apply Nat.mod_upper_bound; discriminate).
  destruct (nth_error l (total_step mod List.length l)) as [q|] eqn:E.
  2:{ apply nth_error_None in E. lia. }
  exists q. split; [|split; [eapply nth_error_In; eauto | reflexivity]].
  now apply index_of_nat.
Qed.

End LoopFacts.

(** ** agent.py: references *)

Module ReferenceFacts.

Import Normalizer UrlTools Visit Agent.
Import Examples QuoteText.


Lemma space_is_space : Str.is_space " "%char = true.
Proof. reflexivity. Qed.













(** X10 ([update_references], unknown URL): a reference whose normalized
    URL is not a key of the ledger raises [KeyError] as soon as its
    quote or its date is empty, because the ledger entry is then read
    without a membership test. *)
Theorem update_references_unknown_url
  (get_last_modified : str -> option str)
  (ref : Reference) (rest : list Reference) (all_urls : Ledger) (u : str) :
  ref_url ref <> [] ->
  normalize_url (ref_url ref) = Some u ->
  lookup u all_urls = None ->
  (exact_quote ref = [] \/ date_time ref = None \/ date_time ref = Some []) ->
  update_references get_last_modified (ref :: rest) all_urls = Raise KeyError.
Proof.
  intros Hu Hn Hl Hq.
  unfold update_references. cbn [rebuild_all]. unfold rebuild_reference.
  destruct (ref_url ref) as [|c s] eqn:Eu; [congruence|].
  rewrite Hn. unfold ledger_get. rewrite Hl.
  destruct (exact_quote ref) as [|a q] eqn:Eq.
  - reflexivity.
  - cbn [or_str Py.bind].
    destruct Hq as [Hq | [Hq | Hq]]; [discriminate | |]; rewrite Hq; reflexivity.
Qed.

Lemma update_references_unknown_url_witness :
  ref_url (mkRef [] (lit "http://b.com/") None None) <> []
  /\ normalize_url (lit "http://b.com/") = Some (lit "http://b.com/")
  /\ lookup (lit "http://b.com/") [(lit "http://a.com/", the_page)] = None
  /\ update_references no_date [mkRef [] (lit "http://b.com/") None None]
       [(lit "http://a.com/", the_page)]
     = Raise KeyError.
Proof.
  split; [discriminate|]. split; [vm_compute; reflexivity|].
  split; [vm_compute; reflexivity|].
  apply (@update_references_unknown_url no_date (mkRef [] (lit "http://b.com/") None None)
           [] [(lit "http://a.com/", the_page)] (lit "http://b.com/")).
  - discriminate.
  - vm_compute; reflexivity.
  - vm_compute; reflexivity.
  - now left.
Defined.

End ReferenceFacts.

(** ** utils/url_tools.py: the visit pipeline *)

Module PipelineFacts.

Import Normalizer UrlTools Visit.
Import Examples VisitShapes.

Section Pipeline.

Variable read_url : str -> outcome ReadResponseData.
Variable get_last_modified : str -> option str.
Variable classify_text : str -> outcome bool.
Variable cherry_pick : str -> str -> str -> outcome str.
Variable format_date_based_on_type : str -> str.
Variable question : str.

Let read_and_learn' :=
  read_and_learn read_url get_last_modified classify_text cherry_pick
    format_date_based_on_type question.
Let process_url' :=
  process_url read_url get_last_modified classify_text cherry_pick
    format_date_based_on_type question.
Let process_all' :=
  process_all read_url get_last_modified classify_text cherry_pick
    format_date_based_on_type question.
Let process_urls' :=
  process_urls read_url get_last_modified classify_text cherry_pick
    format_date_based_on_type question.

(** The [try] block appends at most one knowledge item, and exactly one
    when it hands the page back. *)
Lemma read_and_learn_knowledge (u : str) (s s1 : Stores) (o : outcome ReadResponseData) :
  read_and_learn' u s = (s1, o) ->
  exists ks, all_knowledge s1 = all_knowledge s ++ ks
             /\ List.length ks <= 1
             /\ (forall d, o = Done d -> List.length ks = 1).
Proof.
  unfold read_and_learn', read_and_learn.
  assert (Hnone : forall e, (s, @Failed ReadResponseData e) = (s1, o) ->
            exists ks, all_knowledge s1 = all_knowledge s ++ ks
                       /\ List.length ks <= 1
                       /\ (forall d, o = Done d -> List.length ks = 1)).
  { intros e H. inversion H; subst. exists []. rewrite app_nil_r.
    split; [reflexivity|]. split; [simpl; lia | discriminate]. }
  destruct (read_url u) as [data|e]; [|apply Hnone].
  destruct (data_url data) as [|c1 r1]; [apply Hnone|].
  destruct (data_content data) as [|c2 r2] eqn:Ec; [apply Hnone|].
  destruct (if spam_detect_length <? List.length (c2 :: r2) then Done true
            else match classify_text (c2 :: r2) with
                 | Done spam => Done (negb spam)
                 | Failed e => Failed e
                 end) as [[|]|e]; [|apply Hnone|apply Hnone].
  destruct (cherry_pick question (c2 :: r2) u) as [ans|e]; [|apply Hnone].
  destruct (add_links (data_links data) _) as [l [ex|]] eqn:Hl;
    intro H; inversion H; subst; simpl; eexists; split; try reflexivity;
    split; simpl; auto.
Qed.

Lemma process_url_lists (u : str) (s s1 : Stores) (b b1 : list str)
      (r : option ReadResponseData) :
  process_url' u (s, b) = (s1, b1, r) ->
  visited_urls s1 = visited_urls s ++ recorded u
  /\ (exists bs, bad_urls s1 = bad_urls s ++ bs /\ incl bs (recorded u))
  /\ (exists ks, all_knowledge s1 = all_knowledge s ++ ks
                 /\ List.length ks <= 1
                 /\ (r <> None -> List.length ks = 1)).
Proof.
  unfold process_url', process_url, recorded.
  destruct (normalize_url u) as [nu|].
  - destruct (read_and_learn read_url get_last_modified classify_text cherry_pick
                format_date_based_on_type question nu s) as [s2 o] eqn:E.
    pose proof (VisitFacts.read_and_learn_effect _ _ _ _ _ _ _ _ E) as [_ [Hv Hb]].
    destruct (read_and_learn_knowledge nu s E) as [ks [Hk [Hl Hd]]].
    destruct o as [data|e]; intro H; inversion H; subst; simpl.
    + rewrite Hv, Hb. split; [reflexivity|]. split.
      * exists []. rewrite app_nil_r. split; [reflexivity | intros x []].
      * exists ks. split; [exact Hk|]. split; [exact Hl|]. intros _. eapply Hd; reflexivity.
    + rewrite Hv, Hb. split; [reflexivity|]. split.
      * exists [nu]. split; [reflexivity | apply incl_refl].
      * exists ks. split; [exact Hk|]. split; [exact Hl|]. congruence.
  - intro H; inversion H; subst.
    assert (Hs : visited_urls (match u with [] => s | _ :: _ => visit u s end)
                 = visited_urls s ++ match u with [] => [] | _ :: _ => [u] end
                 /\ bad_urls (match u with [] => s | _ :: _ => visit u s end) = bad_urls s
                 /\ all_knowledge (match u with [] => s | _ :: _ => visit u s end)
                    = all_knowledge s).
    { destruct u; simpl; [rewrite app_nil_r|]; auto. }
    destruct Hs as [H1 [H2 H3]]. rewrite H1, H2, H3. split; [reflexivity|]. split.
    + exists []. rewrite app_nil_r. split; [reflexivity | intros x []].
    + exists []. rewrite app_nil_r. split; [reflexivity|]. split; [simpl; lia | congruence].
Qed.

Lemma process_all_lists (urls : list str) :
  forall s b s1 b1 rs,
    process_all' urls (s, b) = (s1, b1, rs) ->
    visited_urls s1 = visited_urls s ++ flat_map recorded urls
    /\ (exists bs, bad_urls s1 = bad_urls s ++ bs /\ incl bs (flat_map recorded urls))
    /\ (exists ks, all_knowledge s1 = all_knowledge s ++ ks
                   /\ List.length rs <= List.length ks <= List.length urls).
Proof.
  unfold process_all'.
  induction urls as [|u rest IH]; intros s b s1 b1 rs H.
  - simpl in H. inversion H; subst. simpl. rewrite !app_nil_r.
    split; [reflexivity|]. split.
    + exists []. rewrite app_nil_r. split; [reflexivity | intros x []].
    + exists []. rewrite app_nil_r. split; [reflexivity | simpl; lia].
  - rewrite VisitFacts.process_all_cons in H.
    destruct (process_url read_url get_last_modified classify_text cherry_pick
                format_date_based_on_type question u (s, b)) as [[s2 b2] r] eqn:E1.
    destruct (process_all read_url get_last_modified classify_text cherry_pick
                format_date_based_on_type question rest (s2, b2)) as [[s3 b3] rs3] eqn:E2.
    inversion H; subst.
    destruct (process_url_lists u s b E1) as [Hv [[bs [Hb Hbi]] [ks [Hk [Hkl Hkr]]]]].
    destruct (IH _ _ _ _ _ E2) as [Hv' [[bs' [Hb' Hbi']] [ks' [Hk' Hkl']]]].
    cbn [flat_map]. split; [|split].
    + rewrite Hv', Hv. now rewrite app_assoc.
    + exists (bs ++ bs'). split; [rewrite Hb', Hb; now rewrite app_assoc|].
      apply incl_app; [now apply incl_appl | now apply incl_appr].
    + exists (ks ++ ks'). split; [rewrite Hk', Hk; now rewrite app_assoc|].
      rewrite length_app. destruct r as [d|]; cbn [List.length].
      * assert (List.length ks = 1) by (apply Hkr; discriminate). lia.
      * lia.
Qed.

(** X11 ([process_urls], [process_url]): every target is recorded as
    visited, whether reading it succeeded or not: the visited list grows
    by the normalized form of each target (the target itself when it
    does not normalize, nothing when it is empty), in the order of the
    targets. *)
Theorem process_urls_records_targets (urls : list str) (s : Stores) :
  visited_urls (fst (fst (process_urls' urls s)))
  = visited_urls s ++ flat_map recorded urls.
Proof.
  unfold process_urls', process_urls.
  destruct urls as [|u rest]; [simpl; now rewrite app_nil_r|].
  destruct (process_all read_url get_last_modified classify_text cherry_pick
              format_date_based_on_type question (u :: rest) (s, [])) as [[s1 b1] rs] eqn:E.
  destruct (process_all_lists _ _ _ E) as [Hv _]. simpl. exact Hv.
Qed.

(** X12 ([process_urls], [process_url]): the bad-URL list only grows,
    and only by targets of this call, each of which is recorded as
    visited as well; so a bad-URL list that was within the visited list
    stays within it. *)
Theorem process_urls_bad_are_visited (urls : list str) (s : Stores) :
  let s' := fst (fst (process_urls' urls s)) in
  (exists bs, bad_urls s' = bad_urls s ++ bs /\ incl bs (flat_map recorded urls))
  /\ (incl (bad_urls s) (visited_urls s) -> incl (bad_urls s') (visited_urls s')).
Proof.
  cbv zeta.
  assert (H : exists bs, bad_urls (fst (fst (process_urls' urls s))) = bad_urls s ++ bs
                         /\ incl bs (flat_map recorded urls)).
  { unfold process_urls', process_urls.
    destruct urls as [|u rest].
    - exists []. simpl. rewrite app_nil_r. split; [reflexivity | intros x []].
    - destruct (process_all read_url get_last_modified classify_text cherry_pick
                  format_date_based_on_type question (u :: rest) (s, []))
        as [[s1 b1] rs] eqn:E.
      destruct (process_all_lists _ _ _ E) as [_ [Hb _]]. simpl. exact Hb. }
  split; [exact H|].
  destruct H as [bs [Hb Hi]]. intro Hincl.
  rewrite Hb, process_urls_records_targets.
  apply incl_app; [now apply incl_appl | now apply incl_appr].
Qed.

(** X13 ([process_urls], [process_url]): the knowledge list only grows,
    by at least one item per page handed back and at most one per
    target; [success] says whether a page was handed back, and is
    [False] for an empty target list, which changes nothing. *)
Theorem process_urls_learns (urls : list str) (s : Stores) :
  let '(s', url_results, success) := process_urls' urls s in
  (exists ks, all_knowledge s' = all_knowledge s ++ ks
              /\ List.length url_results <= List.length ks <= List.length urls)
  /\ success = negb (Nat.eqb (List.length url_results) 0)
  /\ (urls = [] -> s' = s /\ success = false).
Proof.
  unfold process_urls', process_urls.
  destruct urls as [|u rest].
  - split; [|split]; [|reflexivity|auto].
    exists []. rewrite app_nil_r. split; [reflexivity | simpl; lia].
  - destruct (process_all read_url get_last_modified classify_text cherry_pick
                format_date_based_on_type question (u :: rest) (s, []))
      as [[s1 b1] rs] eqn:E.
    destruct (process_all_lists _ _ _ E) as [_ [_ Hk]].
    split; [exact Hk|]. split; [destruct rs; reflexivity | discriminate].
Qed.

End Pipeline.

End PipelineFacts.

(** ** tools/evaluator.py: the verdict *)

Module VerdictFacts.

Import Evaluator.
Import Examples MoreExamples.

Section Verdict.

Variable perform_evaluation : nat -> EvaluationType -> result EvalObject.



End Verdict.


End VerdictFacts.

(** ** tools/jina_dedup.py: the value handed back *)

Module DedupShape.

Import Dedup Shapes.

Lemma subseq_refl (A : Type) (l : list A) : Subseq l l.
Proof. induction l; constructor; auto. Qed.

Lemma subseq_nil_l (A : Type) (l : list A) : Subseq [] l.
Proof. induction l; constructor; auto. Qed.

Section Shape.

Variable Emb : Type.
Variable get_embeddings : list str -> result (list Emb * Z).
Variable cosine_similarity : Emb -> Emb -> result Q.

Lemma dedup_loop_subseq (new_queries : list str) :
  forall i ne ee n acc used out,
    dedup_loop cosine_similarity new_queries i ne ee n acc used = Ok out ->
    exists kept, out = acc ++ kept /\ Subseq kept new_queries.
Proof.
  induction new_queries as [|q rest IH]; intros i ne ee n acc used out H;
    cbn [dedup_loop] in H.
  - injection H as <-. exists []. rewrite app_nil_r. split; [reflexivity | constructor].
  - destruct (similar_to_any cosine_similarity (Py.index ne (Z.of_nat i)) _) as [dup_old|e];
      cbn [Py.bind] in H; [|discriminate].
    destruct (if dup_old then Ok true else _) as [dup_new|e]; cbn [Py.bind] in H;
      [|discriminate].
    destruct dup_new.
    + destruct (IH _ _ _ _ _ _ _ H) as [kept [-> Hs]].
      exists kept. split; [reflexivity | now constructor].
    + destruct (IH _ _ _ _ _ _ _ H) as [kept [-> Hs]].
      exists (q :: kept). split; [now rewrite <- app_assoc | now constructor].
Qed.

(** X15 ([dedup_queries]): whatever the embedding service answers,
    a value returned by [dedup_queries] holds new queries only: its list
    is the list of new queries with some left out, in the same order. *)
Theorem dedup_queries_subsequence (new_queries existing_queries : list str) (v : DedupValue) :
  dedup_queries get_embeddings cosine_similarity new_queries existing_queries = Ok v ->
  Subseq (match v with UniqueDict qs => qs | BareList qs => qs end) new_queries.
Proof.
  unfold dedup_queries.
  assert (Hmain : match dedup_try get_embeddings cosine_similarity new_queries existing_queries with
                  | Ok v0 => Ok v0
                  | Raise _ => Ok (BareList new_queries)
                  end = Ok v ->
                  Subseq (match v with UniqueDict qs => qs | BareList qs => qs end) new_queries).
  { unfold dedup_try.
    destruct (get_embeddings (new_queries ++ existing_queries)) as [[embs tok]|e];
      cbn [Py.bind fst].
    2:{ intro H. injection H as <-. apply subseq_refl. }
    destruct embs as [|e0 embs].
    { intro H. injection H as <-. apply subseq_refl. }
    destruct (dedup_loop cosine_similarity new_queries 0 _ _ _ [] []) as [u|e] eqn:E;
      cbn [Py.bind]; intro H; injection H as <-.
    - destruct (@dedup_loop_subseq _ _ _ _ _ _ _ _ E) as [kept [-> Hs]]. exact Hs.
    - apply subseq_refl. }
  destruct new_queries as [|q [|q2 rest]]; [exact Hmain | | exact Hmain].
  destruct existing_queries; [discriminate | exact Hmain].
Qed.

End Shape.

Lemma dedup_queries_subsequence_witness :
  exists v,
    dedup_queries (fun qs => Ok (map (fun _ => tt) qs, 0%Z))
      (fun _ _ => Ok 1%Q) [lit "alpha"; lit "beta"] [] = Ok v
    /\ v = UniqueDict [lit "alpha"]
    /\ Subseq [lit "alpha"] [lit "alpha"; lit "beta"].
Proof.
  eexists. split; [vm_compute; reflexivity|]. split; [reflexivity|].
  exact (@dedup_queries_subsequence unit (fun qs => Ok (map (fun _ => tt) qs, 0%Z))
           (fun _ _ => Ok 1%Q) [lit "alpha"; lit "beta"] [] (UniqueDict [lit "alpha"])
           ltac:(vm_compute; reflexivity)).
Defined.

End DedupShape.

(** ** utils/token_tracker.py: totals *)

Module TokenFacts.

Import TokenTracker TokenShapes.

Lemma total_loop_complete (usages : Tracker) :
  forallb (fun item => complete (snd item)) usages = true ->
  forall r,
    total_loop usages r
    = Ok (mkTotals
            (sum_prompt r + fold_right (fun item a => (value (prompt_tokens (snd item)) + a)%Z) 0%Z usages)
            (sum_completion r + fold_right (fun item a => (value (completion_tokens (snd item)) + a)%Z) 0%Z usages)
            (sum_total r + fold_right (fun item a => (value (total_tokens (snd item)) + a)%Z) 0%Z usages)).
Proof.
  induction usages as [|[tool u] rest IH]; intros Hc r.
  - simpl. destruct r; simpl. now rewrite !Z.add_0_r.
  - cbn [forallb snd] in Hc. apply andb_true_iff in Hc. destruct Hc as [Hu Hrest].
    cbn [total_loop]. unfold complete in Hu.
    destruct (prompt_tokens u) as [| |p] eqn:Ep; try discriminate.
    destruct (completion_tokens u) as [| |c] eqn:Ec; try discriminate.
    destruct (total_tokens u) as [| |t] eqn:Et; try discriminate.
    cbn [add_get Py.bind]. rewrite (IH Hrest). cbn [fold_right snd sum_prompt sum_completion sum_total].
    rewrite Ep, Ec, Et. cbn [value]. f_equal. f_equal; lia.
Qed.

Lemma total_loop_incomplete (usages : Tracker) :
  forallb (fun item => complete (snd item)) usages = false ->
  forall r, total_loop usages r = Raise TypeError.
Proof.
  induction usages as [|[tool u] rest IH]; intros Hc r; [discriminate|].
  cbn [forallb snd] in Hc. cbn [total_loop].
  unfold complete in Hc.
  destruct (prompt_tokens u) as [| |p]; try reflexivity.
  destruct (completion_tokens u) as [| |c]; try reflexivity.
  destruct (total_tokens u) as [| |t]; try reflexivity.
  cbn [add_get Py.bind]. apply IH. exact Hc.
Qed.

(** X16 ([TokenTracker.get_total_usage]): the totals exist exactly when
    every recorded usage dict holds an integer under each of the three
    keys; a dict with a key missing (or holding [None]) makes the call
    raise [TypeError], however many complete dicts surround it. *)
Theorem get_total_usage_needs_all_keys (t : Tracker) :
  if forallb (fun item => complete (snd item)) t
  then exists r, get_total_usage t = Ok r
  else get_total_usage t = Raise TypeError.
Proof.
  unfold get_total_usage.
  destruct (forallb (fun item => complete (snd item)) t) eqn:E.
  - eexists. now apply total_loop_complete.
  - now apply total_loop_incomplete.
Qed.

(** X17 ([TokenTracker.track_usage], [get_total_usage], [reset]):
    recording a complete usage dict raises each of the three totals by
    the dict's value for it, and after [reset] the totals are zero. *)
Theorem track_usage_adds (t : Tracker) (tool : str) (p c n : Z) (r : Totals) :
  get_total_usage t = Ok r ->
  get_total_usage (track_usage tool (mkUsage (Int p) (Int c) (Int n)) t)
  = Ok (mkTotals (sum_prompt r + p) (sum_completion r + c) (sum_total r + n))
  /\ get_total_usage (reset (track_usage tool (mkUsage (Int p) (Int c) (Int n)) t))
     = Ok (mkTotals 0 0 0).
Proof.
  intro H. split; [|reflexivity].
  pose proof (get_total_usage_needs_all_keys t) as Hk.
  destruct (forallb (fun item => complete (snd item)) t) eqn:E;
    [|rewrite Hk in H; discriminate].
  unfold get_total_usage in *. rewrite total_loop_complete in H by exact E.
  injection H as <-. unfold track_usage.
  rewrite total_loop_complete.
  2:{ rewrite forallb_app, E. reflexivity. }
  cbn [sum_prompt sum_completion sum_total].
  rewrite !fold_right_app. cbn [fold_right snd prompt_tokens completion_tokens total_tokens value].
  f_equal.
  assert (Hs : forall (f : str * Usage -> Z) (l : Tracker) (k : Z),
             fold_right (fun item a => (f item + a)%Z) k l
             = (fold_right (fun item a => (f item + a)%Z) 0%Z l + k)%Z).
  { induction l as [|x l IH]; intro k; simpl; [lia | rewrite IH; lia]. }
  rewrite (Hs (fun item => value (prompt_tokens (snd item)))),
          (Hs (fun item => value (completion_tokens (snd item)))),
          (Hs (fun item => value (total_tokens (snd item)))).
  f_equal; lia.
Qed.

Lemma track_usage_adds_witness :
  get_total_usage [(lit "search", mkUsage (Int 5) (Int 7) (Int 0))]
  = Ok (mkTotals 5 7 0)
  /\ get_total_usage (track_usage (lit "read") (mkUsage (Int 20) (Int 0) (Int 300))
                        [(lit "search", mkUsage (Int 5) (Int 7) (Int 0))])
     = Ok (mkTotals 25 7 300).
Proof.
  split; [reflexivity|].
  exact (proj1 (@track_usage_adds [(lit "search", mkUsage (Int 5) (Int 7) (Int 0))]
                  (lit "read") 20 0 300 (mkTotals 5 7 0) eq_refl)).
Defined.









End TokenFacts.

(** ** utils/text_tools.py: tags, line breaks, sampling *)

Module TextFilterFacts.

Import TextFilters TextShapes.

Lemma strip_tags_no_lt (text : str) :
  forall in_tag, Str.has_char LT (strip_tags in_tag text) = false.
Proof.
  induction text as [|c rest IH]; intro in_tag; [reflexivity|].
  cbn [strip_tags]. destruct in_tag; [apply IH|].
  destruct (Str.ceqb c LT) eqn:E; [apply IH|].
  unfold Str.has_char in *. cbn [existsb].
  rewrite IH, orb_false_r.
  destruct (Str.ceqb LT c) eqn:E2; [|reflexivity].
  apply StrFacts.ceqb_eq in E2. subst c. now rewrite StrFacts.ceqb_refl in E.
Qed.

Lemma strip_tags_plain (text : str) :
  Str.has_char LT text = false -> strip_tags false text = text.
Proof.
  unfold Str.has_char.
  induction text as [|c rest IH]; [reflexivity|].
  cbn [existsb strip_tags]. intro H. apply orb_false_iff in H. destruct H as [Hc Hr].
  destruct (Str.ceqb c LT) eqn:E.
  - apply StrFacts.ceqb_eq in E. subst c. now rewrite StrFacts.ceqb_refl in Hc.
  - now rewrite IH.
Qed.

Lemma strip_tags_unclosed (b : str) :
  Str.has_char GT b = false -> strip_tags true b = [].
Proof.
  unfold Str.has_char.
  induction b as [|c rest IH]; [reflexivity|].
  cbn [existsb strip_tags]. intro H. apply orb_false_iff in H. destruct H as [Hc Hr].
  destruct (Str.ceqb c GT) eqn:E.
  - apply StrFacts.ceqb_eq in E. subst c. now rewrite StrFacts.ceqb_refl in Hc.
  - simpl. now apply IH.
Qed.

Lemma strip_tags_app (a b : str) :
  Str.has_char LT a = false ->
  strip_tags false (a ++ b) = a ++ strip_tags false b.
Proof.
  unfold Str.has_char.
  induction a as [|c rest IH]; [reflexivity|].
  cbn [existsb app strip_tags]. intro H. apply orb_false_iff in H. destruct H as [Hc Hr].
  destruct (Str.ceqb c LT) eqn:E.
  - apply StrFacts.ceqb_eq in E. subst c. now rewrite StrFacts.ceqb_refl in Hc.
  - now rewrite IH.
Qed.

(** X19 ([remove_html_tags]): the result never contains [<]; a text
    without [<] comes back unchanged; and a [<] that is never closed by
    a [>] takes the whole rest of the text with it. *)
Theorem remove_html_tags_cuts (a b : str) :
  Str.has_char LT (remove_html_tags a) = false
  /\ (Str.has_char LT a = false -> remove_html_tags a = a)
  /\ (Str.has_char LT a = false -> Str.has_char GT b = false ->
      remove_html_tags (a ++ LT :: b) = a).
Proof.
  unfold remove_html_tags. split; [apply strip_tags_no_lt|].
  split; [apply strip_tags_plain|].
  intros Ha Hb. rewrite strip_tags_app by exact Ha.
  cbn [strip_tags]. rewrite StrFacts.ceqb_refl, strip_tags_unclosed by exact Hb.
  apply app_nil_r.
Qed.

Lemma squeeze_runs (text : str) :
  forall seen, seen <= 2 -> runs_within 2 seen (squeeze seen text) = true.
Proof.
  induction text as [|c rest IH]; intros seen Hs; [reflexivity|].
  cbn [squeeze]. destruct (Str.ceqb c NL) eqn:E.
  - destruct (seen <? 2) eqn:Hlt.
    + apply Nat.ltb_lt in Hlt. cbn [runs_within]. rewrite StrFacts.ceqb_refl.
      rewrite IH by lia. rewrite andb_true_r. apply Nat.leb_le. lia.
    + apply IH. exact Hs.
  - cbn [runs_within]. rewrite E. apply IH. lia.
Qed.

Lemma squeeze_fixed (text : str) :
  forall seen, runs_within 2 seen text = true -> squeeze seen text = text.
Proof.
  induction text as [|c rest IH]; intros seen H; [reflexivity|].
  cbn [runs_within] in H. cbn [squeeze]. destruct (Str.ceqb c NL) eqn:E.
  - apply andb_true_iff in H. destruct H as [Hle Hr]. apply Nat.leb_le in Hle.
    apply StrFacts.ceqb_eq in E. subst c.
    destruct (seen <? 2) eqn:Hlt; [|apply Nat.ltb_ge in Hlt; lia].
    now rewrite IH.
  - now rewrite IH.
Qed.

Lemma squeeze_length (text : str) :
  forall seen, List.length (squeeze seen text) <= List.length text.
Proof.
  induction text as [|c rest IH]; intro seen; [simpl; lia|].
  cbn [squeeze]. destruct (Str.ceqb c NL).
  - destruct (seen <? 2); simpl.
    + specialize (IH (S seen)). lia.
    + specialize (IH seen). lia.
  - simpl. specialize (IH 0). lia.
Qed.

(** X20 ([remove_extra_line_breaks]): the result never has more than
    two line feeds in a row, is never longer than the text, and is left
    unchanged by a second application; a text that has no run of three
    line feeds comes back unchanged. *)
Theorem remove_extra_line_breaks_shape (text : str) :
  runs_within 2 0 (remove_extra_line_breaks text) = true
  /\ List.length (remove_extra_line_breaks text) <= List.length text
  /\ remove_extra_line_breaks (remove_extra_line_breaks text)
     = remove_extra_line_breaks text
  /\ (runs_within 2 0 text = true -> remove_extra_line_breaks text = text).
Proof.
  unfold remove_extra_line_breaks.
  assert (H : runs_within 2 0 (squeeze 0 text) = true) by (apply squeeze_runs; lia).
  split; [exact H|]. split; [apply squeeze_length|].
  split; [now apply squeeze_fixed | apply squeeze_fixed].
Qed.

(** X21 ([choose_k]): when the shuffle rearranges its argument, the
    sample has [min k (len a)] elements, and the list is a rearrangement
    of the sample followed by the elements left out; so the sample
    repeats nothing the list does not repeat. *)
Theorem choose_k_sample (shuffle : list str -> list str) (a : list str) (k : nat) :
  Permutation a (shuffle a) ->
  List.length (choose_k shuffle a k) = Nat.min k (List.length a)
  /\ Permutation a (choose_k shuffle a k ++ skipn k (shuffle a))
  /\ incl (choose_k shuffle a k) a
  /\ (NoDup a -> NoDup (choose_k shuffle a k)).
Proof.
  intro Hp. unfold choose_k.
  assert (Hall : Permutation a (firstn k (shuffle a) ++ skipn k (shuffle a)))
    by now rewrite firstn_skipn.
  split; [rewrite length_firstn, <- (Permutation_length Hp); reflexivity|].
  split; [exact Hall|]. split.
  - intros x Hx. apply (Permutation_in x (Permutation_sym Hall)).
    apply in_or_app. now left.
  - intro Hn. apply (Permutation_NoDup Hall) in Hn.
    now apply NoDup_app_remove_r in Hn.
Qed.

Lemma choose_k_sample_witness :
  Permutation [lit "a"; lit "b"; lit "c"] (@rev str [lit "a"; lit "b"; lit "c"])
  /\ choose_k (@rev str) [lit "a"; lit "b"; lit "c"] 2 = [lit "c"; lit "b"]
  /\ List.length (choose_k (@rev str) [lit "a"; lit "b"; lit "c"] 2) = Nat.min 2 3.
Proof.
  split; [apply Permutation_rev|]. split; [reflexivity|].
  exact (proj1 (@choose_k_sample (@rev str) [lit "a"; lit "b"; lit "c"] 2
                  (Permutation_rev _))).
Defined.

End TextFilterFacts.

(** ** agent.py: the messages sent to the generator *)

Module MessageFacts.

Import Visit TextFilters Messages.


(** X22 ([build_msgs_from_knowledge]): every knowledge item becomes a
    user message followed by an assistant message, so the roles
    alternate starting with [user], there are twice as many messages as
    items, and no assistant text has three line feeds in a row. *)
Theorem build_msgs_alternates (knowledge : list KnowledgeItem) :
  List.length (build_msgs_from_knowledge knowledge) = 2 * List.length knowledge
  /\ map role (build_msgs_from_knowledge knowledge)
     = flat_map (fun _ => [lit "user"; lit "assistant"]) knowledge
  /\ forall m, In m (build_msgs_from_knowledge knowledge) ->
       role m = lit "assistant" -> TextShapes.runs_within 2 0 (content m) = true.
Proof.
  unfold build_msgs_from_knowledge.
  induction knowledge as [|k rest [IH1 [IH2 IH3]]].
  - split; [reflexivity|]. split; [reflexivity | intros m []].
  - cbn [flat_map app List.length map]. split; [rewrite IH1; simpl; lia|].
    split; [cbn [role]; now rewrite IH2|].
    intros m [<- | [<- | Hin]] Hr.
    + discriminate.
    + apply TextFilterFacts.remove_extra_line_breaks_shape.
    + now apply IH3.
Qed.

Section Compose.

Variable reviewer : nat -> str -> str.
Variable answer_requirements : str -> str.




End Compose.

End MessageFacts.

(** ** utils/url_tools.py: the URL list of the prompt *)

Module SelectFacts.

Import UrlTools Select.

Lemma insert_by_key_In (x y : Selected) (l : list Selected) :
  In y (insert_by_key x l) <-> y = x \/ In y l.
Proof.
  induction l as [|z l IH]; simpl.
  - intuition.
  - destruct (Qle_bool (sort_key z) (sort_key x)); simpl; [intuition|].
    rewrite IH. intuition.
Qed.

Lemma sort_by_key_In (y : Selected) (l : list Selected) :
  In y (sort_by_key l) <-> In y l.
Proof.
  induction l as [|x l IH]; simpl; [tauto|].
  rewrite insert_by_key_In, IH. intuition.
Qed.

Lemma insert_by_key_length (x : Selected) (l : list Selected) :
  List.length (insert_by_key x l) = S (List.length l).
Proof.
  induction l as [|z l IH]; simpl; auto.
  destruct (Qle_bool (sort_key z) (sort_key x)); simpl; auto.
Qed.

Lemma sort_by_key_length (l : list Selected) :
  List.length (sort_by_key l) = List.length l.
Proof.
  induction l as [|x l IH]; simpl; auto.
  now rewrite insert_by_key_length, IH.
Qed.

Lemma insert_by_key_sorted (x : Selected) (l : list Selected) :
  StronglySorted (fun a b => (sort_key b <= sort_key a)%Q) l ->
  StronglySorted (fun a b => (sort_key b <= sort_key a)%Q) (insert_by_key x l).
Proof.
  induction l as [|y l IH]; intro Hs; simpl.
  - constructor; constructor.
  - destruct (Qle_bool (sort_key y) (sort_key x)) eqn:E.
    + apply Qle_bool_iff in E. constructor; [exact Hs|].
      constructor; [exact E|].
      inversion Hs as [|? ? _ Hall]; subst.
      eapply Forall_impl; [|exact Hall]. intros z Hz. simpl in Hz.
      eapply Qle_trans; eassumption.
    + inversion Hs as [|? ? Hs' Hall]; subst.
      constructor; [now apply IH|].
      apply Forall_forall. intros z Hz.
      apply -> insert_by_key_In in Hz. destruct Hz as [-> | Hz].
      * destruct (Qlt_le_dec (sort_key y) (sort_key x)) as [Hlt | Hle]; [|exact Hle].
        apply Qlt_le_weak in Hlt. apply Qle_bool_iff in Hlt. congruence.
      * rewrite Forall_forall in Hall. now apply Hall.
Qed.

Lemma sort_by_key_sorted (l : list Selected) :
  StronglySorted (fun a b => (sort_key b <= sort_key a)%Q) (sort_by_key l).
Proof.
  induction l as [|x l IH]; simpl; [constructor | now apply insert_by_key_sorted].
Qed.

Lemma firstn_In (A : Type) (x : A) (n : nat) (l : list A) :
  In x (firstn n l) -> In x l.
Proof.
  revert n. induction l as [|y l IH]; intros [|n]; simpl; try tauto.
  intros [H | H]; [now left | right; eapply IH; exact H].
Qed.

Lemma firstn_sorted (A : Type) (R : A -> A -> Prop) (n : nat) (l : list A) :
  StronglySorted R l -> StronglySorted R (firstn n l).
Proof.
  revert n. induction l as [|x l IH]; intros n Hs; destruct n; simpl; try constructor.
  - inversion Hs; subst. now apply IH.
  - inversion Hs as [|? ? _ Hall]; subst. rewrite Forall_forall in *.
    intros y Hy. apply Hall. eapply firstn_In. exact Hy.
Qed.

Lemma candidates_spec (all_urls : Ledger) (x : Selected) :
  In x (candidates all_urls) ->
  sel_merged x <> []
  /\ exists k r, In (k, r) all_urls /\ sel_url x = url r /\ sel_score x = weight r
                 /\ sel_merged x = TextTools.smart_merge_strings (title r) (description r).
Proof.
  unfold candidates. intro H. apply in_flat_map in H. destruct H as [[k r] [Hin Hx]].
  cbn [snd] in Hx.
  destruct (TextTools.smart_merge_strings (title r) (description r)) as [|c m] eqn:E;
    [destruct Hx|].
  destruct Hx as [<- | []]. simpl. split; [discriminate|].
  exists k, r. rewrite E. auto.
Qed.

Lemma candidates_length (all_urls : Ledger) :
  List.length (candidates all_urls) <= List.length all_urls.
Proof.
  unfold candidates. induction all_urls as [|[k r] l IH]; simpl; [lia|].
  rewrite length_app.
  destruct (TextTools.smart_merge_strings (title r) (description r)); simpl; lia.
Qed.

(** X24 ([sort_select_urls]): the list offered to the prompt has at most
    [max_urls] entries and at most one per ledger entry, is in
    descending order of score (a missing weight counting as 0), and each
    entry is built from a ledger entry with a non-empty merged text. *)
Theorem sort_select_urls_shape (all_urls : Ledger) (max_urls : nat) :
  let out := sort_select_urls all_urls max_urls in
  List.length out <= Nat.min max_urls (List.length all_urls)
  /\ StronglySorted (fun a b => (sort_key b <= sort_key a)%Q) out
  /\ forall x, In x out ->
       sel_merged x <> []
       /\ exists k r, In (k, r) all_urls /\ sel_url x = url r /\ sel_score x = weight r
                      /\ sel_merged x
                         = TextTools.smart_merge_strings (title r) (description r).
Proof.
  cbv zeta. unfold sort_select_urls.
  destruct all_urls as [|kv rest].
  { split; [simpl; lia|]. split; [constructor | intros x []]. }
  set (l := kv :: rest).
  split; [|split].
  - rewrite length_firstn, sort_by_key_length.
    pose proof (candidates_length l). lia.
  - apply firstn_sorted, sort_by_key_sorted.
  - intros x Hx. apply firstn_In in Hx. apply -> sort_by_key_In in Hx.
    apply candidates_spec. exact Hx.
Qed.

End SelectFacts.

(** ** utils/date_tools.py *)

Module DateFacts.

Import DateTools.

Lemma two_width (n : Z) : (0 <= n < 100)%Z -> List.length (two n) = 2.
Proof.
  intro H.
  assert (Hall : forallb (fun k => Nat.eqb (List.length (two (Z.of_nat k))) 2) (seq 0 100) = true)
    by (vm_compute; reflexivity).
  rewrite forallb_forall in Hall.
  specialize (Hall (Z.to_nat n)). rewrite Z2Nat.id in Hall by lia.
  apply Nat.eqb_eq, Hall, in_seq. lia.
Qed.

Lemma year_width (n : Z) : (1000 <= n <= 9999)%Z -> List.length (Str.of_Z n) = 4.
Proof.
  intro H.
  assert (Hall : forallb (fun k => Nat.eqb (List.length (Str.of_Z (1000 + Z.of_nat k))) 4)
                   (seq 0 (90 * 100)) = true)
    by (vm_compute; reflexivity).
  rewrite forallb_forall in Hall.
  specialize (Hall (Z.to_nat (n - 1000))). rewrite Z2Nat.id in Hall by lia.
  replace (1000 + (n - 1000))%Z with n in Hall by lia.
  apply Nat.eqb_eq, Hall, in_seq. lia.
Qed.

(** X25 ([format_date_based_on_type]): for a date with a four-digit year
    the three formats have fixed widths 10, 16 and 19; the day format
    (also used for [year]) is the beginning of the hour format, which is
    the beginning of the full format; any other format name gives the
    full format. *)
Theorem format_date_widths (d : DateTime) (other : str) :
  four_digit d = true ->
  List.length (format_date_based_on_type d (lit "day")) = 10
  /\ List.length (format_date_based_on_type d (lit "hour")) = 16
  /\ List.length (format_date_based_on_type d (lit "full")) = 19
  /\ format_date_based_on_type d (lit "year") = format_date_based_on_type d (lit "day")
  /\ firstn 10 (format_date_based_on_type d (lit "hour"))
     = format_date_based_on_type d (lit "day")
  /\ firstn 16 (format_date_based_on_type d (lit "full"))
     = format_date_based_on_type d (lit "hour")
  /\ (Str.eqb other (lit "year") || Str.eqb other (lit "day") || Str.eqb other (lit "hour")
      = false ->
      format_date_based_on_type d other = format_date_based_on_type d (lit "full")).
Proof.
  intro H. unfold four_digit in H.
  repeat (apply andb_true_iff in H; destruct H as [H ?]).
  repeat match goal with
         | K : (_ <=? _)%Z = true |- _ => apply Z.leb_le in K
         end.
  assert (Hd : List.length (date_part d) = 10).
  { unfold date_part. rewrite !length_app, year_width, !two_width by lia. reflexivity. }
  assert (Hh : List.length (date_part d ++ lit " " ++ two (hour d) ++ lit ":" ++ two (minute d)) = 16).
  { rewrite !length_app, Hd, !two_width by lia. reflexivity. }
  change (format_date_based_on_type d (lit "day")) with (date_part d).
  change (format_date_based_on_type d (lit "year")) with (date_part d).
  change (format_date_based_on_type d (lit "hour"))
    with (date_part d ++ lit " " ++ two (hour d) ++ lit ":" ++ two (minute d)).
  change (format_date_based_on_type d (lit "full"))
    with (date_part d ++ lit " " ++ two (hour d) ++ lit ":" ++ two (minute d)
          ++ lit ":" ++ two (second d)).
  split; [exact Hd|]. split; [exact Hh|]. split.
  { rewrite !length_app, Hd, !two_width by lia. reflexivity. }
  split; [reflexivity|]. split.
  { rewrite <- Hd. rewrite firstn_app, Nat.sub_diag, firstn_all. simpl. apply app_nil_r. }
  split.
  { replace (date_part d ++ lit " " ++ two (hour d) ++ lit ":" ++ two (minute d)
             ++ lit ":" ++ two (second d))
      with ((date_part d ++ lit " " ++ two (hour d) ++ lit ":" ++ two (minute d))
            ++ lit ":" ++ two (second d))
      by (rewrite <- !app_assoc; reflexivity).
    rewrite <- Hh at 1. rewrite firstn_app, Nat.sub_diag, firstn_all. simpl. apply app_nil_r. }
  intro Ho. unfold format_date_based_on_type.
  apply orb_false_iff in Ho. destruct Ho as [Ho Ho3].
  apply orb_false_iff in Ho. destruct Ho as [Ho1 Ho2].
  rewrite Ho1, Ho2, Ho3. reflexivity.
Qed.

Lemma format_date_widths_witness :
  four_digit (mkDateTime 2025 3 7 9 5 0) = true
  /\ format_date_based_on_type (mkDateTime 2025 3 7 9 5 0) (lit "full")
     = lit "2025-03-07 09:05:00"
  /\ List.length (format_date_based_on_type (mkDateTime 2025 3 7 9 5 0) (lit "day")) = 10.
Proof.
  split; [reflexivity|]. split; [vm_compute; reflexivity|].
  exact (proj1 (@format_date_widths (mkDateTime 2025 3 7 9 5 0) (lit "iso") eq_refl)).
Defined.

End DateFacts.

(** ** agent.py: running the search queries *)

Module SearchFacts.

Import Normalizer UrlTools Visit TextFilters Search Shapes.

Section Facts.

Variable jina : bool.
Variable search : str -> result (list RawResult).
Variable format_date_range : Query -> str.
Variable only_hostnames : list str.

Let run_query' := run_query jina search format_date_range only_hostnames.
Let run_queries' := run_queries jina search format_date_range only_hostnames.

Lemma add_each_keys (rs : list SearchSnippet) :
  forall l n l' n', add_each rs l n = Ok (l', n') -> incl (keys l) (keys l').
Proof.
  induction rs as [|r rest IH]; intros l n l' n' H; cbn [add_each] in H.
  - injection H as <- <-. apply incl_refl.
  - destruct (add_to_all_urls r l 1%Q) as [[l1 k]|e] eqn:E; cbn [Py.bind] in H; [|discriminate].
    cbn [fst snd] in H. eapply incl_tran; [|eapply IH; exact H].
    eapply VisitFacts.add_to_all_urls_keys. exact E.
Qed.

Lemma run_query_barren (query : Query) (p : Progress) :
  barren jina search only_hostnames query -> run_query' query p = Ok p.
Proof.
  unfold barren, run_query', run_query. cbn [q].
  intros [-> | [[e ->] | ->]]; [reflexivity | destruct jina; reflexivity |
                                destruct jina; reflexivity].
Qed.

Lemma run_queries_app (a b : list Query) (p : Progress) :
  run_queries' (a ++ b) p = (p' <- run_queries' a p ;; run_queries' b p').
Proof.
  unfold run_queries'. revert p.
  induction a as [|x a IH]; intro p; [reflexivity|].
  cbn [app run_queries].
  destruct (run_query jina search format_date_range only_hostnames x p) as [p1|e];
    cbn [Py.bind]; [apply IH | reflexivity].
Qed.

Lemma run_query_shape (query : Query) (p p' : Progress) :
  run_query' query p = Ok p' ->
  incl (keys (ledger p)) (keys (ledger p'))
  /\ exists ks qs,
       new_knowledge p' = new_knowledge p ++ ks
       /\ searched_queries p' = searched_queries p ++ qs
       /\ List.length ks = List.length qs
       /\ Subseq qs [with_sites only_hostnames (q query)]
       /\ forall k, In k ks ->
            k_type k = SIDE_INFO /\ Str.has_char LT (k_answer k) = false.
Proof.
  unfold run_query', run_query. cbn [q tbs].
  assert (Hsame : Ok p = Ok p' ->
            incl (keys (ledger p)) (keys (ledger p'))
            /\ exists ks qs,
                 new_knowledge p' = new_knowledge p ++ ks
                 /\ searched_queries p' = searched_queries p ++ qs
                 /\ List.length ks = List.length qs
                 /\ Subseq qs [with_sites only_hostnames (q query)]
                 /\ forall k, In k ks ->
                      k_type k = SIDE_INFO /\ Str.has_char LT (k_answer k) = false).
  { intro H. injection H as <-. split; [apply incl_refl|].
    exists [], []. rewrite !app_nil_r.
    split; [reflexivity|]. split; [reflexivity|]. split; [reflexivity|].
    split; [constructor; constructor | intros k []]. }
  destruct (if jina then search (with_sites only_hostnames (q query)) else Ok [])
    as [[|r results]|e]; [exact Hsame | | exact Hsame].
  destruct (add_each (min_results_of (r :: results)) (ledger p) (utility_score p))
    as [[l1 n1]|e] eqn:E; cbn [Py.bind]; [|discriminate].
  intro H. injection H as <-. cbn [ledger new_knowledge searched_queries fst].
  split; [eapply add_each_keys; exact E|].
  eexists. eexists. split; [reflexivity|]. split; [reflexivity|].
  split; [reflexivity|]. split; [constructor; constructor|].
  intros k [<- | []]. cbn [k_type k_answer]. split; [reflexivity|].
  apply TextFilterFacts.remove_html_tags_cuts. exact [].
Qed.

Lemma run_queries_shape (queries : list Query) :
  forall p p', run_queries' queries p = Ok p' ->
    incl (keys (ledger p)) (keys (ledger p'))
    /\ exists ks qs,
         new_knowledge p' = new_knowledge p ++ ks
         /\ searched_queries p' = searched_queries p ++ qs
         /\ List.length ks = List.length qs
         /\ Subseq qs (map (fun query => with_sites only_hostnames (q query)) queries)
         /\ forall k, In k ks ->
              k_type k = SIDE_INFO /\ Str.has_char LT (k_answer k) = false.
Proof.
  unfold run_queries'.
  induction queries as [|query rest IH]; intros p p' H; cbn [run_queries] in H.
  - injection H as <-. split; [apply incl_refl|].
    exists [], []. rewrite !app_nil_r.
    split; [reflexivity|]. split; [reflexivity|]. split; [reflexivity|].
    split; [constructor | intros k []].
  - destruct (run_query jina search format_date_range only_hostnames query p) as [p1|e] eqn:E;
      cbn [Py.bind] in H; [|discriminate].
    destruct (run_query_shape query p E) as [Hk1 [ks1 [qs1 [A1 [B1 [C1 [D1 F1]]]]]]].
    destruct (IH _ _ H) as [Hk2 [ks2 [qs2 [A2 [B2 [C2 [D2 F2]]]]]]].
    split; [eapply incl_tran; eassumption|].
    exists (ks1 ++ ks2), (qs1 ++ qs2).
    split; [rewrite A2, A1; now rewrite app_assoc|].
    split; [rewrite B2, B1; now rewrite app_assoc|].
    split; [rewrite !length_app; lia|]. split.
    + cbn [map].
      change (with_sites only_hostnames (q query)
              :: map (fun query0 => with_sites only_hostnames (q query0)) rest)
        with ([with_sites only_hostnames (q query)]
              ++ map (fun query0 => with_sites only_hostnames (q query0)) rest).
      clear - D1 D2. induction D1; simpl; [exact D2 | |]; constructor; auto.
    + intros k Hin. apply in_app_or in Hin. destruct Hin; auto.
Qed.

(** X26 ([execute_search_queries], success): one knowledge item of type
    side-info is produced per searched query, and its answer holds no
    [<]; the searched queries are the given queries (with the [site:]
    suffix) with some left out, in order; the ledger keeps every key it
    had. *)
Theorem execute_search_queries_shape (keywords_queries : list Query) (all_urls l' : Ledger)
        (knowledge : list KnowledgeItem) (searched : list str) :
  execute_search_queries jina search format_date_range only_hostnames
    keywords_queries all_urls = Ok (l', knowledge, searched) ->
  List.length knowledge = List.length searched
  /\ Subseq searched (map (fun query => with_sites only_hostnames (q query)) keywords_queries)
  /\ incl (keys all_urls) (keys l')
  /\ forall k, In k knowledge ->
       k_type k = SIDE_INFO /\ Str.has_char LT (k_answer k) = false.
Proof.
  unfold execute_search_queries.
  destruct (run_queries jina search format_date_range only_hostnames keywords_queries
              (mkProgress all_urls [] [] 0)) as [p|e] eqn:E; cbn [Py.bind]; [|discriminate].
  intro H. injection H as <- <- <-.
  destruct (run_queries_shape keywords_queries _ E) as [Hk [ks [qs [A [B [C [D F]]]]]]].
  cbn [new_knowledge searched_queries ledger app] in *. rewrite A, B.
  repeat split; auto; apply F; assumption.
Qed.

(** X27 ([execute_search_queries], failures): a query whose search
    raises, or returns no result, is skipped without a trace: the
    outcome is the same as if the query had not been in the list. *)
Theorem execute_search_queries_skips (pre post : list Query) (query : Query)
        (all_urls : Ledger) :
  barren jina search only_hostnames query ->
  execute_search_queries jina search format_date_range only_hostnames
    (pre ++ query :: post) all_urls
  = execute_search_queries jina search format_date_range only_hostnames
      (pre ++ post) all_urls.
Proof.
  intro Hb. unfold execute_search_queries.
  fold run_queries'. rewrite !run_queries_app.
  destruct (run_queries' pre (mkProgress all_urls [] [] 0)) as [p|e]; cbn [Py.bind];
    [|reflexivity].
  unfold run_queries' at 1. cbn [run_queries]. fold run_query' run_queries'.
  rewrite (run_query_barren p Hb). reflexivity.
Qed.

End Facts.

Lemma execute_search_queries_shape_witness :
  exists l' k,
    execute_search_queries true SearchExamples.search_demo SearchExamples.no_range []
      [mkQuery (lit "cats") None; mkQuery (lit "dogs") None; mkQuery (lit "owls") None] []
    = Ok (l', [k], [lit "cats"])
    /\ keys l' = [lit "http://a.com/cats"]
    /\ k_answer k = lit "cats purr"
    /\ List.length [k] = List.length [lit "cats"].
Proof.
  destruct (execute_search_queries true SearchExamples.search_demo SearchExamples.no_range []
              [mkQuery (lit "cats") None; mkQuery (lit "dogs") None; mkQuery (lit "owls") None] [])
    as [[[l' ks] qs]|e] eqn:E; [|vm_compute in E; discriminate].
  pose proof (proj1 (@execute_search_queries_shape _ _ _ _ _ _ _ _ _ E)) as Hlen.
  vm_compute in E. injection E as <- <- <-.
  eexists. eexists. split; [reflexivity|]. split; [reflexivity|]. split; [reflexivity|].
  exact Hlen.
Defined.

Lemma execute_search_queries_skips_witness :
  barren true SearchExamples.search_demo [] (mkQuery (lit "dogs") None)
  /\ execute_search_queries true SearchExamples.search_demo SearchExamples.no_range []
       ([mkQuery (lit "cats") None] ++ mkQuery (lit "dogs") None :: []) []
     = execute_search_queries true SearchExamples.search_demo SearchExamples.no_range []
         ([mkQuery (lit "cats") None] ++ []) [].
Proof.
  assert (Hb : barren true SearchExamples.search_demo [] (mkQuery (lit "dogs") None))
    by (right; left; exists ExternalError; reflexivity).
  split; [exact Hb|].
  exact (@execute_search_queries_skips true SearchExamples.search_demo SearchExamples.no_range []
           [mkQuery (lit "cats") None] [] (mkQuery (lit "dogs") None) [] Hb).
Defined.

End SearchFacts.
